(** * Grading evaluation and workflow engine: criteria validation and task payloads

    A shallow embedding of the test validator (ValidateTestInput and the
    functions below it) and of the task helper (task.helper.js), with the
    properties of the engine's specification stated over them.

    JavaScript values are embedded as an inductive type, numbers as IEEE-754
    binary64 values ([spec_float] with precision 53), strings as the bytes of
    their UTF-8 encoding, thrown exceptions as the [Throw] case of a result
    type, and object literals that are used as update documents as finite
    maps from field names to values.  The case mappings of strings, which
    belong to Unicode and not to the program, are a parameter. *)

From Stdlib Require Import ZArith QArith Qabs String Ascii List Bool Lia DecimalString.
From Stdlib Require Import SpecFloat.
From stdpp Require Import base option strings gmap.

Import ListNotations.
Local Open Scope string_scope.

(** ** JavaScript values *)

Module JS.

(** Numbers are binary64 floating point values. *)
Definition number := spec_float.
Definition prec : Z := 53.
Definition emax : Z := 1024.

Definition of_Z (z : Z) : number := binary_normalize prec emax z 0 false.
Definition of_nat (n : nat) : number := of_Z (Z.of_nat n).
Definition zero : number := S754_zero false.

Definition add (x y : number) : number := SFadd prec emax x y.
Definition div (x y : number) : number := SFdiv prec emax x y.
(** [x < y], [x <= y], [x == y] on numbers; all three are false on NaN. *)
Definition lt (x y : number) : bool := SFltb x y.
Definition le (x y : number) : bool := SFleb x y.
Definition eq (x y : number) : bool := SFeqb x y.
Definition gt (x y : number) : bool := SFltb y x.
Definition ge (x y : number) : bool := SFleb y x.

Definition isNaN (x : number) : bool :=
  match x with S754_nan => true | _ => false end.

#[warnings="-register-all"]
Inductive value :=
| VUndefined
| VNull
| VBool (b : bool)
| VNumber (x : number)
| VString (s : string)
| VArray (l : list value)
| VObject (fields : list (string * value)).

Definition typeof (v : value) : string :=
  match v with
  | VUndefined => "undefined"
  | VNull => "object"
  | VBool _ => "boolean"
  | VNumber _ => "number"
  | VString _ => "string"
  | VArray _ => "object"
  | VObject _ => "object"
  end.

(** ToBoolean: the falsy values are undefined, null, false, +0, -0, NaN
    and the empty string. *)
Definition truthy (v : value) : bool :=
  match v with
  | VUndefined | VNull => false
  | VBool b => b
  | VNumber (S754_zero _) | VNumber S754_nan => false
  | VNumber _ => true
  | VString s => negb (String.eqb s "")
  | VArray _ | VObject _ => true
  end.

(** [v !== undefined] *)
Definition is_defined (v : value) : bool :=
  match v with VUndefined => false | _ => true end.

(** [v !== undefined && v !== null] *)
Definition not_nullish (v : value) : bool :=
  match v with VUndefined | VNull => false | _ => true end.

(** *** Strings

    A string is held as the bytes of its UTF-8 encoding (a surrogate that
    stands alone as the three bytes of its code point), so that two strings
    are the same value exactly when they are the same sequence of bytes.
    The program compares strings, puts them between pieces of its own text,
    trims them and turns them to upper case; it never measures or indexes
    one. *)

Definition bytes (l : list nat) : string :=
  string_of_list_ascii (map ascii_of_nat l).

(** The characters that [trim] removes, each by its encoding: the WhiteSpace
    and LineTerminator characters of the language, that is TAB, LF, VT, FF,
    CR, SPACE, U+00A0, U+1680, U+2000 to U+200A, U+2028, U+2029, U+202F,
    U+205F, U+3000 and U+FEFF. *)
Definition WhiteSpace : list string :=
  [ bytes [9]; bytes [10]; bytes [11]; bytes [12]; bytes [13]; bytes [32];
    bytes [194; 160];
    bytes [225; 154; 128];
    bytes [226; 128; 128]; bytes [226; 128; 129]; bytes [226; 128; 130];
    bytes [226; 128; 131]; bytes [226; 128; 132]; bytes [226; 128; 133];
    bytes [226; 128; 134]; bytes [226; 128; 135]; bytes [226; 128; 136];
    bytes [226; 128; 137]; bytes [226; 128; 138];
    bytes [226; 128; 168]; bytes [226; 128; 169];
    bytes [226; 128; 175];
    bytes [226; 129; 159];
    bytes [227; 128; 128];
    bytes [239; 187; 191] ].

(** [s] without the prefix [p], when it starts with [p]. *)
Fixpoint drop_prefix (p s : string) : option string :=
  match p, s with
  | EmptyString, _ => Some s
  | String a p', String b s' => if Ascii.eqb a b then drop_prefix p' s' else None
  | String _ _, EmptyString => None
  end.

(** [s] without the first of the prefixes [ps] that it starts with. *)
Fixpoint drop_one_of (ps : list string) (s : string) : option string :=
  match ps with
  | [] => None
  | p :: ps' =>
      match drop_prefix p s with
      | Some s' => Some s'
      | None => drop_one_of ps' s
      end
  end.

(** At most [n] of the prefixes [ps] are removed from the start of [s], one
    after the other. *)
Fixpoint drop_leading (n : nat) (ps : list string) (s : string) : string :=
  match n with
  | O => s
  | S n' =>
      match drop_one_of ps s with
      | Some s' => drop_leading n' ps s'
      | None => s
      end
  end.

Definition reverse (s : string) : string :=
  string_of_list_ascii (rev (list_ascii_of_string s)).

(** A string holds no more characters than bytes. *)
Definition trimStart (s : string) : string :=
  drop_leading (String.length s) WhiteSpace s.

Definition trimEnd (s : string) : string :=
  reverse (drop_leading (String.length s) (map reverse WhiteSpace) (reverse s)).

Definition trim (s : string) : string := trimEnd (trimStart s).

(** Letter case of ASCII text. *)
Definition is_lower (c : ascii) : bool :=
  let n := nat_of_ascii c in (97 <=? n)%nat && (n <=? 122)%nat.

Definition is_upper (c : ascii) : bool :=
  let n := nat_of_ascii c in (65 <=? n)%nat && (n <=? 90)%nat.

Definition upper_char (c : ascii) : ascii :=
  if is_lower c then ascii_of_nat (nat_of_ascii c - 32) else c.

Definition lower_char (c : ascii) : ascii :=
  if is_upper c then ascii_of_nat (nat_of_ascii c + 32) else c.

Fixpoint ascii_toUpperCase (s : string) : string :=
  match s with
  | EmptyString => EmptyString
  | String c r => String (upper_char c) (ascii_toUpperCase r)
  end.

Fixpoint ascii_toLowerCase (s : string) : string :=
  match s with
  | EmptyString => EmptyString
  | String c r => String (lower_char c) (ascii_toLowerCase r)
  end.

Definition is_ascii_char (c : ascii) : bool := (nat_of_ascii c <? 128)%nat.

(** The string is ASCII text: each of its bytes is a character below 128. *)
Definition is_ascii (s : string) : bool :=
  forallb is_ascii_char (list_ascii_of_string s).

(** [String.prototype.toUpperCase] and [String.prototype.toLowerCase] follow
    the case mappings of Unicode, which are data of the language and no part
    of the program.  They are parameters of the development; what is known
    of them is that they turn ASCII text into ASCII text, changing the
    letters a to z, or A to Z, and nothing else.  The program calls
    [toUpperCase] only. *)
Class StringCase := {
  toUpperCase : string -> string;
  toLowerCase : string -> string;
  toUpperCase_ascii : forall s, is_ascii s = true -> toUpperCase s = ascii_toUpperCase s;
  toLowerCase_ascii : forall s, is_ascii s = true -> toLowerCase s = ascii_toLowerCase s
}.

(** [Array.prototype.includes] on an array of strings, asked for a string. *)
Definition includes (l : list string) (s : string) : bool :=
  existsb (String.eqb s) l.

(** [Array.prototype.join] *)
Fixpoint join (sep : string) (l : list string) : string :=
  match l with
  | [] => ""
  | [x] => x
  | x :: r => x ++ sep ++ join sep r
  end.

(** Decimal numeral of an array index, as a template literal prints it. *)
Definition index_to_string (n : nat) : string :=
  NilZero.string_of_uint (Nat.to_uint n).

Definition dquote : string := String (ascii_of_nat 34) EmptyString.

(** *** Exceptions *)

Inductive exn :=
| ApolloError (message code : string) (extensions : list (string * string))
| TypeError (message : string).

Definition exn_message (e : exn) : string :=
  match e with
  | ApolloError m _ _ => m
  | TypeError m => m
  end.

Inductive result (A : Type) :=
| Ok (a : A)
| Throw (e : exn).
Arguments Ok {A} a.
Arguments Throw {A} e.

Definition bind {A B} (m : result A) (k : A -> result B) : result B :=
  match m with
  | Ok a => k a
  | Throw e => Throw e
  end.

#[global] Instance result_bind : MBind result := fun A B k m => bind m k.

(** [if (b) throw e] *)
Definition throw_if (b : bool) (e : exn) : result unit :=
  if b then Throw e else Ok tt.

Definition succeeds {A} (m : result A) : bool :=
  match m with Ok _ => true | Throw _ => false end.

Section StringMethods.

Context {SC : StringCase}.

(** [receiver.toUpperCase()] for an arbitrary value, [receiver] being the
    text of the expression: a method of strings only.  The messages are
    those of V8. *)
Definition call_toUpperCase (receiver : string) (v : value) : result string :=
  match v with
  | VString s => Ok (toUpperCase s)
  | VUndefined =>
      Throw (TypeError "Cannot read properties of undefined (reading 'toUpperCase')")
  | VNull => Throw (TypeError "Cannot read properties of null (reading 'toUpperCase')")
  | _ => Throw (TypeError (receiver ++ ".toUpperCase is not a function"))
  end.

End StringMethods.

(** A property that holds an array when the input is well formed, and any
    other value otherwise ([Array.isArray] tells them apart); the value of
    [NotArray] is not an array. *)
Inductive maybe_array (A : Type) :=
| NotArray (v : value)
| IsArray (l : list A).
Arguments NotArray {A} v.
Arguments IsArray {A} l.

(** A value that should be an object, such as an element of an array of
    objects.  [null] and [undefined] have no properties, and reading one
    throws a TypeError.  Every other value is an object as far as its
    properties are read: a number, a boolean, a string or an array has none
    of the properties that the program reads, and is the object whose
    properties are all undefined. *)
Inductive nullable (A : Type) :=
| IsNull
| IsUndefined
| IsObject (a : A).
Arguments IsNull {A}.
Arguments IsUndefined {A}.
Arguments IsObject {A} a.

(** [x.property]: the object whose property is read, or the TypeError of V8
    when there is none. *)
Definition reading {A} (x : nullable A) (property : string) : result A :=
  match x with
  | IsObject a => Ok a
  | IsNull =>
      Throw (TypeError ("Cannot read properties of null (reading '" ++ property ++ "')"))
  | IsUndefined =>
      Throw (TypeError ("Cannot read properties of undefined (reading '" ++ property ++ "')"))
  end.

(** [const { property, ... } = name]: the object that is taken apart. *)
Definition destructuring {A} (x : nullable A) (property name : string) : result A :=
  match x with
  | IsObject a => Ok a
  | IsNull =>
      Throw (TypeError ("Cannot destructure property '" ++ property ++ "' of '" ++ name
                        ++ "' as it is null."))
  | IsUndefined =>
      Throw (TypeError ("Cannot destructure property '" ++ property ++ "' of '" ++ name
                        ++ "' as it is undefined."))
  end.

(** [Array.prototype.forEach] with the element index, for a callback that
    may throw: the first exception ends the loop. *)
Fixpoint forEach_from {A} (f : A -> nat -> result unit) (l : list A) (i : nat)
  : result unit :=
  match l with
  | [] => Ok tt
  | x :: r => f x i ;; forEach_from f r (S i)
  end.

Definition forEach {A} (l : list A) (f : A -> nat -> result unit) : result unit :=
  forEach_from f l 0.

(** [Array.prototype.map] for a callback that may throw. *)
Fixpoint map_array {A B} (f : A -> result B) (l : list A) : result (list B) :=
  match l with
  | [] => Ok []
  | x :: r => y ← f x ; ys ← map_array f r ; Ok (y :: ys)
  end.

End JS.

Import JS.


(** ** The test validator *)

(** *** The shapes of its inputs

    A property that the validator tests with [typeof] or compares is an
    arbitrary value, [VUndefined] when the object does not have it. *)

Module Notation.
Record t := { notation_text : value; max_points : value }.
End Notation.

Module Condition.
Record t := {
  criteria_type : value;
  comparison_operator : value;
  mark : value;
  notation_text : value
}.
End Condition.

Module Group.
Record t := { conditions : maybe_array (nullable Condition.t) }.
End Group.

Module Branch.
Record t := { test_criteria_groups : maybe_array (nullable Group.t) }.
End Branch.

Module TestPassingCriteria.
(** A branch is tested for its truth value before anything of it is read:
    a branch that is falsy (undefined and null among them) is [None]. *)
Record t := { pass_criteria : option Branch.t; fail_criteria : option Branch.t }.
End TestPassingCriteria.

Module TestInput.
(** The scalar properties are arbitrary values ([VUndefined] when absent);
    [connected_test] is an optional identifier, [None] when it is falsy, and
    [test_passing_criteria] an optional object, [None] when it is falsy. *)
Record t := {
  name : value;
  description : value;
  test_type : value;
  result_visibility : value;
  weight : value;
  correction_type : value;
  is_retake : value;
  test_status : value;
  notations : maybe_array (nullable Notation.t);
  connected_test : option string;
  test_passing_criteria : option TestPassingCriteria.t
}.

(** [testInput[field]] for the fields named by the validation rules. *)
Definition get (testInput : t) (field : string) : value :=
  if String.eqb field "name" then name testInput
  else if String.eqb field "description" then description testInput
  else if String.eqb field "test_type" then test_type testInput
  else if String.eqb field "result_visibility" then result_visibility testInput
  else if String.eqb field "weight" then weight testInput
  else if String.eqb field "correction_type" then correction_type testInput
  else if String.eqb field "is_retake" then is_retake testInput
  else if String.eqb field "test_status" then test_status testInput
  else VUndefined.
End TestInput.

Record rule := {
  rule_field : string;
  rule_required : bool;
  rule_validate : value -> bool;
  rule_message : string
}.

(** *** The criteria *)

(** [new Set(...)] of notation texts and [Set.prototype.has] asked for a
    string: only a string element can be the same value as a string. *)
Definition Set_has_string (set : list value) (s : string) : bool :=
  existsb (fun v => match v with VString t => String.eqb t s | _ => false end) set.

Definition validCriteriaType : list string := ["MARK"; "AVERAGE"].
Definition validComparisonOperator : list string := ["GTE"; "LTE"; "GT"; "LT"; "E"].

Definition BAD_USER_INPUT (message : string) : exn :=
  ApolloError message "BAD_USER_INPUT" [].

Definition criteria_type_error (path : string) : exn :=
  BAD_USER_INPUT ("Field '" ++ path ++ ".criteria_type' is required and must be one of: "
                  ++ join ", " validCriteriaType ++ ".").

Definition comparison_operator_error (path : string) : exn :=
  BAD_USER_INPUT ("Field '" ++ path ++ ".comparison_operator' is required and must be one of: "
                  ++ join ", " validComparisonOperator ++ ".").

Definition mark_error (path : string) : exn :=
  BAD_USER_INPUT ("Field '" ++ path ++ ".mark' is required and must be a number ≥ 0.").

Definition notation_text_missing_error (path : string) : exn :=
  BAD_USER_INPUT ("Field '" ++ path ++ ".notation_text' is required and must be a non-empty string when 'criteria_type' is 'MARK'.").

Definition notation_text_unknown_error (path : string) (text : string) : exn :=
  BAD_USER_INPUT ("Value " ++ dquote ++ text ++ dquote ++ " in '" ++ path
                  ++ ".notation_text' does not match any notation defined for this test.").

(** [typeof v !== 'number' || v < 0] *)
Definition not_number_or_negative (v : value) : bool :=
  match v with
  | VNumber x => lt x zero
  | _ => true
  end.

Definition no_branch_error : exn :=
  BAD_USER_INPUT "Field 'test_passing_criteria' must contain at least one of 'pass_criteria' or 'fail_criteria'.".

Definition pass_path : string := "test_passing_criteria.pass_criteria.test_criteria_groups".
Definition fail_path : string := "test_passing_criteria.fail_criteria.test_criteria_groups".

Definition validTestType : list string :=
  ["FREE_CONTINUOUS_CONTROL"; "MEMMOIRE_ORAL_NON_JURY"; "MEMOIRE_ORAL"; "MEMOIRE_WRITTEN";
   "MENTOR_EVALUATION"; "ORAL"; "WRITTEN"].
Definition validResultVisibility : list string :=
  ["NEVER"; "AFTER_CORRECTION"; "AFTER_JURY_DECISION_FOR_FINAL_TRANSCRIPT"].
Definition validCorrectionType : list string :=
  ["ADMTC"; "CERTIFIER"; "CROSS_CORRECTION"; "PREPARATION_CENTER"].
Definition validStatus : list string := ["ACTIVE"; "INACTIVE"].
Definition competencyTestTypes : list string :=
  ["ORAL"; "WRITTEN"; "MEMOIRE_WRITTEN"; "FREE_CONTINUOUS_CONTROL"; "MENTOR_EVALUATION"].
Definition scoreTestTypes : list string :=
  ["FREE_CONTINUOUS_CONTROL"; "MEMMOIRE_ORAL_NON_JURY"; "MEMOIRE_ORAL"; "MEMOIRE_WRITTEN";
   "MENTOR_EVALUATION"; "ORAL"; "WRITTEN"].

(** [typeof val === 'string' && val.trim() !== ''] *)
Definition is_nonblank_string (val : value) : bool :=
  match val with
  | VString s => negb (String.eqb (trim s) "")
  | _ => false
  end.

(** [typeof val === 'number' && !isNaN(val) && val >= 0 && val <= 1] *)
Definition is_weight (val : value) : bool :=
  match val with
  | VNumber x => negb (isNaN x) && ge x zero && le x (of_Z 1)
  | _ => false
  end.

Definition is_boolean (val : value) : bool :=
  match val with VBool _ => true | _ => false end.

Definition field_error (message field : string) : exn :=
  ApolloError message "BAD_USER_INPUT" [("field", field)].

(** One turn of the loop over the submitted notations. *)
Definition check_notation (notation : nullable Notation.t) (index : nat) : result unit :=
  notation ← destructuring notation "notation_text" "notation" ;
  let notation_text := Notation.notation_text notation in
  let max_points := Notation.max_points notation in
  throw_if (negb (truthy notation_text) || negb (is_nonblank_string notation_text))
    (field_error ("Notation at index " ++ index_to_string index ++ " must have non-empty text.")
                 ("notations[" ++ index_to_string index ++ "].notation_text")) ;;
  throw_if (match max_points with
            | VNumber x => isNaN x || lt x zero
            | _ => true
            end)
    (field_error ("Notation at index " ++ index_to_string index
                  ++ " must have a valid max_points (number ≥ 0).")
                 ("notations[" ++ index_to_string index ++ "].max_points")).

(** [x !== undefined] and the truth value of a property that should hold an
    array. *)
Definition array_is_defined {A} (a : maybe_array A) : bool :=
  match a with NotArray v => is_defined v | IsArray _ => true end.

Definition array_truthy {A} (a : maybe_array A) : bool :=
  match a with NotArray v => truthy v | IsArray _ => true end.

Definition no_notations_error : exn :=
  BAD_USER_INPUT "Cannot validate 'test_passing_criteria' because no notations are available for this test.".

(** [notations.map(n => n.notation_text)] *)
Definition notation_texts_of (notations : list (nullable Notation.t)) : result (list value) :=
  map_array (fun n => n ← reading n "notation_text" ; Ok (Notation.notation_text n)) notations.

Section TestValidator.

Context {SC : StringCase}.

(** [typeof v !== 'string' || !valid.includes(v.toUpperCase())] *)
Definition not_string_in (valid : list string) (v : value) : bool :=
  match v with
  | VString s => negb (includes valid (toUpperCase s))
  | _ => true
  end.

Definition validateSingleNotationCondition
    (condition : nullable Condition.t) (availableNotationTexts : list value) (path : string)
  : result unit :=
  condition ← reading condition "criteria_type" ;
  throw_if (not_string_in validCriteriaType (Condition.criteria_type condition))
           (criteria_type_error path) ;;
  throw_if (not_string_in validComparisonOperator (Condition.comparison_operator condition))
           (comparison_operator_error path) ;;
  throw_if (not_number_or_negative (Condition.mark condition))
           (mark_error path) ;;
  upper ← call_toUpperCase "condition.criteria_type" (Condition.criteria_type condition) ;
  if String.eqb upper "MARK" then
    match Condition.notation_text condition with
    | VString text =>
        (* a string: it must not be blank, and it must be in the set *)
        throw_if (String.eqb (trim text) "") (notation_text_missing_error path) ;;
        throw_if (negb (Set_has_string availableNotationTexts text))
                 (notation_text_unknown_error path text)
    | _ => Throw (notation_text_missing_error path)
    end
  else Ok tt.

(** [validateTestCriteriaGroups]: a non-empty array of groups, each with a
    non-empty array of conditions; every condition is validated under its
    own path. *)
Definition validateTestCriteriaGroups
    (criteriaGroups : maybe_array (nullable Group.t)) (availableNotationTexts : list value)
    (path : string) : result unit :=
  match criteriaGroups with
  | IsArray ((_ :: _) as groups) =>
      forEach groups (fun group groupIndex =>
        let groupPath := path ++ "[" ++ index_to_string groupIndex ++ "]" in
        group ← reading group "conditions" ;
        match Group.conditions group with
        | IsArray ((_ :: _) as conditions) =>
            forEach conditions (fun condition condIndex =>
              let conditionPath :=
                groupPath ++ ".conditions[" ++ index_to_string condIndex ++ "]" in
              validateSingleNotationCondition condition availableNotationTexts conditionPath)
        | _ =>
            Throw (BAD_USER_INPUT
                     ("Field '" ++ groupPath ++ ".conditions' must be a non-empty array."))
        end)
  | _ =>
      Throw (BAD_USER_INPUT
               ("Field '" ++ path ++ "' must be a non-empty array of criteria groups."))
  end.

(** [if (branch) validateTestCriteriaGroups(...)] *)
Definition validate_branch_if_present
    (branch : option Branch.t) (availableNotationTexts : list value) (path : string)
  : result unit :=
  match branch with
  | Some b =>
      validateTestCriteriaGroups (Branch.test_criteria_groups b) availableNotationTexts path
  | None => Ok tt
  end.

Definition validateTestPassingCriteriaInput
    (testPassingCriteria : TestPassingCriteria.t) (notations : list (nullable Notation.t))
  : result unit :=
  let pass_criteria := TestPassingCriteria.pass_criteria testPassingCriteria in
  let fail_criteria := TestPassingCriteria.fail_criteria testPassingCriteria in
  throw_if (negb (bool_decide (is_Some pass_criteria)) && negb (bool_decide (is_Some fail_criteria)))
           no_branch_error ;;
  availableNotationTexts ← notation_texts_of notations ;
  validate_branch_if_present pass_criteria availableNotationTexts pass_path ;;
  validate_branch_if_present fail_criteria availableNotationTexts fail_path.

(** *** ValidateTestInput *)

(** [typeof val === 'string' && valid.includes(val.toUpperCase())] *)
Definition is_string_in (valid : list string) (val : value) : bool :=
  match val with
  | VString s => includes valid (toUpperCase s)
  | _ => false
  end.

Definition validationRules : list rule :=
  [ {| rule_field := "name"; rule_required := true;
       rule_validate := is_nonblank_string;
       rule_message := "Name is required." |};
    {| rule_field := "description"; rule_required := true;
       rule_validate := is_nonblank_string;
       rule_message := "Description is required." |};
    {| rule_field := "test_type"; rule_required := true;
       rule_validate := is_string_in validTestType;
       rule_message := "Test type must be one of: " ++ join ", " validTestType ++ "." |};
    {| rule_field := "result_visibility"; rule_required := true;
       rule_validate := is_string_in validResultVisibility;
       rule_message :=
         "Result visibility must be one of: " ++ join ", " validResultVisibility ++ "." |};
    {| rule_field := "weight"; rule_required := true;
       rule_validate := is_weight;
       rule_message := "Weight is required and must be a number between 0 and 1." |};
    {| rule_field := "correction_type"; rule_required := true;
       rule_validate := is_string_in validCorrectionType;
       rule_message :=
         "Correction type must be one of: " ++ join ", " validCorrectionType ++ "." |};
    {| rule_field := "is_retake"; rule_required := true;
       rule_validate := is_boolean;
       rule_message := "is_retake must be a boolean." |};
    {| rule_field := "test_status"; rule_required := false;
       rule_validate := is_string_in validStatus;
       rule_message := "Test status must be one of: " ++ join ", " validStatus ++ "." |} ].

(** One turn of the loop over the rules. *)
Definition check_rule (testInput : TestInput.t) (isUpdate : bool) (r : rule) : result unit :=
  let value := TestInput.get testInput (rule_field r) in
  if (negb isUpdate && rule_required r) || is_defined value then
    throw_if (negb (rule_validate r value)) (field_error (rule_message r) (rule_field r))
  else Ok tt.

Section ValidateTestInput.

(** [mongoose.Types.ObjectId.isValid], a function of the database driver. *)
Variable ObjectId_isValid : string -> bool.

Definition check_notations (testInput : TestInput.t) (isUpdate : bool) : result unit :=
  let notations := TestInput.notations testInput in
  if negb isUpdate || array_is_defined notations then
    match notations with
    | IsArray ((_ :: _) as l) => forEach l check_notation
    | _ => Throw (field_error "Notations must be a non-empty array." "notations")
    end
  else Ok tt.

Definition check_retake (testInput : TestInput.t) : result unit :=
  if truthy (TestInput.is_retake testInput) then
    match TestInput.connected_test testInput with
    | None | Some "" =>
        Throw (field_error "connected_test is required when is_retake is true." "connected_test")
    | Some connected_test =>
        throw_if (negb (ObjectId_isValid connected_test))
          (field_error ("Invalid connected test ID: " ++ connected_test) "connected_test")
    end
  else Ok tt.

Definition check_test_type (testInput : TestInput.t) (evaluationType : string) : result unit :=
  let test_type := TestInput.test_type testInput in
  if truthy test_type then
    upperTestType ← call_toUpperCase "test_type" test_type ;
    let isCompetencyMismatch :=
      String.eqb evaluationType "COMPETENCY" && negb (includes competencyTestTypes upperTestType) in
    let isScoreMismatch :=
      String.eqb evaluationType "SCORE" && negb (includes scoreTestTypes upperTestType) in
    throw_if (isCompetencyMismatch || isScoreMismatch)
      (field_error ("Test type '" ++ upperTestType
                    ++ "' is not allowed for block with evaluation_type '"
                    ++ evaluationType ++ "'.") "test_type")
  else Ok tt.

(** [testInput.notations || existingNotations] *)
Definition notationsSource (testInput : TestInput.t)
    (existingNotations : maybe_array (nullable Notation.t))
  : maybe_array (nullable Notation.t) :=
  if array_truthy (TestInput.notations testInput) then TestInput.notations testInput
  else existingNotations.

Definition check_passing_criteria
    (testInput : TestInput.t) (existingNotations : maybe_array (nullable Notation.t))
  : result unit :=
  match TestInput.test_passing_criteria testInput with
  | Some test_passing_criteria =>
      match notationsSource testInput existingNotations with
      | IsArray ((_ :: _) as source) =>
          validateTestPassingCriteriaInput test_passing_criteria source
      | _ => Throw no_notations_error
      end
  | None => Ok tt
  end.

Definition ValidateTestInput
    (testInput : TestInput.t) (evaluationType : string)
    (existingNotations : maybe_array (nullable Notation.t)) (isUpdate : bool) : result unit :=
  forEach validationRules (fun r _ => check_rule testInput isUpdate r) ;;
  check_notations testInput isUpdate ;;
  check_retake testInput ;;
  check_test_type testInput evaluationType ;;
  check_passing_criteria testInput existingNotations.

End ValidateTestInput.

(** *** ValidateTestStatusFilter *)

Definition test_status_filter_error : exn :=
  field_error ("Test status must be one of: " ++ join ", " validStatus ++ ".") "test_status".

Definition ValidateTestStatusFilter (test_status : value) : result unit :=
  if negb (truthy test_status) then Ok tt
  else throw_if (not_string_in validStatus test_status) test_status_filter_error.

End TestValidator.

(** *** The validators of the loader inputs *)

(** [v[name]] for a value that is neither undefined nor null: the property
    of an object, undefined for anything else (an array or a string is asked
    for no index and for none of its built-in properties). *)
Fixpoint lookup_field (fields : list (string * value)) (name : string) : value :=
  match fields with
  | [] => VUndefined
  | (k, v) :: r => if String.eqb k name then v else lookup_field r name
  end.

Definition property (v : value) (name : string) : value :=
  match v with
  | VObject fields => lookup_field fields name
  | _ => VUndefined
  end.

(** [!v || typeof v !== 'object' || v === null] *)
Definition not_an_object (v : value) : bool :=
  negb (truthy v) || negb (String.eqb (typeof v) "object")
  || match v with VNull => true | _ => false end.

(** A data loader of the request context: whether its [load] and [loadMany]
    properties are functions. *)
Record Loader := { load_is_function : bool; loadMany_is_function : bool }.

Record DataLoaders := {
  SubjectLoader : option Loader;
  StudentTestResultLoader : option Loader;
  TaskLoader : option Loader;
  UserLoader : option Loader
}.

(** The request context; a property that is falsy is [None]. *)
Record Context := { dataLoaders : option DataLoaders }.

(** [!context || !context.dataLoaders || !context.dataLoaders.L
     || typeof context.dataLoaders.L.method !== 'function'] *)
Definition loader_missing (context : option Context)
    (loader : DataLoaders -> option Loader) (method : Loader -> bool) : bool :=
  match context with
  | None => true
  | Some c =>
      match dataLoaders c with
      | None => true
      | Some d =>
          match loader d with
          | None => true
          | Some l => negb (method l)
          end
      end
  end.

Definition INTERNAL_SERVER_ERROR (message : string) : exn :=
  ApolloError message "INTERNAL_SERVER_ERROR" [].

Definition test_object_error : exn :=
  field_error "Input error: test must be a valid object." "test".

Section LoaderInputs.

(** [mongoose.Types.ObjectId.isValid] on an arbitrary value, and the string
    that a template literal prints for a value. *)
Variable isValid : value -> bool.
Variable ToString : value -> string.

Definition ValidateSubjectLoaderInput (test : value) (context : option Context)
  : result unit :=
  throw_if (not_an_object test) test_object_error ;;
  throw_if (negb (isValid (property test "subject")))
    (field_error "Input error: test.subject must be a valid ID." "test.subject") ;;
  throw_if (loader_missing context SubjectLoader load_is_function)
    (INTERNAL_SERVER_ERROR
       "Server configuration error: SubjectLoader with load function not found on context.").

(** The loop [for (const id of ids) if (!isValid(id)) throw ...]. *)
Definition check_ids (ids : list value) (error : value -> exn) : result unit :=
  forEach ids (fun id _ => throw_if (negb (isValid id)) (error id)).

Definition ValidateStudentTestResultLoaderInput (test : value) (context : option Context)
  : result unit :=
  throw_if (not_an_object test) test_object_error ;;
  match property test "student_test_results" with
  | VArray ids =>
      check_ids ids (fun resultId =>
        field_error ("Invalid ID found in student_test_results array: " ++ ToString resultId)
                    "test.student_test_results")
  | _ =>
      Throw (field_error "Input error: test.student_test_results must be an array."
                         "test.student_test_results")
  end ;;
  throw_if (loader_missing context StudentTestResultLoader loadMany_is_function)
    (INTERNAL_SERVER_ERROR
       "Server configuration error: StudentTestResultLoader with loadMany function not found on context.").

Definition ValidateTaskLoaderInput (test : value) (context : option Context)
  : result unit :=
  throw_if (not_an_object test) test_object_error ;;
  match property test "tasks" with
  | VArray ids =>
      check_ids ids (fun taskId =>
        field_error ("Invalid ID found in tasks array: " ++ ToString taskId) "test.tasks")
  | _ => Throw (field_error "Input error: test.tasks must be an array." "test.tasks")
  end ;;
  throw_if (loader_missing context TaskLoader loadMany_is_function)
    (INTERNAL_SERVER_ERROR
       "Server configuration error: TaskLoader with loadMany function not found on context.").

Definition ValidateUserLoaderInput (parent : value) (context : option Context)
    (fieldName : string) : result unit :=
  throw_if (not_an_object parent)
    (BAD_USER_INPUT "Input error: parent must be a valid object.") ;;
  throw_if (loader_missing context UserLoader load_is_function)
    (INTERNAL_SERVER_ERROR "Server configuration error: UserLoader not found on context.") ;;
  let userId := property parent fieldName in
  throw_if (truthy userId && negb (isValid userId))
    (BAD_USER_INPUT ("Input error: If provided, parent." ++ fieldName
                     ++ " must be a valid ID.")).

End LoaderInputs.

(** ** Number.prototype.toFixed(2) and Number(string) *)

(** The numeral that [x.toFixed(2)] prints.  A finite [x] below 10^21 in
    magnitude prints as the sign of [x] followed by the digits of the
    integer [n] for which [n / 100 - |x|] is as close to zero as possible,
    the larger [n] when two are as close, with a point before the last two
    digits; a larger [x] prints as [String(x)]. *)
Inductive numeral :=
| NumNaN
| NumInfinity (negative : bool)
| NumFixed (negative : bool) (hundredths : Z)
| NumShortest (x : number).

(** [|m * 2^e| >= 10^21] *)
Definition at_least_1e21 (m : positive) (e : Z) : bool :=
  match e with
  | Zneg p => (10 ^ 21 * 2 ^ Zpos p <=? Zpos m)%Z
  | _ => (10 ^ 21 <=? Zpos m * 2 ^ e)%Z
  end.

(** [floor (100 * m * 2^e + 1/2)] *)
Definition nearest_hundredths (m : positive) (e : Z) : Z :=
  match e with
  | Zneg p => ((200 * Zpos m + 2 ^ Zpos p) / (2 * 2 ^ Zpos p))%Z
  | _ => (100 * Zpos m * 2 ^ e)%Z
  end.

Definition toFixed2 (x : number) : numeral :=
  match x with
  | S754_nan => NumNaN
  | S754_infinity s => NumInfinity s
  | S754_zero _ => NumFixed false 0
  | S754_finite s m e =>
      if at_least_1e21 m e then NumShortest x
      else NumFixed s (nearest_hundredths m e)
  end.

(** [Number(s)] for a numeral printed by [toFixed]: the binary64 value
    nearest to it, ties to even. *)
Definition Number_of_numeral (s : numeral) : number :=
  match s with
  | NumNaN => S754_nan
  | NumInfinity neg => S754_infinity neg
  | NumFixed neg (Zpos n) => SFdiv prec emax (S754_finite neg n 0) (S754_finite false 100 0)
  | NumFixed neg _ => S754_zero neg
  | NumShortest x => x
  end.

(** ** The task helper *)

Module TaskInput.
Record t := {
  test : value;
  user : value;
  title : value;
  description : value;
  task_type : value;
  task_status : value;
  due_date : value
}.
End TaskInput.

Module Mark.
Record t := { notation_text : string; mark : number }.

Definition to_value (m : t) : value :=
  VObject [("notation_text", VString (notation_text m)); ("mark", VNumber (mark m))].
End Mark.

Module EnterMarksInput.
Record t := { test : value; student : value; marks : list Mark.t }.
End EnterMarksInput.

(** The payload that removes a task from the task list of its test:
    [{ filter: { _id }, update: { $pull: { tasks } } }]. *)
Record pull_payload := {
  pull_filter_id : value;
  pull_tasks : string
}.

(** A payload of [CommonHelper.BuildDeletePayload]:
    [{ filter: { _id: { $in: ids } }, update: { $set: fields } }]. *)
Record delete_payload := {
  delete_filter_ids : list string;
  delete_set : gmap string value
}.

Record delete_task_payload := {
  dtp_task : delete_payload;
  dtp_test : pull_payload
}.

(** Modelled from the spec: CommonHelper.BuildDeletePayload (shared/helper) is
    not among the sources.  A soft delete sets the status field named by
    [statusKey] to DELETED and records who deleted the documents and when. *)
Definition BuildDeletePayload
    (ids : list string) (statusKey : string) (timestamp : number) (userId : string)
  : delete_payload :=
  {| delete_filter_ids := ids;
     delete_set := <[statusKey := VString "DELETED"]>
                   (<["deleted_by" := VString userId]>
                    (<["deleted_at" := VNumber timestamp]> ∅)) |}.

Definition BuildPullTaskFromTestPayload (testId : value) (taskId : string) : pull_payload :=
  {| pull_filter_id := testId; pull_tasks := taskId |}.

(** A document of a collection, and a property of it ([VUndefined] when the
    document has no such property). *)
Definition get_field (doc : gmap string value) (field : string) : value :=
  default VUndefined (doc !! field).

Definition is_the_string (v : value) (s : string) : bool :=
  match v with VString t => String.eqb t s | _ => false end.

(** [TaskModel.findOne({ _id: taskId, task_status: { $ne: 'DELETED' } })] *)
Definition findOne_not_deleted (TaskModel : list (gmap string value)) (taskId : string)
  : option (gmap string value) :=
  List.find (fun doc => is_the_string (get_field doc "_id") taskId
                        && negb (is_the_string (get_field doc "task_status") "DELETED"))
            TaskModel.

(** [try { ... } catch (error) { throw new ApolloError(...) }] of
    GetDeleteTaskPayload. *)
Definition rethrow_delete_failure {A} (m : result A) : result A :=
  match m with
  | Ok a => Ok a
  | Throw error =>
      Throw (ApolloError ("Failed to build delete task payload: " ++ exn_message error)
                         "GET_DELETE_TASK_PAYLOAD_FAILED"
                         [("error", exn_message error)])
  end.

Section TaskHelper.

Context {SC : StringCase}.

(** The validators of shared/validator and task.validator are not among the
    sources: each one returns normally or throws. *)
Variable ValidateInputTypeObject : forall A : Type, A -> result unit.
Variable ValidateObjectId : string -> result unit.
Variable ValidateTaskInput : TaskInput.t -> result unit.
Variable ValidateEnterMarksInput : EnterMarksInput.t -> list Notation.t -> result unit.

Definition GetCreateTaskPayload (taskInput : TaskInput.t) (userId : string)
  : result (gmap string value) :=
  ValidateInputTypeObject _ taskInput ;;
  ValidateObjectId userId ;;
  ValidateTaskInput taskInput ;;
  task_type ← call_toUpperCase "task_type" (TaskInput.task_type taskInput) ;
  Ok (<["test" := TaskInput.test taskInput]>
      (<["user" := TaskInput.user taskInput]>
       (<["title" := TaskInput.title taskInput]>
        (<["description" := TaskInput.description taskInput]>
         (<["task_type" := VString task_type]>
          (<["task_status" := VString "PENDING"]>
           (<["due_date" := TaskInput.due_date taskInput]>
            (<["created_by" := VString userId]>
             (<["updated_by" := VString userId]> ∅))))))))).

(** [if (v !== undefined && v !== null) payload[key] = v] *)
Definition set_if_supplied (key : string) (v : value) (payload : gmap string value)
  : gmap string value :=
  if not_nullish v then <[key := v]> payload else payload.

(** [if (v !== undefined && v !== null) payload[key] = v.toUpperCase()],
    [key] being the name of the variable that holds [v]. *)
Definition set_upper_if_supplied (key : string) (v : value) (payload : gmap string value)
  : result (gmap string value) :=
  if not_nullish v then
    upper ← call_toUpperCase key v ;
    Ok (<[key := VString upper]> payload)
  else Ok payload.

Definition GetUpdateTaskPayload (taskInput : TaskInput.t) (userId : string)
  : result (gmap string value) :=
  ValidateInputTypeObject _ taskInput ;;
  ValidateObjectId userId ;;
  ValidateTaskInput taskInput ;;
  let payload : gmap string value := ∅ in
  let payload := set_if_supplied "user" (TaskInput.user taskInput) payload in
  let payload := set_if_supplied "title" (TaskInput.title taskInput) payload in
  let payload := set_if_supplied "description" (TaskInput.description taskInput) payload in
  payload ← set_upper_if_supplied "task_type" (TaskInput.task_type taskInput) payload ;
  payload ← set_upper_if_supplied "task_status" (TaskInput.task_status taskInput) payload ;
  let payload := set_if_supplied "due_date" (TaskInput.due_date taskInput) payload in
  let payload := <["updated_by" := VString userId]> payload in
  Ok payload.

(** [now] is the value that [Date.now()] returns during the call. *)
Definition GetDeleteTaskPayload
    (TaskModel : list (gmap string value)) (now : number) (taskId userId : string)
  : result delete_task_payload :=
  rethrow_delete_failure (
    ValidateObjectId taskId ;;
    ValidateObjectId userId ;;
    let deletionTimestamp := now in
    match findOne_not_deleted TaskModel taskId with
    | None => Throw (ApolloError "Task not found" "TASK_NOT_FOUND" [])
    | Some task =>
        let testId := get_field task "test" in
        Ok {| dtp_task := BuildDeletePayload [taskId] "task_status" deletionTimestamp userId;
              dtp_test := BuildPullTaskFromTestPayload testId taskId |}
    end).

Definition GetTaskCompletionPayload (now : number) (userId : string)
  : result (gmap string value) :=
  ValidateObjectId userId ;;
  Ok (<["task_status" := VString "COMPLETED"]>
      (<["completed_by" := VString userId]>
       (<["completed_at" := VNumber now]>
        (<["updated_by" := VString userId]> ∅)))).

(** The loop [for (const item of marks) totalMarks += item.mark]. *)
Definition totalMarks (marks : list Mark.t) : number :=
  fold_left (fun total item => add total (Mark.mark item)) marks zero.

Definition averageMark (marks : list Mark.t) : number :=
  if (length marks =? 0)%nat then zero
  else div (totalMarks marks) (of_nat (length marks)).

Definition GetStudentTestResultPayload
    (now : number) (enterMarksInput : EnterMarksInput.t) (userId : string)
    (notations : list Notation.t) : result (gmap string value) :=
  ValidateInputTypeObject _ enterMarksInput ;;
  ValidateObjectId userId ;;
  ValidateEnterMarksInput enterMarksInput notations ;;
  let marks := EnterMarksInput.marks enterMarksInput in
  Ok (<["student" := EnterMarksInput.student enterMarksInput]>
      (<["test" := EnterMarksInput.test enterMarksInput]>
       (<["marks" := VArray (map Mark.to_value marks)]>
        (<["average_mark" := VNumber (Number_of_numeral (toFixed2 (averageMark marks)))]>
         (<["mark_entry_date" := VNumber now]>
          (<["student_test_result_status" := VString "PENDING"]>
           (<["created_by" := VString userId]>
            (<["updated_by" := VString userId]> ∅)))))))).

Definition GetStudentTestResultValidationPayload (now : number) (userId : string)
  : result (gmap string value) :=
  ValidateObjectId userId ;;
  Ok (<["student_test_result_status" := VString "VALIDATED"]>
      (<["marks_validated_date" := VNumber now]>
       (<["updated_by" := VString userId]> ∅))).

End TaskHelper.

(** ** The parts of the engine that are specified but not among the sources *)

Module Engine.

Inductive criteria_type := MARK | AVERAGE.
Inductive comparison_operator := GTE | LTE | GT | LT | E.

Record condition := {
  c_type : criteria_type;
  c_operator : comparison_operator;
  c_mark : number;
  c_notation_text : string
}.

Record group := { g_conditions : list condition }.
Record branch := { b_groups : list group }.
Record criteria := { pass_criteria : option branch; fail_criteria : option branch }.

Inductive outcome := PASS | FAIL | INDETERMINATE.

(** Modelled from the spec: the comparison semantics of the criteria
    evaluator, which is not among the sources: GTE is >=, LTE is <=, GT is
    >, LT is <, E is exact numeric equality. *)
Definition compare_with (op : comparison_operator) (observed bound : number) : bool :=
  match op with
  | GTE => ge observed bound
  | LTE => le observed bound
  | GT => gt observed bound
  | LT => lt observed bound
  | E => eq observed bound
  end.

(** Modelled from the spec: the entered mark for a notation, absent when no
    mark was entered for it. *)
Definition entered_mark (marks : list Mark.t) (text : string) : option number :=
  Mark.mark <$> List.find (fun m => String.eqb (Mark.notation_text m) text) marks.

(** Modelled from the spec: the criteria evaluator is not among the sources.
    A condition holds when the comparison holds of the observed value, the
    entered mark of its notation for MARK and the average for AVERAGE; a MARK
    condition on a notation without an entered mark does not hold. *)
Definition condition_satisfied (marks : list Mark.t) (average : number) (c : condition)
  : bool :=
  match c_type c with
  | MARK =>
      match entered_mark marks (c_notation_text c) with
      | Some observed => compare_with (c_operator c) observed (c_mark c)
      | None => false
      end
  | AVERAGE => compare_with (c_operator c) average (c_mark c)
  end.

(** Modelled from the spec: a group holds when all of its conditions hold. *)
Definition group_satisfied (marks : list Mark.t) (average : number) (g : group) : bool :=
  forallb (condition_satisfied marks average) (g_conditions g).

(** Modelled from the spec: a branch holds when one of its groups holds. *)
Definition EvaluateBranch (b : branch) (marks : list Mark.t) (average : number) : bool :=
  existsb (group_satisfied marks average) (b_groups b).

Definition present_and_satisfied (b : option branch) (marks : list Mark.t) (average : number)
  : bool :=
  match b with
  | Some b => EvaluateBranch b marks average
  | None => false
  end.

(** Modelled from the spec: the classification of the mark aggregator, which
    is not among the sources: FAIL when the fail branch is present and
    satisfied, else PASS when the pass branch is present and satisfied, else
    INDETERMINATE. *)
Definition classify (c : criteria) (marks : list Mark.t) (average : number) : outcome :=
  if present_and_satisfied (fail_criteria c) marks average then FAIL
  else if present_and_satisfied (pass_criteria c) marks average then PASS
  else INDETERMINATE.

(** Modelled from the spec: ComputeAverageAndOutcome pairs the average of the
    task helper, rounded to two decimals, with the classification. *)
Definition ComputeAverageAndOutcome (marks : list Mark.t) (c : criteria) : number * outcome :=
  let average := Number_of_numeral (toFixed2 (averageMark marks)) in
  (average, classify c marks average).

(** Modelled from the spec: the resolvers that apply the payloads of the task
    helper are not among the sources.  An update document is applied as a
    [$set]: the fields of the payload replace those of the document and every
    other field stays as it is. *)
Definition apply_set (payload doc : gmap string value) : gmap string value :=
  payload ∪ doc.

(** Modelled from the spec: a created document holds the fields of the
    create payload. *)
Definition create (payload : gmap string value) : gmap string value := payload.

(** Modelled from the spec: [$pull] removes every occurrence of the task
    identifier from the task list of the test. *)
Definition apply_pull (p : pull_payload) (tasks : list string) : list string :=
  List.filter (fun t => negb (String.eqb t (pull_tasks p))) tasks.

(** Modelled from the spec: a test of the test collection, by its identifier
    and its task list. *)
Record test_document := { test_id : value; test_tasks : list string }.

(** Modelled from the spec: the filter [{ _id }] selects a test by its
    identifier, a string; an identifier that is no string selects none. *)
Definition selects (p : pull_payload) (t : test_document) : bool :=
  match pull_filter_id p with
  | VString id => is_the_string (test_id t) id
  | _ => false
  end.

(** Modelled from the spec: [TestModel.updateOne(filter, update)] with the
    payload applies the [$pull] to the first test that the filter selects
    and leaves every other test as it is. *)
Fixpoint updateOne (p : pull_payload) (tests : list test_document) : list test_document :=
  match tests with
  | [] => []
  | t :: r =>
      if selects p t
      then {| test_id := test_id t; test_tasks := apply_pull p (test_tasks t) |} :: r
      else t :: updateOne p r
  end.

(** A field of a document is set when it holds a value other than undefined
    and null. *)
Definition is_set (doc : gmap string value) (field : string) : bool :=
  not_nullish (get_field doc field).

Definition has_status (doc : gmap string value) (status : string) : bool :=
  is_the_string (get_field doc "task_status") status.

End Engine.

(** Literals for the examples. *)
Definition num (z : Z) : value := VNumber (of_Z z).
Definition str (s : string) : value := VString s.

(** * The vocabulary of the properties *)

(** The objects of a list, as elements of an array. *)
Definition objects {A} (l : list A) : list (nullable A) := map IsObject l.

(** The element is an object that [P] holds of. *)
Definition object_and {A} (P : A -> bool) (x : nullable A) : bool :=
  match x with
  | IsObject a => P a
  | _ => false
  end.

(** [typeof v === 'number'] and not [v < 0]. *)
Definition mark_accepted (v : value) : bool :=
  match v with
  | VNumber x => negb (lt x zero)
  | _ => false
  end.

(** A string that is not blank and is an element of the set. *)
Definition notation_accepted (set : list value) (v : value) : bool :=
  match v with
  | VString t => negb (String.eqb (trim t) "") && Set_has_string set t
  | _ => false
  end.

(** The notation text is a string and a member of the set. *)
Definition notation_in (set : list value) (c : Condition.t) : Prop :=
  exists t, Condition.notation_text c = VString t /\ In (VString t) set.

Definition notation_not_blank (c : Condition.t) : Prop :=
  exists t, Condition.notation_text c = VString t /\ trim t <> "".

(** A number that is at least zero. *)
Definition mark_nonnegative (c : Condition.t) : Prop :=
  exists x, Condition.mark c = VNumber x /\ ge x zero = true.

Definition mark_is_NaN (c : Condition.t) : Prop :=
  Condition.mark c = VNumber S754_nan.

Definition notation_texts (notations : list Notation.t) : list value :=
  map Notation.notation_text notations.

(** The conditions of a group, the groups of a branch. *)
Definition conditions_of_group (g : nullable Group.t) : list (nullable Condition.t) :=
  match g with
  | IsObject g =>
      match Group.conditions g with
      | IsArray cs => cs
      | NotArray _ => []
      end
  | _ => []
  end.

Definition groups_of_branch (b : option Branch.t) : list (nullable Group.t) :=
  match b with
  | Some b =>
      match Branch.test_criteria_groups b with
      | IsArray gs => gs
      | NotArray _ => []
      end
  | None => []
  end.

(** Every condition of the tree, those of the pass branch first. *)
Definition conditions_of (crit : TestPassingCriteria.t) : list (nullable Condition.t) :=
  flat_map conditions_of_group
    (groups_of_branch (TestPassingCriteria.pass_criteria crit)
     ++ groups_of_branch (TestPassingCriteria.fail_criteria crit)).

(** A group with at least one condition, a branch with at least one group. *)
Definition group_nonempty (g : nullable Group.t) : Prop :=
  exists g0 c cs, g = IsObject g0 /\ Group.conditions g0 = IsArray (c :: cs).

Definition branch_nonempty (b : Branch.t) : Prop :=
  exists g gs, Branch.test_criteria_groups b = IsArray (g :: gs)
               /\ Forall group_nonempty (g :: gs).

(** Each present branch has at least one group and each group at least one
    condition. *)
Definition well_shaped (crit : TestPassingCriteria.t) : Prop :=
  (forall b, TestPassingCriteria.pass_criteria crit = Some b -> branch_nonempty b)
  /\ (forall b, TestPassingCriteria.fail_criteria crit = Some b -> branch_nonempty b).

(** The condition with its two enum fields replaced. *)
Definition with_enums (c : Condition.t) (criteria_type comparison_operator : string)
  : Condition.t :=
  {| Condition.criteria_type := VString criteria_type;
     Condition.comparison_operator := VString comparison_operator;
     Condition.mark := Condition.mark c;
     Condition.notation_text := Condition.notation_text c |}.

(** [s'] is the ASCII text [s] with the case of some of its letters
    changed. *)
Inductive ascii_case_variant : string -> string -> Prop :=
| cv_empty : ascii_case_variant "" ""
| cv_keep c r r' :
    is_ascii_char c = true -> ascii_case_variant r r' ->
    ascii_case_variant (String c r) (String c r')
| cv_upper c r r' :
    is_ascii_char c = true -> ascii_case_variant r r' ->
    ascii_case_variant (String c r) (String (upper_char c) r')
| cv_lower c r r' :
    is_ascii_char c = true -> ascii_case_variant r r' ->
    ascii_case_variant (String c r) (String (lower_char c) r').

Section CriteriaVocabulary.

Context {SC : StringCase}.

(** ** What the criteria validator accepts *)

Definition is_MARK (v : value) : bool :=
  match v with
  | VString s => String.eqb (toUpperCase s) "MARK"
  | _ => false
  end.

Definition condition_accepted (set : list value) (c : Condition.t) : bool :=
  is_string_in validCriteriaType (Condition.criteria_type c)
  && is_string_in validComparisonOperator (Condition.comparison_operator c)
  && mark_accepted (Condition.mark c)
  && (if is_MARK (Condition.criteria_type c)
      then notation_accepted set (Condition.notation_text c) else true).

Definition group_accepted (set : list value) (g : Group.t) : bool :=
  match Group.conditions g with
  | IsArray ((_ :: _) as cs) => forallb (object_and (condition_accepted set)) cs
  | _ => false
  end.

Definition groups_accepted (set : list value) (groups : maybe_array (nullable Group.t)) : bool :=
  match groups with
  | IsArray ((_ :: _) as gs) => forallb (object_and (group_accepted set)) gs
  | _ => false
  end.

Definition branch_accepted (set : list value) (b : option Branch.t) : bool :=
  match b with
  | Some b => groups_accepted set (Branch.test_criteria_groups b)
  | None => true
  end.

(** ** The criteria tree in the words of the specification *)

(** A string whose upper case is a member of the enum. *)
Definition in_enum (valid : list string) (v : value) : Prop :=
  exists s, v = VString s /\ In (toUpperCase s) valid.

Definition is_MARK_condition (c : Condition.t) : Prop :=
  exists s, Condition.criteria_type c = VString s /\ toUpperCase s = "MARK".

(** The condition is acceptable in the words of the specification. *)
Definition condition_well_formed (set : list value) (c : Condition.t) : Prop :=
  in_enum validCriteriaType (Condition.criteria_type c)
  /\ in_enum validComparisonOperator (Condition.comparison_operator c)
  /\ mark_nonnegative c
  /\ (is_MARK_condition c -> notation_not_blank c /\ notation_in set c).

(** The property as the specification words it: on a well shaped tree,
    validation succeeds exactly when the enum fields are valid and the
    notation of every MARK condition is in the set. *)
Definition validation_iff_as_stated
    (crit : TestPassingCriteria.t) (notations : list Notation.t) : Prop :=
  well_shaped crit ->
  (validateTestPassingCriteriaInput crit (objects notations) = Ok tt <->
   forall x, In x (conditions_of crit) ->
     exists c, x = IsObject c
       /\ in_enum validCriteriaType (Condition.criteria_type c)
       /\ in_enum validComparisonOperator (Condition.comparison_operator c)
       /\ (is_MARK_condition c -> notation_in (notation_texts notations) c)).

(** ** Letter case *)

(** The upper-case and the lower-case form of a string: two of its variants
    in another letter case, whatever else counts as one. *)
Definition case_variant (s s' : string) : Prop :=
  s' = toUpperCase s \/ s' = toLowerCase s.

(** The property as the specification words it: replacing the two enum
    strings of a condition by variants in another letter case leaves the
    outcome of its validation unchanged. *)
Definition case_insensitive_as_stated : Prop :=
  forall c ct ct' op op' set path,
    case_variant ct ct' -> case_variant op op' ->
    succeeds (validateSingleNotationCondition (IsObject (with_enums c ct' op')) set path)
    = succeeds (validateSingleNotationCondition (IsObject (with_enums c ct op)) set path).

End CriteriaVocabulary.

(** ** The average mark *)

(** The sum of the marks, in the order of entry. *)
Inductive sum_is : list Mark.t -> number -> Prop :=
| sum_none : sum_is [] zero
| sum_more marks m total :
    sum_is marks total -> sum_is (marks ++ [m]) (add total (Mark.mark m)).

(** The magnitude [m * 2^e] of a finite number, a rational. *)
Definition magnitude (m : positive) (e : Z) : Q :=
  match e with
  | Zneg p => Qmake (Zpos m) (2 ^ p)
  | _ => inject_Z (Zpos m * 2 ^ e)
  end.

(** The magnitude is below 10^21, the bound up to which [toFixed] prints
    digits. *)
Definition below_1e21 (m : positive) (e : Z) : Prop :=
  (magnitude m e < inject_Z (10 ^ 21))%Q.

(** The exact value of a number that is finite. *)
Definition exact_value (x : number) : option Q :=
  match x with
  | S754_zero _ => Some 0%Q
  | S754_finite s m e => Some (if s then Qopp (magnitude m e) else magnitude m e)
  | _ => None
  end.

(** In the words of the specification: the sum of the marks and their
    arithmetic mean, sum(mark)/count, as the rationals they are. *)
Fixpoint exact_sum (marks : list Mark.t) : option Q :=
  match marks with
  | [] => Some 0%Q
  | m :: r =>
      match exact_value (Mark.mark m), exact_sum r with
      | Some v, Some s => Some (v + s)%Q
      | _, _ => None
      end
  end.

Definition exact_mean (marks : list Mark.t) : option Q :=
  match marks with
  | [] => None
  | _ => (fun s => (s / inject_Z (Z.of_nat (length marks)))%Q) <$> exact_sum marks
  end.

(** [n] hundredths are [q] rounded to two decimals: they differ from [q] by
    half a hundredth at most.  Of a [q] halfway between two numbers of
    hundredths, both are. *)
Definition rounds_to_hundredths (q : Q) (n : Z) : Prop :=
  (inject_Z n - (1 # 2) <= 100 * q)%Q /\ (100 * q <= inject_Z n + (1 # 2))%Q.

(** [n] hundredths are what [toFixed(2)] prints for the magnitude [q]: the
    nearest number of hundredths, the larger of two that are as near. *)
Definition prints_hundredths (q : Q) (n : Z) : Prop :=
  (inject_Z n - (1 # 2) <= 100 * q)%Q /\ (100 * q < inject_Z n + (1 # 2))%Q.

(** The number that the numeral of [n] hundredths denotes: the binary64
    value nearest to n / 100, which is the quotient of the integer [n] by
    100 in the arithmetic of IEEE 754. *)
Definition two_decimals (negative : bool) (n : Z) : number :=
  match n with
  | Zpos p => SFdiv 53 1024 (S754_finite negative p 0) (S754_finite false 100 0)
  | _ => S754_zero negative
  end.

(** The property as the specification words it: the stored average is the
    arithmetic mean of the marks rounded to two decimals. *)
Definition average_as_stated (marks : list Mark.t) (average : number) : Prop :=
  exists q n, exact_mean marks = Some q /\ (0 <= n)%Z /\ rounds_to_hundredths q n
              /\ average = two_decimals false n.

(** The numerals of 0.01 to [limit] hundredths are read and printed back
    unchanged. *)
Fixpoint prints_back (limit : nat) : bool :=
  match limit with
  | O => true
  | S k =>
      match toFixed2 (two_decimals false (Z.of_nat limit)) with
      | NumFixed false n => (n =? Z.of_nat limit)%Z && prints_back k
      | _ => false
      end
  end.

Section TaskVocabulary.

Context {SC : StringCase}.

(** ** The payload of UpdateTask *)

(** The value that the payload holds for a supplied value. *)
Definition supplied (v : value) : option value :=
  if not_nullish v then Some v else None.

Definition supplied_upper (v : value) : option value :=
  match v with
  | VString s => Some (VString (toUpperCase s))
  | _ => None
  end.

(** The fields of the payload, one by one. *)
Definition update_payload_field (input : TaskInput.t) (userId : string) (k : string)
  : option value :=
  if String.eqb k "updated_by" then Some (VString userId)
  else if String.eqb k "due_date" then supplied (TaskInput.due_date input)
  else if String.eqb k "task_status" then supplied_upper (TaskInput.task_status input)
  else if String.eqb k "task_type" then supplied_upper (TaskInput.task_type input)
  else if String.eqb k "description" then supplied (TaskInput.description input)
  else if String.eqb k "title" then supplied (TaskInput.title input)
  else if String.eqb k "user" then supplied (TaskInput.user input)
  else None.

(** The fields that UpdateTask may carry, with the values of the input. *)
Definition update_fields (input : TaskInput.t) : list (string * value) :=
  [ ("user", TaskInput.user input);
    ("title", TaskInput.title input);
    ("description", TaskInput.description input);
    ("task_type", TaskInput.task_type input);
    ("task_status", TaskInput.task_status input);
    ("due_date", TaskInput.due_date input) ].

(** The value stored for a supplied field: as supplied, in upper case for the
    two enum fields. *)
Definition payload_value (k : string) (v : value) : value :=
  if String.eqb k "task_type" || String.eqb k "task_status"
  then match v with VString s => VString (toUpperCase s) | _ => v end
  else v.

(** ** The states of a task *)

(** The update does not change whether the task is COMPLETED: it supplies no
    task_status, or one that is COMPLETED exactly when the status of the
    task is. *)
Definition keeps_completion (input : TaskInput.t) (task : gmap string value) : Prop :=
  not_nullish (TaskInput.task_status input) = false
  \/ exists s, TaskInput.task_status input = VString s
               /\ String.eqb (toUpperCase s) "COMPLETED" = Engine.has_status task "COMPLETED".

Section TaskStates.

Variable ValidateInputTypeObject : forall A : Type, A -> result unit.
Variable ValidateObjectId : string -> result unit.
Variable ValidateTaskInput : TaskInput.t -> result unit.

(** The task documents that the payloads of CreateTask, UpdateTask and task
    completion produce, one applied after the other. *)
Inductive reachable : gmap string value -> Prop :=
| reach_create input userId payload :
    GetCreateTaskPayload ValidateInputTypeObject ValidateObjectId ValidateTaskInput
      input userId = Ok payload ->
    reachable (Engine.create payload)
| reach_update task input userId payload :
    reachable task ->
    GetUpdateTaskPayload ValidateInputTypeObject ValidateObjectId ValidateTaskInput
      input userId = Ok payload ->
    reachable (Engine.apply_set payload task)
| reach_complete task now userId payload :
    reachable task ->
    GetTaskCompletionPayload ValidateObjectId now userId = Ok payload ->
    reachable (Engine.apply_set payload task).

(** The same documents, when no update changes whether the task is
    COMPLETED. *)
Inductive reachable_keeping_completion : gmap string value -> Prop :=
| keep_create input userId payload :
    GetCreateTaskPayload ValidateInputTypeObject ValidateObjectId ValidateTaskInput
      input userId = Ok payload ->
    reachable_keeping_completion (Engine.create payload)
| keep_update task input userId payload :
    reachable_keeping_completion task ->
    keeps_completion input task ->
    GetUpdateTaskPayload ValidateInputTypeObject ValidateObjectId ValidateTaskInput
      input userId = Ok payload ->
    reachable_keeping_completion (Engine.apply_set payload task)
| keep_complete task now userId payload :
    reachable_keeping_completion task ->
    GetTaskCompletionPayload ValidateObjectId now userId = Ok payload ->
    reachable_keeping_completion (Engine.apply_set payload task).

End TaskStates.

End TaskVocabulary.

(** completed_by and completed_at are set if and only if the status is
    COMPLETED. *)
Definition completion_invariant (task : gmap string value) : Prop :=
  (Engine.is_set task "completed_by" = true /\ Engine.is_set task "completed_at" = true)
  <-> Engine.has_status task "COMPLETED" = true.

(** Each of the two fields is set exactly when the status is COMPLETED. *)
Definition completion_consistent (task : gmap string value) : Prop :=
  Engine.is_set task "completed_by" = Engine.has_status task "COMPLETED"
  /\ Engine.is_set task "completed_at" = Engine.has_status task "COMPLETED".

(** ** DeleteTask *)

(** The task collection holds [task] under the identifier [taskId], and no
    other document under it. *)
Definition is_the_task (TaskModel : list (gmap string value)) (taskId : string)
    (task : gmap string value) : Prop :=
  In task TaskModel
  /\ get_field task "_id" = VString taskId
  /\ forall other, In other TaskModel -> get_field other "_id" = VString taskId ->
                   other = task.

Definition delete_failure (message : string) : exn :=
  ApolloError ("Failed to build delete task payload: " ++ message)
              "GET_DELETE_TASK_PAYLOAD_FAILED" [("error", message)].

(** What has become of a test: it is the same test and, when it is the test
    [testId], the task [taskId] is gone from its task list and every other
    task is still there; when it is another test, nothing of it has
    changed. *)
Definition pulled_from (testId taskId : string) (before after : Engine.test_document)
  : Prop :=
  Engine.test_id after = Engine.test_id before
  /\ (Engine.test_id before = VString testId ->
      ~ In taskId (Engine.test_tasks after)
      /\ forall t, t <> taskId ->
           (In t (Engine.test_tasks after) <-> In t (Engine.test_tasks before)))
  /\ (Engine.test_id before <> VString testId -> after = before).

(** No two tests have the same identifier. *)
Definition distinct_tests (tests : list Engine.test_document) : Prop :=
  List.NoDup (map Engine.test_id tests).

Section ValidatorVocabulary.

Context {SC : StringCase}.

(** ** The checks of ValidateTestInput that come before the criteria *)

Section ChecksBeforeCriteria.

Variable ObjectId_isValid : string -> bool.

(** The checks of ValidateTestInput that come before the passing criteria. *)
Definition checks_before_criteria
    (testInput : TestInput.t) (evaluationType : string) (isUpdate : bool) : result unit :=
  forEach validationRules (fun r _ => check_rule testInput isUpdate r) ;;
  check_notations testInput isUpdate ;;
  check_retake ObjectId_isValid testInput ;;
  check_test_type testInput evaluationType.

End ChecksBeforeCriteria.

(** ** The rules of ValidateTestInput *)

Definition rule_fields : list string := map rule_field validationRules.

End ValidatorVocabulary.

(** The rule is looked at: the field is required of a creation, or it is
    supplied. *)
Definition rule_applies (testInput : TestInput.t) (isUpdate : bool) (r : rule) : bool :=
  (negb isUpdate && rule_required r) || is_defined (TestInput.get testInput (rule_field r)).

(** The rule does not apply, or its field is valid. *)
Definition rule_passes (testInput : TestInput.t) (isUpdate : bool) (r : rule) : bool :=
  implb (rule_applies testInput isUpdate r)
        (rule_validate r (TestInput.get testInput (rule_field r))).

Definition rule_error (r : rule) : exn :=
  field_error (rule_message r) (rule_field r).

(** A string that is not blank. *)
Definition nonblank_string (v : value) : Prop :=
  exists s, v = VString s /\ trim s <> "".

(** A number between 0 and 1. *)
Definition number_in_unit_interval (v : value) : Prop :=
  exists x, v = VNumber x /\ ge x zero = true /\ le x (of_Z 1) = true.

(** A number that is at least zero. *)
Definition nonnegative_number (v : value) : Prop :=
  exists x, v = VNumber x /\ ge x zero = true.

(** A notation with a non-blank text and at least zero points. *)
Definition notation_valid (n : Notation.t) : Prop :=
  nonblank_string (Notation.notation_text n)
  /\ nonnegative_number (Notation.max_points n).

(** An element of the notations that is an object and a valid notation. *)
Definition valid_notation (x : nullable Notation.t) : Prop :=
  exists n, x = IsObject n /\ notation_valid n.

(** ** Elements that are null or undefined *)

(** The name of an element that is no object. *)
Definition nullish_name {A} (x : nullable A) : option string :=
  match x with
  | IsNull => Some "null"
  | IsUndefined => Some "undefined"
  | IsObject _ => None
  end.

(** The TypeError of reading a property of null or of undefined; it names no
    field and no path. *)
Definition reading_error (what property : string) : exn :=
  TypeError ("Cannot read properties of " ++ what ++ " (reading '" ++ property ++ "')").

(** The TypeError of taking null or undefined apart. *)
Definition destructuring_error (what property name : string) : exn :=
  TypeError ("Cannot destructure property '" ++ property ++ "' of '" ++ name
             ++ "' as it is " ++ what ++ ".").

(** ** The errors of the notations *)

Definition notation_text_field (index : nat) : string :=
  "notations[" ++ index_to_string index ++ "].notation_text".

Definition max_points_field (index : nat) : string :=
  "notations[" ++ index_to_string index ++ "].max_points".

Definition notation_text_error (index : nat) : exn :=
  field_error ("Notation at index " ++ index_to_string index ++ " must have non-empty text.")
              (notation_text_field index).

Definition max_points_error (index : nat) : exn :=
  field_error ("Notation at index " ++ index_to_string index
               ++ " must have a valid max_points (number ≥ 0).")
              (max_points_field index).

(** ** Letter case of the enum fields of a test *)

(** The input with its four enum fields replaced. *)
Definition with_test_enums (testInput : TestInput.t)
    (test_type result_visibility correction_type test_status : string) : TestInput.t :=
  {| TestInput.name := TestInput.name testInput;
     TestInput.description := TestInput.description testInput;
     TestInput.test_type := VString test_type;
     TestInput.result_visibility := VString result_visibility;
     TestInput.weight := TestInput.weight testInput;
     TestInput.correction_type := VString correction_type;
     TestInput.is_retake := TestInput.is_retake testInput;
     TestInput.test_status := VString test_status;
     TestInput.notations := TestInput.notations testInput;
     TestInput.connected_test := TestInput.connected_test testInput;
     TestInput.test_passing_criteria := TestInput.test_passing_criteria testInput |}.

(** ** The errors of the criteria groups *)

Definition groups_error (path : string) : exn :=
  BAD_USER_INPUT ("Field '" ++ path ++ "' must be a non-empty array of criteria groups.").

Definition conditions_error (groupPath : string) : exn :=
  BAD_USER_INPUT ("Field '" ++ groupPath ++ ".conditions' must be a non-empty array.").

Definition group_path (path : string) (groupIndex : nat) : string :=
  path ++ "[" ++ index_to_string groupIndex ++ "]".

Definition condition_path (path : string) (groupIndex condIndex : nat) : string :=
  group_path path groupIndex ++ ".conditions[" ++ index_to_string condIndex ++ "]".

(** The errors of a condition, each with the path of the field at fault. *)
Definition condition_errors (path : string) (c : Condition.t) : list exn :=
  [ criteria_type_error path; comparison_operator_error path; mark_error path;
    notation_text_missing_error path ]
  ++ match Condition.notation_text c with
     | VString t => [notation_text_unknown_error path t]
     | _ => []
     end.

(** ** The inputs of the loaders *)

(** The test is an object whose property [field] is an array of valid
    identifiers. *)
Definition ids_input_ok (isValid : value -> bool) (test : value) (field : string) : Prop :=
  not_an_object test = false
  /\ exists ids, property test field = VArray ids
                 /\ forall id, In id ids -> isValid id = true.

Definition tasks_id_error (ToString : value -> string) (taskId : value) : exn :=
  field_error ("Invalid ID found in tasks array: " ++ ToString taskId) "test.tasks".

Definition results_id_error (ToString : value -> string) (resultId : value) : exn :=
  field_error ("Invalid ID found in student_test_results array: " ++ ToString resultId)
              "test.student_test_results".

Definition exn_code (e : exn) : string :=
  match e with
  | ApolloError _ code _ => code
  | TypeError _ => "TypeError"
  end.

(** What a validator of a loader input does with a test whose property
    [field] should hold identifiers: it accepts exactly the well-formed
    inputs under a context that has the loader; it reports the test, then the
    property, then the first invalid identifier, and the loader last. *)
Definition ids_loader_checks (isValid : value -> bool) (test : value)
    (context : option Context) (field : string) (array_error : exn)
    (ids_error : value -> exn) (loader : DataLoaders -> option Loader)
    (method : Loader -> bool) (loader_error : exn) (validate : result unit) : Prop :=
  (validate = Ok tt
   <-> ids_input_ok isValid test field /\ loader_missing context loader method = false)
  /\ (not_an_object test = true -> validate = Throw test_object_error)
  /\ (not_an_object test = false -> (forall ids, property test field <> VArray ids) ->
      validate = Throw array_error)
  /\ (forall ids k id,
        not_an_object test = false -> property test field = VArray ids ->
        ids !! k = Some id -> isValid id = false ->
        (forall j id', j < k -> ids !! j = Some id' -> isValid id' = true) ->
        validate = Throw (ids_error id))
  /\ (ids_input_ok isValid test field -> loader_missing context loader method = true ->
      validate = Throw loader_error).

(** ** Variants of a test input *)

(** The input with another connected test. *)
Definition with_connected_test (testInput : TestInput.t) (connected_test : option string)
  : TestInput.t :=
  {| TestInput.name := TestInput.name testInput;
     TestInput.description := TestInput.description testInput;
     TestInput.test_type := TestInput.test_type testInput;
     TestInput.result_visibility := TestInput.result_visibility testInput;
     TestInput.weight := TestInput.weight testInput;
     TestInput.correction_type := TestInput.correction_type testInput;
     TestInput.is_retake := TestInput.is_retake testInput;
     TestInput.test_status := TestInput.test_status testInput;
     TestInput.notations := TestInput.notations testInput;
     TestInput.connected_test := connected_test;
     TestInput.test_passing_criteria := TestInput.test_passing_criteria testInput |}.

(** The input with other notations. *)
Definition with_notations (testInput : TestInput.t) (notations : list (nullable Notation.t))
  : TestInput.t :=
  {| TestInput.name := TestInput.name testInput;
     TestInput.description := TestInput.description testInput;
     TestInput.test_type := TestInput.test_type testInput;
     TestInput.result_visibility := TestInput.result_visibility testInput;
     TestInput.weight := TestInput.weight testInput;
     TestInput.correction_type := TestInput.correction_type testInput;
     TestInput.is_retake := TestInput.is_retake testInput;
     TestInput.test_status := TestInput.test_status testInput;
     TestInput.notations := IsArray notations;
     TestInput.connected_test := TestInput.connected_test testInput;
     TestInput.test_passing_criteria := TestInput.test_passing_criteria testInput |}.

Definition both_branches (pass fail : Branch.t) : TestPassingCriteria.t :=
  {| TestPassingCriteria.pass_criteria := Some pass;
     TestPassingCriteria.fail_criteria := Some fail |}.

Definition pass_only (pass : Branch.t) : TestPassingCriteria.t :=
  {| TestPassingCriteria.pass_criteria := Some pass;
     TestPassingCriteria.fail_criteria := None |}.

Definition fail_only (fail : Branch.t) : TestPassingCriteria.t :=
  {| TestPassingCriteria.pass_criteria := None;
     TestPassingCriteria.fail_criteria := Some fail |}.

Definition exn_field (e : exn) : option string :=
  match e with
  | ApolloError _ _ (("field", f) :: _) => Some f
  | _ => None
  end.

(** * Inputs of the examples *)

(** ** Letter case in the examples

    The case mappings of the examples.  ASCII text is mapped letter by
    letter.  Other text is mapped likewise, and through the characters that
    Unicode maps to ASCII text: to upper case U+00DF (SS), U+0131 (I),
    U+017F (S) and the ligatures U+FB00 to U+FB06 (FF, FI, FL, FFI, FFL, ST,
    ST), to lower case U+212A, the Kelvin sign (k).  Every other character
    is left as it is, so that the result is that of the language whenever
    that one is ASCII text, and is some text that is not ASCII whenever that
    one is not. *)

Definition upper_to_ascii : list (string * string) :=
  [ (bytes [195; 159], "SS");
    (bytes [196; 177], "I");
    (bytes [197; 191], "S");
    (bytes [239; 172; 128], "FF");
    (bytes [239; 172; 129], "FI");
    (bytes [239; 172; 130], "FL");
    (bytes [239; 172; 131], "FFI");
    (bytes [239; 172; 132], "FFL");
    (bytes [239; 172; 133], "ST");
    (bytes [239; 172; 134], "ST") ].

Definition KELVIN_SIGN : string := bytes [226; 132; 170].

Definition lower_to_ascii : list (string * string) := [ (KELVIN_SIGN, "k") ].

(** The text of the first key of the table that [s] starts with, and the
    rest of [s]. *)
Fixpoint take_one_of (table : list (string * string)) (s : string)
  : option (string * string) :=
  match table with
  | [] => None
  | (key, text) :: table' =>
      match drop_prefix key s with
      | Some rest => Some (text, rest)
      | None => take_one_of table' s
      end
  end.

(** [n] is at least the length of [s]. *)
Fixpoint map_case (n : nat) (f : ascii -> ascii) (table : list (string * string))
    (s : string) : string :=
  match n, s with
  | S n', String c r =>
      match take_one_of table s with
      | Some (text, rest) => text ++ map_case n' f table rest
      | None => String (f c) (map_case n' f table r)
      end
  | _, _ => s
  end.

Definition latin_toUpperCase (s : string) : string :=
  if is_ascii s then ascii_toUpperCase s
  else map_case (String.length s) upper_char upper_to_ascii s.

Definition latin_toLowerCase (s : string) : string :=
  if is_ascii s then ascii_toLowerCase s
  else map_case (String.length s) lower_char lower_to_ascii s.

Definition latin_case : StringCase.
Proof.
  refine {| toUpperCase := latin_toUpperCase; toLowerCase := latin_toLowerCase |};
    intros s H; [unfold latin_toUpperCase | unfold latin_toLowerCase];
    rewrite H; reflexivity.
Defined.

(** MAR followed by the Kelvin sign. *)
Definition MAR_KELVIN : string := "MAR" ++ KELVIN_SIGN.

Definition NO_BREAK_SPACE : string := bytes [194; 160].

(** ** Criteria and notations *)

Definition negative_average_condition : Condition.t :=
  {| Condition.criteria_type := str "AVERAGE";
     Condition.comparison_operator := str "GTE";
     Condition.mark := num (-1);
     Condition.notation_text := VUndefined |}.

Definition group_of (c : Condition.t) : nullable Group.t :=
  IsObject {| Group.conditions := IsArray [IsObject c] |}.

Definition branch_of (groups : list (nullable Group.t)) : Branch.t :=
  {| Branch.test_criteria_groups := IsArray groups |}.

Definition one_condition_tree (c : Condition.t) : TestPassingCriteria.t :=
  {| TestPassingCriteria.pass_criteria := Some (branch_of [group_of c]);
     TestPassingCriteria.fail_criteria := None |}.

Definition notation_A : Notation.t :=
  {| Notation.notation_text := str "A"; Notation.max_points := num 20 |}.

Definition mark_A_at_least_10 : Condition.t :=
  {| Condition.criteria_type := str "MARK";
     Condition.comparison_operator := str "GTE";
     Condition.mark := num 10;
     Condition.notation_text := str "A" |}.

Definition nan_average_condition : Condition.t :=
  {| Condition.criteria_type := str "AVERAGE";
     Condition.comparison_operator := str "GTE";
     Condition.mark := VNumber S754_nan;
     Condition.notation_text := VUndefined |}.

Definition notation_with_max_points (v : value) : Notation.t :=
  {| Notation.notation_text := str "A"; Notation.max_points := v |}.

Definition mark_condition_on (text : string) : Condition.t :=
  {| Condition.criteria_type := str "MARK";
     Condition.comparison_operator := str "GTE";
     Condition.mark := num 10;
     Condition.notation_text := str text |}.

Definition notation_of (text : string) : Notation.t :=
  {| Notation.notation_text := str text; Notation.max_points := num 20 |}.

Definition no_branch_tree : TestPassingCriteria.t :=
  {| TestPassingCriteria.pass_criteria := None;
     TestPassingCriteria.fail_criteria := None |}.

Definition notation_blank : Notation.t :=
  {| Notation.notation_text := str " "; Notation.max_points := num 20 |}.

Definition notation_B : Notation.t :=
  {| Notation.notation_text := str "B"; Notation.max_points := num 10 |}.

Definition notation_without_points : Notation.t :=
  {| Notation.notation_text := str "C"; Notation.max_points := VUndefined |}.

Definition first_pass_condition_path : string :=
  "test_passing_criteria.pass_criteria.test_criteria_groups[0].conditions[0]".

Definition two_group_branch : maybe_array (nullable Group.t) :=
  IsArray [ group_of mark_A_at_least_10;
            IsObject {| Group.conditions :=
                          IsArray [IsObject mark_A_at_least_10;
                                   IsObject (mark_condition_on "B")] |} ].

(** A group, and then null where a group should be. *)
Definition groups_with_null : maybe_array (nullable Group.t) :=
  IsArray [ group_of mark_A_at_least_10; IsNull; group_of (mark_condition_on "B") ].

(** ** Marks *)

Definition mark_of (text : string) (z : Z) : Mark.t :=
  {| Mark.notation_text := text; Mark.mark := of_Z z |}.

Definition accept_object : forall A : Type, A -> result unit := fun _ _ => Ok tt.
Definition accept_id : string -> result unit := fun _ => Ok tt.
Definition accept_marks : EnterMarksInput.t -> list Notation.t -> result unit :=
  fun _ _ => Ok tt.

Definition marks_12_and_8 : EnterMarksInput.t :=
  {| EnterMarksInput.test := str "64b000000000000000000001";
     EnterMarksInput.student := str "64b000000000000000000002";
     EnterMarksInput.marks := [mark_of "A" 12; mark_of "B" 8] |}.

(** The numbers that the literals 15.64, 1.29, 8.46 and 8.47 denote. *)
Definition number_15_64 : number := S754_finite false 8804537271509320 (-49).
Definition number_1_29 : number := S754_finite false 5809643519307940 (-52).
Definition number_8_46 : number := S754_finite false 4762556605944300 (-49).
Definition number_8_47 : number := S754_finite false 4768186105478513 (-49).

Definition marks_15_64_and_1_29 : EnterMarksInput.t :=
  {| EnterMarksInput.test := str "64b000000000000000000001";
     EnterMarksInput.student := str "64b000000000000000000002";
     EnterMarksInput.marks :=
       [ {| Mark.notation_text := "A"; Mark.mark := number_15_64 |};
         {| Mark.notation_text := "B"; Mark.mark := number_1_29 |} ] |}.

Definition average_at_least_10 : Engine.branch :=
  {| Engine.b_groups :=
       [ {| Engine.g_conditions :=
              [ {| Engine.c_type := Engine.AVERAGE; Engine.c_operator := Engine.GTE;
                   Engine.c_mark := of_Z 10; Engine.c_notation_text := "" |} ] |} ] |}.

Definition mark_A_below_5 : Engine.branch :=
  {| Engine.b_groups :=
       [ {| Engine.g_conditions :=
              [ {| Engine.c_type := Engine.MARK; Engine.c_operator := Engine.LT;
                   Engine.c_mark := of_Z 5; Engine.c_notation_text := "A" |} ] |} ] |}.

Definition criteria_of_the_example : Engine.criteria :=
  {| Engine.pass_criteria := Some average_at_least_10;
     Engine.fail_criteria := Some mark_A_below_5 |}.

Definition pending_result : gmap string value :=
  <["student_test_result_status" := VString "PENDING"]>
  (<["average_mark" := num 10]>
   (<["mark_entry_date" := num 1700000000000]> ∅)).

(** ** Tasks *)

Definition is_hex_digit (c : ascii) : bool :=
  let n := nat_of_ascii c in
  ((48 <=? n)%nat && (n <=? 57)%nat)
  || ((65 <=? n)%nat && (n <=? 70)%nat)
  || ((97 <=? n)%nat && (n <=? 102)%nat).

(** Modelled from the spec: shared/validator is not among the sources; an
    object identifier is a string of 24 hexadecimal digits. *)
Definition ValidateObjectId_hex (id : string) : result unit :=
  throw_if (negb ((String.length id =? 24)%nat
                  && forallb is_hex_digit (list_ascii_of_string id)))
           (BAD_USER_INPUT ("Invalid ID: " ++ id)).

Definition TaskType : list string := ["ASSIGN_CORRECTOR"; "ENTER_MARKS"; "VALIDATE_MARKS"].
Definition TaskStatus : list string := ["PENDING"; "IN_PROGRESS"; "COMPLETED"; "DELETED"].

Section TaskInputSchema.

Context {SC : StringCase}.

(** Modelled from the spec: task.validator is not among the sources; the
    schema restricts task_type and task_status, when supplied, to the names
    of the enums TaskType and TaskStatus. *)
Definition ValidateTaskInput_schema (taskInput : TaskInput.t) : result unit :=
  throw_if (not_nullish (TaskInput.task_type taskInput)
            && negb (is_string_in TaskType (TaskInput.task_type taskInput)))
           (field_error "Task type is not valid." "task_type") ;;
  throw_if (not_nullish (TaskInput.task_status taskInput)
            && negb (is_string_in TaskStatus (TaskInput.task_status taskInput)))
           (field_error "Task status is not valid." "task_status").

End TaskInputSchema.

Definition user_1 : string := "64b0000000000000000000a1".
Definition user_2 : string := "64b0000000000000000000a2".
Definition test_1 : string := "64b0000000000000000000b1".
Definition test_2 : string := "64b0000000000000000000b2".
Definition task_0 : string := "64b0000000000000000000c0".
Definition task_1 : string := "64b0000000000000000000c1".
Definition time_1 : number := of_Z 1700000000000.

Definition new_task_input : TaskInput.t :=
  {| TaskInput.test := str test_1;
     TaskInput.user := str user_1;
     TaskInput.title := str "Enter the marks";
     TaskInput.description := str "Marks of the written test";
     TaskInput.task_type := str "ENTER_MARKS";
     TaskInput.task_status := VUndefined;
     TaskInput.due_date := VUndefined |}.

(** An update that supplies nothing but [task_status]. *)
Definition status_update (status : value) : TaskInput.t :=
  {| TaskInput.test := VUndefined;
     TaskInput.user := VUndefined;
     TaskInput.title := VUndefined;
     TaskInput.description := VUndefined;
     TaskInput.task_type := VUndefined;
     TaskInput.task_status := status;
     TaskInput.due_date := VUndefined |}.

(** An update that supplies nothing but a title. *)
Definition title_update (title : string) : TaskInput.t :=
  {| TaskInput.test := VUndefined;
     TaskInput.user := VUndefined;
     TaskInput.title := str title;
     TaskInput.description := VUndefined;
     TaskInput.task_type := VUndefined;
     TaskInput.task_status := VUndefined;
     TaskInput.due_date := VUndefined |}.

Definition created_task : gmap string value :=
  <["test" := str test_1]>
  (<["user" := str user_1]>
   (<["title" := str "Enter the marks"]>
    (<["description" := str "Marks of the written test"]>
     (<["task_type" := VString "ENTER_MARKS"]>
      (<["task_status" := VString "PENDING"]>
       (<["due_date" := VUndefined]>
        (<["created_by" := VString user_1]>
         (<["updated_by" := VString user_1]> ∅)))))))).

Definition completion_update : gmap string value :=
  <["task_status" := VString "COMPLETED"]>
  (<["completed_by" := VString user_2]>
   (<["completed_at" := VNumber time_1]>
    (<["updated_by" := VString user_2]> ∅))).

Definition retitle_update : gmap string value :=
  <["title" := VString "Marks entered"]> (<["updated_by" := VString user_2]> ∅).

Definition status_completed_update : gmap string value :=
  <["task_status" := VString "COMPLETED"]> (<["updated_by" := VString user_2]> ∅).

Definition status_in_progress_update : gmap string value :=
  <["task_status" := VString "IN_PROGRESS"]> (<["updated_by" := VString user_2]> ∅).

Definition stored_task (status : string) : gmap string value :=
  <["_id" := VString task_1]>
  (<["test" := VString test_1]>
   (<["task_status" := VString status]> ∅)).

(** Two tests that both list the task [task_1]; the first one is its
    test. *)
Definition two_tests : list Engine.test_document :=
  [ {| Engine.test_id := VString test_1; Engine.test_tasks := [task_0; task_1] |};
    {| Engine.test_id := VString test_2; Engine.test_tasks := [task_1] |} ].

Definition ObjectId_isValid_hex (id : string) : bool :=
  (String.length id =? 24)%nat && forallb is_hex_digit (list_ascii_of_string id).

(** ** Test inputs *)

(** An update that supplies nothing but passing criteria. *)
Definition criteria_update (criteria : TestPassingCriteria.t) : TestInput.t :=
  {| TestInput.name := VUndefined;
     TestInput.description := VUndefined;
     TestInput.test_type := VUndefined;
     TestInput.result_visibility := VUndefined;
     TestInput.weight := VUndefined;
     TestInput.correction_type := VUndefined;
     TestInput.is_retake := VUndefined;
     TestInput.test_status := VUndefined;
     TestInput.notations := NotArray VUndefined;
     TestInput.connected_test := None;
     TestInput.test_passing_criteria := Some criteria |}.

(** A creation of a written test with the notation A. *)
Definition written_test_input : TestInput.t :=
  {| TestInput.name := str "Final exam";
     TestInput.description := str "Written exam of the first term";
     TestInput.test_type := str "written";
     TestInput.result_visibility := str "NEVER";
     TestInput.weight := num 1;
     TestInput.correction_type := str "ADMTC";
     TestInput.is_retake := VBool false;
     TestInput.test_status := VUndefined;
     TestInput.notations := IsArray [IsObject notation_A];
     TestInput.connected_test := None;
     TestInput.test_passing_criteria := Some (one_condition_tree mark_A_at_least_10) |}.

(** The same input with the field named [field] replaced by [v]. *)
Definition with_field (testInput : TestInput.t) (field : string) (v : value) : TestInput.t :=
  {| TestInput.name := if String.eqb field "name" then v else TestInput.name testInput;
     TestInput.description :=
       if String.eqb field "description" then v else TestInput.description testInput;
     TestInput.test_type :=
       if String.eqb field "test_type" then v else TestInput.test_type testInput;
     TestInput.result_visibility :=
       if String.eqb field "result_visibility" then v
       else TestInput.result_visibility testInput;
     TestInput.weight := if String.eqb field "weight" then v else TestInput.weight testInput;
     TestInput.correction_type :=
       if String.eqb field "correction_type" then v else TestInput.correction_type testInput;
     TestInput.is_retake :=
       if String.eqb field "is_retake" then v else TestInput.is_retake testInput;
     TestInput.test_status :=
       if String.eqb field "test_status" then v else TestInput.test_status testInput;
     TestInput.notations := TestInput.notations testInput;
     TestInput.connected_test := TestInput.connected_test testInput;
     TestInput.test_passing_criteria := TestInput.test_passing_criteria testInput |}.

(** ** Loaders *)

Definition hex_id_value (v : value) : bool :=
  match v with
  | VString id => ObjectId_isValid_hex id
  | _ => false
  end.

Definition print_id (v : value) : string :=
  match v with
  | VString id => id
  | _ => "[object Object]"
  end.

Definition test_with_tasks (ids : list value) : value :=
  VObject [("_id", VString test_1); ("tasks", VArray ids)].

Definition context_with_loaders : option Context :=
  Some {| dataLoaders :=
            Some {| SubjectLoader := Some {| load_is_function := true;
                                             loadMany_is_function := true |};
                    StudentTestResultLoader := Some {| load_is_function := true;
                                                       loadMany_is_function := true |};
                    TaskLoader := Some {| load_is_function := true;
                                          loadMany_is_function := true |};
                    UserLoader := Some {| load_is_function := true;
                                          loadMany_is_function := true |} |} |}.

Definition nan_marks_input : EnterMarksInput.t :=
  {| EnterMarksInput.test := str test_1;
     EnterMarksInput.student := str user_1;
     EnterMarksInput.marks :=
       [mark_of "A" 12; {| Mark.notation_text := "B"; Mark.mark := S754_nan |}] |}.

(** * Properties *)

Ltac unfold_result :=
  unfold mbind, result_bind, JS.bind, throw_if in *.

Ltac settle := first [ split; reflexivity | split; intros ?; discriminate ].

(** Evaluates the comparisons of two string literals in the goal. *)
Ltac eval_eqb :=
  repeat match goal with
    | |- context [String.eqb ?a ?b] =>
        let r := eval vm_compute in (String.eqb a b) in
        match r with
        | true => change (String.eqb a b) with true
        | false => change (String.eqb a b) with false
        end
    end; cbv iota.

(** Replaces the upper case of an ASCII literal by that literal in upper
    case. *)
Ltac upper_literals :=
  repeat match goal with
    | |- context [toUpperCase ?s] =>
        let a := eval vm_compute in (is_ascii s) in
        match a with
        | true =>
            let u := eval vm_compute in (ascii_toUpperCase s) in
            rewrite (toUpperCase_ascii s eq_refl : toUpperCase s = u)
        end
    end.

(** ** Loops that throw *)

Lemma result_unit_ok (m : result unit) : succeeds m = true <-> m = Ok tt.
Proof. destruct m as [[]|e]; simpl; split; intros H; try reflexivity; discriminate. Qed.

Lemma forEach_from_accepts {A} (f : A -> nat -> result unit) (P : A -> bool) :
  (forall x i, f x i = Ok tt <-> P x = true) ->
  forall l i, forEach_from f l i = Ok tt <-> forallb P l = true.
Proof.
  intros Hf l; induction l as [|x r IH]; intros i; simpl.
  - split; reflexivity.
  - unfold_result. specialize (Hf x i). specialize (IH (S i)).
    destruct (f x i) as [[]|e]; destruct (P x); simpl.
    + exact IH.
    + destruct Hf as [Hf _]. specialize (Hf eq_refl). discriminate.
    + destruct Hf as [_ Hf]. specialize (Hf eq_refl). discriminate.
    + settle.
Qed.

Lemma forEach_from_Ok {A} (f : A -> nat -> result unit) (l : list A) (i : nat) :
  forEach_from f l i = Ok tt <-> forall k x, l !! k = Some x -> f x (i + k) = Ok tt.
Proof.
  revert i. induction l as [|a l IH]; intros i; simpl.
  - split; [|reflexivity]. intros _ k x H. rewrite lookup_nil in H. discriminate.
  - unfold_result. destruct (f a i) as [[]|e] eqn:E.
    + rewrite IH. split.
      * intros H [|k] x Hk; simpl in Hk.
        -- injection Hk as <-. rewrite Nat.add_0_r. exact E.
        -- replace (i + S k) with (S i + k) by lia. apply H. exact Hk.
      * intros H k x Hk. replace (S i + k) with (i + S k) by lia. apply H. exact Hk.
    + split; [discriminate|]. intros H. specialize (H 0 a eq_refl).
      rewrite Nat.add_0_r in H. congruence.
Qed.

Lemma forEach_from_Throw {A} (f : A -> nat -> result unit) (l : list A) (i : nat) e :
  forEach_from f l i = Throw e <->
  exists k x, l !! k = Some x /\ f x (i + k) = Throw e
              /\ forall j y, j < k -> l !! j = Some y -> f y (i + j) = Ok tt.
Proof.
  revert i. induction l as [|a l IH]; intros i; simpl.
  - split; [discriminate|]. intros [k [x [H _]]]. rewrite lookup_nil in H. discriminate.
  - unfold_result. destruct (f a i) as [[]|e0] eqn:E.
    + rewrite IH. split.
      * intros [k [x [Hk [Hx Hbefore]]]]. exists (S k), x.
        split; [exact Hk|]. split; [replace (i + S k) with (S i + k) by lia; exact Hx|].
        intros [|j] y Hj Hy; simpl in Hy.
        -- injection Hy as <-. rewrite Nat.add_0_r. exact E.
        -- replace (i + S j) with (S i + j) by lia. apply Hbefore; [lia | exact Hy].
      * intros [[|k] [x [Hk [Hx Hbefore]]]]; simpl in Hk.
        -- injection Hk as <-. rewrite Nat.add_0_r in Hx. congruence.
        -- exists k, x. split; [exact Hk|].
           split; [replace (S i + k) with (i + S k) by lia; exact Hx|].
           intros j y Hj Hy. replace (S i + j) with (i + S j) by lia.
           apply Hbefore; [lia | exact Hy].
    + split.
      * intros H. injection H as <-. exists 0, a. split; [reflexivity|].
        split; [rewrite Nat.add_0_r; exact E|]. intros j y Hj. lia.
      * intros [[|k] [x [Hk [Hx Hbefore]]]]; simpl in Hk.
        -- injection Hk as <-. rewrite Nat.add_0_r in Hx. congruence.
        -- specialize (Hbefore 0 a ltac:(lia) eq_refl). rewrite Nat.add_0_r in Hbefore.
           congruence.
Qed.

Lemma forEach_from_ext {A} (f g : A -> nat -> result unit) (l : list A) (i : nat) :
  (forall x k, In x l -> f x k = g x k) -> forEach_from f l i = forEach_from g l i.
Proof.
  revert i. induction l as [|a l IH]; intros i H; simpl; [reflexivity|].
  rewrite (H a i (or_introl eq_refl)). unfold_result.
  destruct (g a i) as [[]|e]; [|reflexivity].
  apply IH. intros x k Hx. apply H. right. exact Hx.
Qed.

(** ** Numbers and sets *)

Lemma includes_In valid s : includes valid s = true <-> In s valid.
Proof.
  unfold includes. rewrite existsb_exists. split.
  - intros [x [Hx He]]. apply String.eqb_eq in He. subst. exact Hx.
  - intros H. exists s. split; [exact H | apply String.eqb_refl].
Qed.

Lemma Set_has_string_In set t : Set_has_string set t = true <-> In (VString t) set.
Proof.
  unfold Set_has_string. rewrite existsb_exists. split.
  - intros [v [Hv He]]. destruct v; try discriminate.
    apply String.eqb_eq in He. subst. exact Hv.
  - intros H. exists (VString t). split; [exact H | apply String.eqb_refl].
Qed.

Lemma ge_zero_not_lt x : x <> S754_nan -> (ge x zero = true <-> lt x zero = false).
Proof.
  intros Hx. unfold ge, lt, zero, SFleb, SFltb.
  destruct x as [s|s| |s m e]; simpl.
  - split; reflexivity.
  - destruct s; split; intros H; try reflexivity; discriminate.
  - contradiction.
  - destruct s; split; intros H; try reflexivity; discriminate.
Qed.

Lemma ge_zero_lt_false x : ge x zero = true -> lt x zero = false.
Proof.
  unfold ge, lt, zero, SFleb, SFltb.
  destruct x as [s|s| |s m e]; simpl; try destruct s; intros H; try reflexivity; discriminate.
Qed.

Lemma ge_zero_not_NaN x : ge x zero = true -> isNaN x = false.
Proof. destruct x; try reflexivity. discriminate. Qed.

Lemma notation_accepted_iff set c :
  notation_accepted set (Condition.notation_text c) = true
  <-> notation_not_blank c /\ notation_in set c.
Proof.
  unfold notation_accepted, notation_not_blank, notation_in.
  destruct (Condition.notation_text c) as [| |b|x|t|l|fs];
    try (split; [intros H; discriminate | intros [[t0 [H _]] _]; discriminate]).
  rewrite andb_true_iff, negb_true_iff, Set_has_string_In. split.
  - intros [Hb Hin]. split; exists t; (split; [reflexivity|]).
    + intros Ht. apply String.eqb_eq in Ht. congruence.
    + exact Hin.
  - intros [[t0 [H0 Hb]] [t1 [H1 Hin]]]. injection H0 as ->. injection H1 as ->.
    split; [|exact Hin]. destruct (String.eqb _ "") eqn:He; [|reflexivity].
    apply String.eqb_eq in He. contradiction.
Qed.

Lemma mark_accepted_iff c :
  ~ mark_is_NaN c -> (mark_accepted (Condition.mark c) = true <-> mark_nonnegative c).
Proof.
  unfold mark_is_NaN, mark_accepted, mark_nonnegative. intros Hnan.
  destruct (Condition.mark c) as [| |b|x|t|l|fs];
    try (split; [intros H; discriminate | intros [x0 [H _]]; discriminate]).
  assert (Hx : x <> S754_nan) by congruence.
  rewrite negb_true_iff, <- (ge_zero_not_lt x Hx). split.
  - intros H. exists x. split; [reflexivity | exact H].
  - intros [x0 [H0 H1]]. injection H0 as ->. exact H1.
Qed.

Lemma object_and_true {A} (P : A -> bool) (x : nullable A) :
  object_and P x = true <-> exists a, x = IsObject a /\ P a = true.
Proof.
  destruct x as [| |a]; simpl.
  - split; [discriminate | intros [a [H _]]; discriminate].
  - split; [discriminate | intros [a [H _]]; discriminate].
  - split; [intros H; exists a; auto | intros [a' [H H']]; injection H as ->; exact H'].
Qed.

Lemma notation_texts_of_objects notations :
  notation_texts_of (objects notations) = Ok (notation_texts notations).
Proof.
  unfold notation_texts_of, objects, notation_texts.
  induction notations as [|n ns IH]; [reflexivity|].
  simpl. unfold_result. simpl. unfold_result. rewrite IH. reflexivity.
Qed.

Lemma notation_texts_of_Ok l set :
  notation_texts_of l = Ok set -> exists ns, l = objects ns /\ set = notation_texts ns.
Proof.
  unfold notation_texts_of. revert set. induction l as [|x l IH]; intros set H.
  - injection H as <-. exists []. split; reflexivity.
  - simpl in H. unfold_result. destruct x as [| |n]; try discriminate. simpl in H.
    destruct (map_array _ l) as [ys|e]; [|discriminate].
    injection H as <-. destruct (IH ys eq_refl) as [ns [-> ->]].
    exists (n :: ns). split; reflexivity.
Qed.

Lemma one_condition_tree_well_shaped c : well_shaped (one_condition_tree c).
Proof.
  split; intros b Hb; [|discriminate].
  injection Hb as <-. eexists _, _. split; [reflexivity|].
  constructor; [|constructor]. eexists _, _, _. split; reflexivity.
Qed.

(** ** The criteria validator *)

Section CriteriaValidator.

Context {SC : StringCase}.

Lemma toUpperCase_empty : toUpperCase "" = "".
Proof. apply (toUpperCase_ascii "" eq_refl). Qed.

Lemma condition_object_accepts set c path :
  validateSingleNotationCondition (IsObject c) set path = Ok tt
  <-> condition_accepted set c = true.
Proof.
  unfold validateSingleNotationCondition, condition_accepted, not_string_in,
    not_number_or_negative, is_string_in, mark_accepted, is_MARK, notation_accepted,
    call_toUpperCase, reading.
  unfold_result.
  destruct c as [ct op m nt].
  cbn [Condition.criteria_type Condition.comparison_operator Condition.mark
       Condition.notation_text].
  destruct ct as [| |b|x|s|l|fs]; cbn [negb andb]; try settle.
  destruct (includes validCriteriaType (toUpperCase s)); cbn [negb andb]; [|settle].
  destruct op as [| |b|x|o|l|fs]; cbn [negb andb]; try settle.
  destruct (includes validComparisonOperator (toUpperCase o)); cbn [negb andb]; [|settle].
  destruct m as [| |b|x|t|l|fs]; cbn [negb andb]; try settle.
  destruct (lt x zero); cbn [negb andb]; [settle|].
  destruct (String.eqb (toUpperCase s) "MARK"); [|settle].
  destruct nt as [| |b|y|t|l|fs]; cbn [negb andb]; try settle.
  destruct (String.eqb (trim t) ""); cbn [negb andb]; [settle|].
  destruct (Set_has_string set t); cbn [negb andb]; settle.
Qed.

Lemma validateSingleNotationCondition_accepts set x path :
  validateSingleNotationCondition x set path = Ok tt
  <-> object_and (condition_accepted set) x = true.
Proof.
  destruct x as [| |c]; [settle | settle | apply condition_object_accepts].
Qed.

Lemma group_object_accepts set g groupPath :
  match Group.conditions g with
  | IsArray ((_ :: _) as conditions) =>
      forEach conditions (fun condition condIndex =>
        validateSingleNotationCondition condition set
          (groupPath ++ ".conditions[" ++ index_to_string condIndex ++ "]"))
  | _ => Throw (BAD_USER_INPUT ("Field '" ++ groupPath ++ ".conditions' must be a non-empty array."))
  end = Ok tt
  <-> group_accepted set g = true.
Proof.
  unfold group_accepted.
  destruct (Group.conditions g) as [v|[|c cs]]; try settle.
  apply forEach_from_accepts.
  intros y j. apply validateSingleNotationCondition_accepts.
Qed.

Lemma validateTestCriteriaGroups_accepts set groups path :
  validateTestCriteriaGroups groups set path = Ok tt <-> groups_accepted set groups = true.
Proof.
  unfold validateTestCriteriaGroups, groups_accepted.
  destruct groups as [v|[|g gs]]; try settle.
  unfold forEach. apply forEach_from_accepts.
  intros x i. destruct x as [| |g0]; [settle | settle |].
  apply group_object_accepts.
Qed.

Lemma validateTestPassingCriteriaInput_with_texts crit l set :
  notation_texts_of l = Ok set ->
  (validateTestPassingCriteriaInput crit l = Ok tt <->
   (bool_decide (is_Some (TestPassingCriteria.pass_criteria crit))
    || bool_decide (is_Some (TestPassingCriteria.fail_criteria crit)))
   && branch_accepted set (TestPassingCriteria.pass_criteria crit)
   && branch_accepted set (TestPassingCriteria.fail_criteria crit)
   = true).
Proof.
  intros Hset.
  unfold validateTestPassingCriteriaInput, validate_branch_if_present, branch_accepted.
  rewrite Hset.
  destruct crit as [[p|] [f|]]; simpl; unfold_result; simpl.
  - pose proof (validateTestCriteriaGroups_accepts set
                  (Branch.test_criteria_groups p) pass_path) as Hp.
    pose proof (validateTestCriteriaGroups_accepts set
                  (Branch.test_criteria_groups f) fail_path) as Hf.
    destruct (validateTestCriteriaGroups (Branch.test_criteria_groups p) _ pass_path) as [[]|e];
      destruct (groups_accepted _ (Branch.test_criteria_groups p)); simpl;
      try exact Hf; try settle.
    + destruct Hp as [Hp _]. specialize (Hp eq_refl). discriminate.
    + destruct Hp as [_ Hp]. specialize (Hp eq_refl). discriminate.
  - pose proof (validateTestCriteriaGroups_accepts set
                  (Branch.test_criteria_groups p) pass_path) as Hp.
    destruct (validateTestCriteriaGroups (Branch.test_criteria_groups p) _ pass_path) as [[]|e];
      destruct (groups_accepted _ (Branch.test_criteria_groups p)); simpl;
      try settle.
    + destruct Hp as [Hp _]. specialize (Hp eq_refl). discriminate.
    + destruct Hp as [_ Hp]. specialize (Hp eq_refl). discriminate.
  - apply (validateTestCriteriaGroups_accepts set
             (Branch.test_criteria_groups f) fail_path).
  - settle.
Qed.

Lemma validateTestPassingCriteriaInput_accepts crit notations :
  validateTestPassingCriteriaInput crit (objects notations) = Ok tt <->
  (bool_decide (is_Some (TestPassingCriteria.pass_criteria crit))
   || bool_decide (is_Some (TestPassingCriteria.fail_criteria crit)))
  && branch_accepted (notation_texts notations) (TestPassingCriteria.pass_criteria crit)
  && branch_accepted (notation_texts notations) (TestPassingCriteria.fail_criteria crit)
  = true.
Proof.
  apply validateTestPassingCriteriaInput_with_texts, notation_texts_of_objects.
Qed.

(** Accepted criteria were validated against notations that are all
    objects. *)
Lemma validateTestPassingCriteriaInput_objects crit l :
  validateTestPassingCriteriaInput crit l = Ok tt -> exists ns, l = objects ns.
Proof.
  unfold validateTestPassingCriteriaInput. unfold_result.
  destruct (negb _ && negb _); [discriminate|].
  destruct (notation_texts_of l) as [set|e] eqn:Hset; [|discriminate].
  intros _. destruct (notation_texts_of_Ok l set Hset) as [ns [-> _]].
  exists ns. reflexivity.
Qed.

Lemma is_string_in_enum valid v : is_string_in valid v = true <-> in_enum valid v.
Proof.
  unfold is_string_in, in_enum. destruct v as [| |b|x|s|l|fs];
    try (split; [intros H; discriminate | intros [s0 [H _]]; discriminate]).
  rewrite includes_In. split.
  - intros H. exists s. split; [reflexivity | exact H].
  - intros [s0 [H0 H1]]. injection H0 as ->. exact H1.
Qed.

Lemma is_MARK_iff c : is_MARK (Condition.criteria_type c) = true <-> is_MARK_condition c.
Proof.
  unfold is_MARK, is_MARK_condition. destruct (Condition.criteria_type c) as [| |b|x|s|l|fs];
    try (split; [intros H; discriminate | intros [s0 [H _]]; discriminate]).
  rewrite String.eqb_eq. split.
  - intros H. exists s. split; [reflexivity | exact H].
  - intros [s0 [H0 H1]]. injection H0 as ->. exact H1.
Qed.

Lemma condition_accepted_iff set c :
  ~ mark_is_NaN c -> (condition_accepted set c = true <-> condition_well_formed set c).
Proof.
  intros Hnan. unfold condition_accepted, condition_well_formed.
  rewrite !andb_true_iff, !is_string_in_enum, (mark_accepted_iff c Hnan).
  rewrite <- is_MARK_iff, <- notation_accepted_iff.
  destruct (is_MARK (Condition.criteria_type c)).
  - split; intros [[[H1 H2] H3] H4]
      || intros [H1 [H2 [H3 H4]]]; repeat split; auto.
  - split.
    + intros [[[H1 H2] H3] H4]. repeat split; auto; discriminate.
    + intros [H1 [H2 [H3 H4]]]. repeat split; auto.
Qed.

Lemma group_accepted_iff set g :
  group_nonempty g ->
  (object_and (group_accepted set) g = true
   <-> forall x, In x (conditions_of_group g) -> object_and (condition_accepted set) x = true).
Proof.
  intros [g0 [c [cs [-> Hg]]]]. unfold group_accepted, conditions_of_group, object_and.
  rewrite Hg. apply forallb_forall.
Qed.

Lemma branch_accepted_iff set b :
  (forall b', b = Some b' -> branch_nonempty b') ->
  (branch_accepted set b = true
   <-> forall x, In x (flat_map conditions_of_group (groups_of_branch b)) ->
                 object_and (condition_accepted set) x = true).
Proof.
  intros Hb. destruct b as [b|]; simpl.
  - destruct (Hb b eq_refl) as [g [gs [Hg Hall]]].
    unfold groups_accepted. rewrite Hg. rewrite forallb_forall. split.
    + intros H c Hc. apply in_flat_map in Hc. destruct Hc as [g' [Hg' Hc]].
      assert (Hne : group_nonempty g').
      { rewrite Forall_forall in Hall. apply Hall, list_elem_of_In. exact Hg'. }
      apply (group_accepted_iff set g' Hne); [apply H; exact Hg' | exact Hc].
    + intros H g' Hg'.
      assert (Hne : group_nonempty g').
      { rewrite Forall_forall in Hall. apply Hall, list_elem_of_In. exact Hg'. }
      apply (group_accepted_iff set g' Hne). intros c Hc. apply H.
      apply in_flat_map. exists g'. split; assumption.
  - split; [intros _ c [] | reflexivity].
Qed.

(** C1, as amended: on a tree in which each present branch has at least one
    group and each group at least one condition, and in which no mark is NaN,
    validation succeeds if and only if a branch is present and every
    condition is an object that has a criteria type and a comparison
    operator whose upper case is in the enums, a mark that is a number at
    least zero and, when its type is MARK, a notation text that is a string
    of the notation set and is not blank, that is, not made of the white
    space that trim removes.  A MARK condition that passes the first three
    checks is rejected with the "required" message when its notation text is
    missing or blank and with the "does not match any notation" message when
    it names an unknown notation, and the two messages differ. *)
Theorem C1_validation_iff
    (crit : TestPassingCriteria.t) (notations : list Notation.t)
    (Hshape : well_shaped crit)
    (Hnan : forall c, In (IsObject c) (conditions_of crit) -> ~ mark_is_NaN c) :
  (validateTestPassingCriteriaInput crit (objects notations) = Ok tt <->
   (is_Some (TestPassingCriteria.pass_criteria crit)
    \/ is_Some (TestPassingCriteria.fail_criteria crit))
   /\ forall x, In x (conditions_of crit) ->
        exists c, x = IsObject c /\ condition_well_formed (notation_texts notations) c)
  /\ (forall c path,
        in_enum validCriteriaType (Condition.criteria_type c) ->
        in_enum validComparisonOperator (Condition.comparison_operator c) ->
        mark_nonnegative c ->
        is_MARK_condition c ->
        (~ notation_not_blank c ->
         validateSingleNotationCondition (IsObject c) (notation_texts notations) path
         = Throw (notation_text_missing_error path))
        /\ (forall t, Condition.notation_text c = VString t -> trim t <> "" ->
                      ~ In (VString t) (notation_texts notations) ->
            validateSingleNotationCondition (IsObject c) (notation_texts notations) path
            = Throw (notation_text_unknown_error path t))
        /\ (forall t, notation_text_missing_error path <> notation_text_unknown_error path t)).
Proof.
  assert (Hcond : forall x, In x (conditions_of crit) ->
            (object_and (condition_accepted (notation_texts notations)) x = true
             <-> exists c, x = IsObject c
                           /\ condition_well_formed (notation_texts notations) c)).
  { intros x Hx. rewrite object_and_true. split; intros [c [-> Hc]]; exists c;
      (split; [reflexivity|]); apply (condition_accepted_iff _ c (Hnan c Hx)); exact Hc. }
  split.
  - rewrite validateTestPassingCriteriaInput_accepts.
    destruct Hshape as [Hp Hf].
    rewrite !andb_true_iff, orb_true_iff, !bool_decide_eq_true.
    rewrite (branch_accepted_iff _ _ Hp), (branch_accepted_iff _ _ Hf).
    unfold conditions_of in *. split.
    + intros [[Hsome Hpass] Hfail]. split; [exact Hsome|].
      intros x Hx. apply (Hcond x Hx).
      rewrite flat_map_app in Hx. apply in_app_or in Hx.
      destruct Hx as [Hx|Hx]; [apply Hpass | apply Hfail]; exact Hx.
    + intros [Hsome Hall]. repeat split; [exact Hsome| |];
        intros x Hx;
        (assert (Hin : In x (flat_map conditions_of_group
                               (groups_of_branch (TestPassingCriteria.pass_criteria crit)
                                ++ groups_of_branch (TestPassingCriteria.fail_criteria crit))))
           by (rewrite flat_map_app; apply in_or_app; auto));
        apply (Hcond x Hin), Hall, Hin.
  - intros c path Hct Hop Hm HM.
    apply is_string_in_enum in Hct, Hop. apply is_MARK_iff in HM.
    destruct Hm as [x [Hx Hge]]. apply ge_zero_lt_false in Hge.
    unfold validateSingleNotationCondition, not_string_in, not_number_or_negative,
      call_toUpperCase, reading.
    unfold_result.
    unfold is_string_in in Hct, Hop. unfold is_MARK in HM.
    destruct c as [ct op m nt]. unfold notation_not_blank.
    cbn [Condition.criteria_type Condition.comparison_operator Condition.mark
         Condition.notation_text] in *.
    destruct ct as [| |b|y|s|l|fs]; try discriminate.
    destruct op as [| |b|y|o|l|fs]; try discriminate.
    subst m. rewrite Hct, Hop, Hge, HM. cbn [negb].
    repeat split.
    + intros Hblank. destruct nt as [| |b|y|t|l|fs]; try reflexivity.
      destruct (String.eqb (trim t) "") eqn:He; [reflexivity|].
      exfalso. apply Hblank. exists t. split; [reflexivity|].
      intros Ht. rewrite Ht in He. discriminate.
    + intros t Hnt Ht Hin. subst nt.
      destruct (String.eqb (trim t) "") eqn:He.
      { apply String.eqb_eq in He. contradiction. }
      destruct (Set_has_string (notation_texts notations) t) eqn:Hs; [|reflexivity].
      apply Set_has_string_In in Hs. contradiction.
    + intros t Heq. unfold notation_text_missing_error, notation_text_unknown_error,
        BAD_USER_INPUT in Heq. simpl in Heq. discriminate.
Qed.

(** ** A mark that is not a number at least zero *)

Lemma nan_average_condition_accepted set :
  condition_accepted set nan_average_condition = true.
Proof.
  unfold condition_accepted, nan_average_condition, is_string_in, is_MARK, str.
  cbn [Condition.criteria_type Condition.comparison_operator Condition.mark
       Condition.notation_text].
  upper_literals. reflexivity.
Qed.

(** C6, the code at the failing input: a condition whose mark is NaN passes
    [typeof mark !== 'number' || mark < 0], so the validator accepts it under
    every path and every notation set, although NaN is not a number at least
    zero; the checks of a notation's max_points and of the weight, which test
    isNaN, reject NaN. *)
Theorem C6_nan_mark_is_accepted :
  (forall set path,
      validateSingleNotationCondition (IsObject nan_average_condition) set path = Ok tt)
  /\ validateTestPassingCriteriaInput (one_condition_tree nan_average_condition)
       (objects [notation_A])
     = Ok tt
  /\ ~ mark_nonnegative nan_average_condition
  /\ succeeds (check_notation (IsObject (notation_with_max_points (VNumber S754_nan))) 0)
     = false
  /\ is_weight (VNumber S754_nan) = false.
Proof.
  split; [|split; [|split; [|split]]].
  - intros set path. apply condition_object_accepts, nan_average_condition_accepted.
  - apply validateTestPassingCriteriaInput_accepts.
    cbn [one_condition_tree TestPassingCriteria.pass_criteria
         TestPassingCriteria.fail_criteria branch_accepted branch_of groups_accepted
         Branch.test_criteria_groups group_of forallb object_and group_accepted
         Group.conditions].
    rewrite nan_average_condition_accepted. reflexivity.
  - intros [x [Hx Hge]]. injection Hx as <-. discriminate.
  - reflexivity.
  - reflexivity.
Qed.

(** Every other mark that is not a number at least zero is rejected, and so
    is every criteria type and comparison operator outside the enums. *)
Lemma validateSingleNotationCondition_sound set c path :
  validateSingleNotationCondition (IsObject c) set path = Ok tt ->
  in_enum validCriteriaType (Condition.criteria_type c)
  /\ in_enum validComparisonOperator (Condition.comparison_operator c)
  /\ (mark_nonnegative c \/ mark_is_NaN c).
Proof.
  intros H. apply condition_object_accepts in H.
  unfold condition_accepted in H. rewrite !andb_true_iff in H.
  destruct H as [[[H1 H2] H3] _].
  repeat split; [apply is_string_in_enum; exact H1 | apply is_string_in_enum; exact H2 |].
  unfold mark_accepted, mark_nonnegative, mark_is_NaN in *.
  destruct (Condition.mark c) as [| |b|x|t|l|fs]; try discriminate.
  destruct x as [s|s| |s m e]; try (right; reflexivity); left; eexists; (split; [reflexivity|]);
    destruct s; try reflexivity; discriminate.
Qed.

End CriteriaValidator.

(** ** Letter case of the enum fields, exact match of the notation *)

Lemma upper_char_upper c : upper_char (upper_char c) = upper_char c.
Proof. destruct c as [[] [] [] [] [] [] [] []]; reflexivity. Qed.

Lemma upper_char_lower c : upper_char (lower_char c) = upper_char c.
Proof. destruct c as [[] [] [] [] [] [] [] []]; reflexivity. Qed.

Lemma upper_char_ascii c : is_ascii_char c = true -> is_ascii_char (upper_char c) = true.
Proof. destruct c as [[] [] [] [] [] [] [] []]; intros H; try reflexivity; discriminate. Qed.

Lemma lower_char_ascii c : is_ascii_char c = true -> is_ascii_char (lower_char c) = true.
Proof. destruct c as [[] [] [] [] [] [] [] []]; intros H; try reflexivity; discriminate. Qed.

Lemma ascii_case_variant_ascii s s' :
  ascii_case_variant s s' -> is_ascii s = true /\ is_ascii s' = true.
Proof.
  unfold is_ascii.
  induction 1 as [|c r r' Hc _ [IH IH']|c r r' Hc _ [IH IH']|c r r' Hc _ [IH IH']]; simpl;
    rewrite ?Hc, ?IH, ?IH', ?(upper_char_ascii c Hc), ?(lower_char_ascii c Hc);
    split; reflexivity.
Qed.

Lemma ascii_case_variant_upper s s' :
  ascii_case_variant s s' -> ascii_toUpperCase s' = ascii_toUpperCase s.
Proof.
  induction 1 as [|c r r' _ _ IH|c r r' _ _ IH|c r r' _ _ IH]; simpl;
    rewrite ?upper_char_upper, ?upper_char_lower, ?IH; reflexivity.
Qed.

Lemma ascii_case_variant_lower s :
  is_ascii s = true -> ascii_case_variant s (ascii_toLowerCase s).
Proof.
  unfold is_ascii. induction s as [|c r IH]; simpl; [constructor|].
  intros H. apply andb_true_iff in H. destruct H as [Hc Hr].
  apply cv_lower; [exact Hc | apply IH, Hr].
Qed.

Section LetterCase.

Context {SC : StringCase}.

(** A change of the case of ASCII letters does not change the upper case. *)
Lemma ascii_case_variant_toUpperCase s s' :
  ascii_case_variant s s' -> toUpperCase s' = toUpperCase s.
Proof.
  intros H. destruct (ascii_case_variant_ascii s s' H) as [Hs Hs'].
  rewrite (toUpperCase_ascii s Hs), (toUpperCase_ascii s' Hs').
  apply ascii_case_variant_upper, H.
Qed.

Lemma mark_condition_on_accepted set text :
  condition_accepted set (mark_condition_on text) = notation_accepted set (str text).
Proof.
  unfold condition_accepted, mark_condition_on, is_string_in, is_MARK, str.
  cbn [Condition.criteria_type Condition.comparison_operator Condition.mark
       Condition.notation_text].
  upper_literals. reflexivity.
Qed.

(** C10, as amended: the validator reads the criteria type and the
    comparison operator through toUpperCase only, so that it gives the same
    result, the same error included, when they are replaced by strings with
    the same upper case; such are the strings of ASCII text that differ in
    the case of their letters.  A MARK condition that passes the checks of
    the type, the operator and the mark, and whose notation text is a string
    that is not blank, is accepted exactly when that very string is an
    element of the notation set: against the set of the one notation A, the
    texts a, A followed by a space and A preceded by a space are all
    rejected. *)
Theorem C10_case_insensitive_enums_exact_notation :
  (forall c ct ct' op op' set path,
      toUpperCase ct' = toUpperCase ct -> toUpperCase op' = toUpperCase op ->
      validateSingleNotationCondition (IsObject (with_enums c ct' op')) set path
      = validateSingleNotationCondition (IsObject (with_enums c ct op)) set path)
  /\ (forall s s', ascii_case_variant s s' -> toUpperCase s' = toUpperCase s)
  /\ (forall c set path t,
        in_enum validCriteriaType (Condition.criteria_type c) ->
        in_enum validComparisonOperator (Condition.comparison_operator c) ->
        mark_accepted (Condition.mark c) = true ->
        is_MARK_condition c ->
        Condition.notation_text c = VString t -> trim t <> "" ->
        (validateSingleNotationCondition (IsObject c) set path = Ok tt
         <-> In (VString t) set))
  /\ validateSingleNotationCondition (IsObject (mark_condition_on "A")) [str "A"] "p" = Ok tt
  /\ succeeds (validateSingleNotationCondition (IsObject (mark_condition_on "a")) [str "A"] "p")
     = false
  /\ succeeds (validateSingleNotationCondition (IsObject (mark_condition_on "A ")) [str "A"] "p")
     = false
  /\ succeeds (validateSingleNotationCondition (IsObject (mark_condition_on " A")) [str "A"] "p")
     = false.
Proof.
  assert (Hrejected : forall text,
            notation_accepted [str "A"] (str text) = false ->
            succeeds (validateSingleNotationCondition (IsObject (mark_condition_on text))
                        [str "A"] "p") = false).
  { intros text H.
    destruct (validateSingleNotationCondition _ _ _) as [[]|e] eqn:Hv; [|reflexivity].
    apply condition_object_accepts in Hv. rewrite mark_condition_on_accepted in Hv.
    congruence. }
  split; [|split; [exact ascii_case_variant_toUpperCase|split; [|repeat split]]].
  - intros c ct ct' op op' set path Hct Hop.
    unfold validateSingleNotationCondition, with_enums, not_string_in, call_toUpperCase,
      reading.
    unfold_result.
    cbn [Condition.criteria_type Condition.comparison_operator Condition.mark
         Condition.notation_text].
    rewrite Hct, Hop. reflexivity.
  - intros c set path t Hct Hop Hm HM Hnt Ht.
    rewrite condition_object_accepts. unfold condition_accepted.
    apply is_string_in_enum in Hct, Hop. apply is_MARK_iff in HM.
    rewrite Hct, Hop, Hm, HM, Hnt. cbn [andb notation_accepted].
    rewrite <- Set_has_string_In.
    destruct (String.eqb (trim t) "") eqn:He.
    + apply String.eqb_eq in He. contradiction.
    + reflexivity.
  - apply condition_object_accepts. rewrite mark_condition_on_accepted. reflexivity.
  - apply Hrejected. reflexivity.
  - apply Hrejected. reflexivity.
  - apply Hrejected. reflexivity.
Qed.

End LetterCase.

(** ** The criteria validator at concrete inputs *)

Section CriteriaExamples.

#[local] Existing Instance latin_case.

(** C1, counterexample: a condition AVERAGE GTE -1 has valid enum fields and
    is not a MARK condition, yet validation rejects the tree because of its
    mark. *)
Lemma C1_negative_mark_counterexample :
  ~ validation_iff_as_stated (one_condition_tree negative_average_condition) [notation_A].
Proof.
  intros H. specialize (H (one_condition_tree_well_shaped _)).
  destruct H as [_ H].
  assert (Hok : validateTestPassingCriteriaInput
                  (one_condition_tree negative_average_condition) (objects [notation_A])
                = Ok tt).
  { apply H. intros x [<-|[]]. exists negative_average_condition.
    split; [reflexivity|]. repeat split.
    - exists "AVERAGE". split; [reflexivity | simpl; auto].
    - exists "GTE". split; [reflexivity | simpl; auto].
    - intros [s [Hs Hm]]. injection Hs as <-. discriminate. }
  vm_compute in Hok. discriminate.
Qed.

Lemma C1_validation_iff_witness :
  (validateTestPassingCriteriaInput (one_condition_tree mark_A_at_least_10)
     (objects [notation_A]) = Ok tt
   <-> (is_Some (TestPassingCriteria.pass_criteria (one_condition_tree mark_A_at_least_10))
        \/ is_Some (TestPassingCriteria.fail_criteria (one_condition_tree mark_A_at_least_10)))
       /\ forall x, In x (conditions_of (one_condition_tree mark_A_at_least_10)) ->
            exists c, x = IsObject c
                      /\ condition_well_formed (notation_texts [notation_A]) c).
Proof.
  refine (proj1 (C1_validation_iff (one_condition_tree mark_A_at_least_10) [notation_A] _ _)).
  - apply one_condition_tree_well_shaped.
  - intros c [H|[]]. injection H as <-. unfold mark_is_NaN. simpl. discriminate.
Defined.

(** The condition whose mark is NaN, with the letter case of the examples. *)
Lemma C6_nan_mark_is_accepted_witness :
  validateSingleNotationCondition (IsObject nan_average_condition) [str "A"]
    first_pass_condition_path = Ok tt
  /\ validateTestPassingCriteriaInput (one_condition_tree nan_average_condition)
       (objects [notation_A]) = Ok tt.
Proof.
  destruct (C6_nan_mark_is_accepted (SC := latin_case)) as [Hcondition [Htree _]].
  split; [apply Hcondition | exact Htree].
Defined.

(** C10, counterexample: the upper case of MAR followed by the Kelvin sign
    (U+212A) is that string itself, which is no criteria type, and its lower
    case is mark, which is one: a condition of the first type is rejected and
    the same condition with the type in lower case is accepted. *)
Lemma C10_kelvin_sign_counterexample : ~ case_insensitive_as_stated.
Proof.
  intros H.
  specialize (H mark_A_at_least_10 MAR_KELVIN "mark" "GTE" "GTE" [str "A"] "p"
                (or_intror eq_refl) (or_introl eq_refl)).
  vm_compute in H. discriminate.
Qed.

Lemma C10_case_insensitive_enums_exact_notation_witness :
  validateSingleNotationCondition (IsObject (with_enums mark_A_at_least_10 "mArK" "gte"))
    [str "A"] "p"
  = validateSingleNotationCondition (IsObject (with_enums mark_A_at_least_10 "MARK" "GTE"))
      [str "A"] "p"
  /\ (validateSingleNotationCondition (IsObject mark_A_at_least_10) [str "A"] "p" = Ok tt
      <-> In (VString "A") [str "A"]).
Proof.
  destruct (C10_case_insensitive_enums_exact_notation (SC := latin_case))
    as [Hsame [Hvariant [Hexact _]]].
  split.
  - apply Hsame; apply Hvariant.
    + apply (cv_lower "M" _ _ eq_refl), (cv_keep "A" _ _ eq_refl),
        (cv_lower "R" _ _ eq_refl), (cv_keep "K" _ _ eq_refl), cv_empty.
    + apply (ascii_case_variant_lower "GTE" eq_refl).
  - apply (Hexact mark_A_at_least_10 [str "A"] "p" "A").
    + exists "MARK". split; [reflexivity | simpl; auto].
    + exists "GTE". split; [reflexivity | simpl; auto].
    + reflexivity.
    + exists "MARK". split; reflexivity.
    + reflexivity.
    + simpl. discriminate.
Defined.

(** *** Rejections of the criteria validator, with their errors *)

Example no_branch_is_rejected :
  validateTestPassingCriteriaInput no_branch_tree (objects [notation_A])
  = Throw no_branch_error.
Proof. reflexivity. Qed.

Example negative_mark_is_rejected :
  validateTestPassingCriteriaInput (one_condition_tree negative_average_condition)
    (objects [notation_A])
  = Throw (mark_error first_pass_condition_path).
Proof. vm_compute. reflexivity. Qed.

(** A blank notation text is rejected as missing even when the notation set
    holds the same blank text, be it a space or a no-break space. *)
Example blank_notation_is_rejected :
  validateTestPassingCriteriaInput (one_condition_tree (mark_condition_on " "))
    (objects [notation_blank])
  = Throw (notation_text_missing_error first_pass_condition_path)
  /\ validateTestPassingCriteriaInput (one_condition_tree (mark_condition_on NO_BREAK_SPACE))
       (objects [notation_of NO_BREAK_SPACE])
     = Throw (notation_text_missing_error first_pass_condition_path).
Proof. split; vm_compute; reflexivity. Qed.

Example unknown_notation_is_rejected :
  validateTestPassingCriteriaInput (one_condition_tree (mark_condition_on "B"))
    (objects [notation_A])
  = Throw (notation_text_unknown_error first_pass_condition_path "B").
Proof. vm_compute. reflexivity. Qed.

(** Null where a notation should be is a TypeError, not an error of the
    validator. *)
Example null_notation_is_a_TypeError :
  validateTestPassingCriteriaInput (one_condition_tree mark_A_at_least_10)
    [IsObject notation_A; IsNull]
  = Throw (TypeError "Cannot read properties of null (reading 'notation_text')").
Proof. vm_compute. reflexivity. Qed.

End CriteriaExamples.

(** ** The average mark *)

Lemma totalMarks_snoc marks m :
  totalMarks (marks ++ [m]) = add (totalMarks marks) (Mark.mark m).
Proof. unfold totalMarks. rewrite fold_left_app. reflexivity. Qed.

Lemma totalMarks_sum_is marks : sum_is marks (totalMarks marks).
Proof.
  induction marks as [|m marks IH] using rev_ind.
  - constructor.
  - rewrite totalMarks_snoc. constructor. exact IH.
Qed.

Lemma sum_is_functional marks : forall t1 t2, sum_is marks t1 -> sum_is marks t2 -> t1 = t2.
Proof.
  induction marks as [|m marks IH] using rev_ind; intros t1 t2 H1 H2.
  - inversion H1 as [|l1 m1 s1 _ E1]; [|destruct l1; discriminate].
    inversion H2 as [|l2 m2 s2 _ E2]; [|destruct l2; discriminate]. reflexivity.
  - inversion H1 as [E1|l1 m1 s1 Hs1 E1]; [destruct marks; discriminate|].
    inversion H2 as [E2|l2 m2 s2 Hs2 E2]; [destruct marks; discriminate|].
    apply app_inj_tail in E1, E2. destruct E1 as [-> ->], E2 as [-> ->].
    rewrite (IH _ _ Hs1 Hs2). reflexivity.
Qed.

(** What [toFixed(2)] prints is the nearest number of hundredths, the larger
    of two that are as near. *)
Lemma nearest_hundredths_prints m e :
  prints_hundredths (magnitude m e) (nearest_hundredths m e).
Proof.
  unfold prints_hundredths, magnitude, nearest_hundredths.
  destruct e as [|p|p].
  - unfold Qle, Qlt. simpl. split; lia.
  - unfold Qle, Qlt. simpl. split; lia.
  - assert (Hd : (0 < 2 ^ Zpos p)%Z) by (apply Z.pow_pos_nonneg; lia).
    assert (Hpow : Zpos (2 ^ p) = (2 ^ Zpos p)%Z) by apply Pos2Z.inj_pow.
    set (d := (2 ^ Zpos p)%Z) in *.
    pose proof (Z.div_mod (200 * Zpos m + d) (2 * d) ltac:(lia)) as Hdiv.
    pose proof (Z.mod_pos_bound (200 * Zpos m + d) (2 * d) ltac:(lia)) as Hmod.
    set (q := ((200 * Zpos m + d) / (2 * d))%Z) in *.
    set (r := ((200 * Zpos m + d) mod (2 * d))%Z) in *.
    unfold Qle, Qlt, Qminus, Qplus, Qmult, Qopp, inject_Z.
    cbn [Qnum Qden]. rewrite ?Pos2Z.inj_mul, ?Hpow. split; nia.
Qed.

Lemma at_least_1e21_false m e : at_least_1e21 m e = false <-> below_1e21 m e.
Proof.
  unfold at_least_1e21, below_1e21, magnitude. destruct e as [|p|p].
  - rewrite Z.leb_gt. unfold Qlt. simpl. lia.
  - rewrite Z.leb_gt. unfold Qlt. cbn [Qnum Qden inject_Z]. lia.
  - rewrite Z.leb_gt. unfold Qlt. cbn [Qnum Qden inject_Z].
    rewrite Pos2Z.inj_pow. lia.
Qed.

Lemma at_least_1e21_true m e : at_least_1e21 m e = true <-> ~ below_1e21 m e.
Proof.
  rewrite <- at_least_1e21_false. destruct (at_least_1e21 m e); split; congruence.
Qed.

Lemma prints_hundredths_rounds q n : prints_hundredths q n -> rounds_to_hundredths q n.
Proof. intros [H1 H2]. split; [exact H1 | apply Qlt_le_weak, H2]. Qed.

Lemma prints_hundredths_nonnegative m e n :
  prints_hundredths (magnitude m e) n -> (0 <= n)%Z.
Proof.
  intros [_ H]. revert H. unfold magnitude. destruct e as [|p|p].
  - unfold Qlt. simpl. lia.
  - unfold Qlt. simpl. pose proof (Z.pow_pos_nonneg 2 (Zpos p) ltac:(lia) ltac:(lia)). nia.
  - unfold Qlt, Qplus, Qmult, inject_Z. cbn [Qnum Qden].
    rewrite ?Pos2Z.inj_mul. pose proof (Pos2Z.is_pos (2 ^ p)). nia.
Qed.

Lemma prints_back_correct limit :
  prints_back limit = true ->
  forall n, (0 < n <= Z.of_nat limit)%Z -> toFixed2 (two_decimals false n) = NumFixed false n.
Proof.
  induction limit as [|k IH]; intros H n Hn; [lia|].
  cbn [prints_back] in H.
  destruct (toFixed2 (two_decimals false (Z.of_nat (S k)))) as [| |[|] h|] eqn:Hlast;
    try discriminate.
  apply andb_true_iff in H. destruct H as [Hh Hk]. apply Z.eqb_eq in Hh.
  destruct (Z.eq_dec n (Z.of_nat (S k))) as [->|Hne].
  - rewrite Hlast, Hh. reflexivity.
  - apply (IH Hk). lia.
Qed.

(** A numeral of up to 20.00 that is read as a number and printed with two
    decimals is printed as it was. *)
Lemma two_decimals_print_back n :
  (0 < n <= 2000)%Z -> toFixed2 (two_decimals false n) = NumFixed false n.
Proof.
  intros Hn. apply (prints_back_correct (Z.to_nat 2000)); [vm_compute; reflexivity|].
  rewrite Z2Nat.id; lia.
Qed.

(** C2, as amended: the payload of a student test result carries, as
    average_mark, zero when no mark was entered.  Otherwise the marks are
    added up in their order and the sum is divided by their count, both in
    the binary64 arithmetic of the language.  A quotient that is finite and
    below 10^21 in magnitude is stored as the number nearest to n
    hundredths, with its sign, where n is the number of hundredths nearest
    to the magnitude of the quotient, the larger of two that are as near.
    The stored number is therefore the mean rounded to two decimals whenever
    the quotient is exactly the mean and is positive, as it is for the marks
    A 12 and B 8, which give 10; a quotient that is zero gives zero, and one
    that is NaN, infinite or at least 10^21 in magnitude is stored as it is.
    A numeral of up to 20.00 denotes a number that is printed back as that
    numeral. *)
Theorem C2_average_mark
    (ValidateInputTypeObject : forall A : Type, A -> result unit)
    (ValidateObjectId : string -> result unit)
    (ValidateEnterMarksInput : EnterMarksInput.t -> list Notation.t -> result unit)
    (now : number) (input : EnterMarksInput.t) (userId : string)
    (notations : list Notation.t) (payload : gmap string value)
    (Hpayload : GetStudentTestResultPayload ValidateInputTypeObject ValidateObjectId
                  ValidateEnterMarksInput now input userId notations = Ok payload) :
  let marks := EnterMarksInput.marks input in
  exists total average,
    sum_is marks total
    /\ payload !! "average_mark" = Some (VNumber average)
    /\ (marks = [] -> average = zero)
    /\ (marks <> [] ->
        let quotient := div total (of_nat (length marks)) in
        (forall s m e,
            quotient = S754_finite s m e -> below_1e21 m e ->
            exists n, prints_hundredths (magnitude m e) n
                      /\ average = two_decimals s n
                      /\ (forall q, s = false -> exact_mean marks = Some q ->
                                    (q == magnitude m e)%Q ->
                                    average_as_stated marks average))
        /\ (forall s, quotient = S754_zero s -> average = zero)
        /\ (forall s m e, quotient = S754_finite s m e -> ~ below_1e21 m e ->
                          average = quotient)
        /\ (quotient = S754_nan \/ (exists s, quotient = S754_infinity s) ->
            average = quotient))
    /\ (marks = [mark_of "A" 12; mark_of "B" 8] ->
        average = of_Z 10 /\ average_as_stated marks average)
    /\ (forall n, (0 < n <= 2000)%Z -> toFixed2 (two_decimals false n) = NumFixed false n).
Proof.
  intros marks. unfold GetStudentTestResultPayload in Hpayload. unfold_result.
  destruct (ValidateInputTypeObject _ input) as [[]|?]; [|discriminate].
  destruct (ValidateObjectId userId) as [[]|?]; [|discriminate].
  destruct (ValidateEnterMarksInput input notations) as [[]|?]; [|discriminate].
  injection Hpayload as <-. fold marks.
  exists (totalMarks marks), (Number_of_numeral (toFixed2 (averageMark marks))).
  split; [apply totalMarks_sum_is|].
  split; [reflexivity|].
  assert (Hne : marks <> [] -> averageMark marks = div (totalMarks marks) (of_nat (length marks))).
  { intros H. unfold averageMark. destruct marks; [contradiction | reflexivity]. }
  split; [intros ->; reflexivity|].
  split; [|split; [|exact two_decimals_print_back]].
  - intros H. rewrite (Hne H).
    split; [|split; [|split]].
    + intros s m e Hq Hbig. apply at_least_1e21_false in Hbig.
      rewrite Hq. unfold toFixed2. rewrite Hbig.
      pose proof (nearest_hundredths_prints m e) as Hprints.
      exists (nearest_hundredths m e). split; [exact Hprints|].
      assert (Hstored : Number_of_numeral (NumFixed s (nearest_hundredths m e))
                        = two_decimals s (nearest_hundredths m e)).
      { destruct (nearest_hundredths m e); reflexivity. }
      split; [exact Hstored|].
      intros q -> Hmean Hexact. exists q, (nearest_hundredths m e).
      split; [exact Hmean|].
      split; [apply (prints_hundredths_nonnegative m e _ Hprints)|].
      split; [|exact Hstored].
      apply prints_hundredths_rounds. destruct Hprints as [H1 H2].
      split; rewrite Hexact; assumption.
    + intros s Hq. rewrite Hq. reflexivity.
    + intros s m e Hq Hbig. apply at_least_1e21_true in Hbig.
      rewrite Hq. unfold toFixed2. rewrite Hbig. reflexivity.
    + intros [Hq|[s Hq]]; rewrite Hq; reflexivity.
  - intros Hmarks. rewrite Hmarks. split; [vm_compute; reflexivity|].
    eexists _, 1000%Z.
    split; [vm_compute; reflexivity|]. split; [lia|].
    split; [|vm_compute; reflexivity].
    unfold rounds_to_hundredths, Qle. simpl. lia.
Qed.

Lemma C2_average_mark_witness :
  exists payload,
    GetStudentTestResultPayload accept_object accept_id accept_marks (of_Z 1700000000000)
      marks_12_and_8 "64b000000000000000000003" [notation_A] = Ok payload
    /\ exists total average,
         sum_is (EnterMarksInput.marks marks_12_and_8) total
         /\ payload !! "average_mark" = Some (VNumber average)
         /\ average = of_Z 10
         /\ average_as_stated (EnterMarksInput.marks marks_12_and_8) average.
Proof.
  eexists. split; [reflexivity|].
  destruct (C2_average_mark accept_object accept_id accept_marks (of_Z 1700000000000)
              marks_12_and_8 "64b000000000000000000003" [notation_A] _ eq_refl)
    as [total [average [Hsum [Hp [_ [_ [H10 _]]]]]]].
  exists total, average. split; [exact Hsum|]. split; [exact Hp|].
  apply H10. reflexivity.
Defined.

(** C2, counterexample: the marks 15.64 and 1.29.  Their sum in binary64
    arithmetic is the number 16.93 and its half the number 8.465, which lies
    below 8.465 and is stored as 8.46; the mean of the two marks lies above
    8.465 and rounds to 8.47 only. *)
Lemma C2_binary_rounding_counterexample :
  exists payload average,
    GetStudentTestResultPayload accept_object accept_id accept_marks time_1
      marks_15_64_and_1_29 user_1 [notation_A; notation_B] = Ok payload
    /\ payload !! "average_mark" = Some (VNumber average)
    /\ average = number_8_46
    /\ average = two_decimals false 846
    /\ (forall q n, exact_mean (EnterMarksInput.marks marks_15_64_and_1_29) = Some q ->
                    rounds_to_hundredths q n -> n = 847%Z)
    /\ ~ average_as_stated (EnterMarksInput.marks marks_15_64_and_1_29) average.
Proof.
  assert (Hround : forall q n,
            exact_mean (EnterMarksInput.marks marks_15_64_and_1_29) = Some q ->
            rounds_to_hundredths q n -> n = 847%Z).
  { intros q n Hq [Hlo Hhi]. vm_compute in Hq. injection Hq as <-.
    unfold Qle, Qminus, Qplus, Qmult, Qopp, inject_Z in Hlo, Hhi.
    cbn [Qnum Qden] in Hlo, Hhi. lia. }
  eexists _, _.
  split; [reflexivity|]. split; [reflexivity|]. split; [vm_compute; reflexivity|].
  split; [vm_compute; reflexivity|]. split; [exact Hround|].
  intros [q [n [Hq [_ [Hn Havg]]]]].
  rewrite (Hround q n Hq Hn) in Havg. vm_compute in Havg. discriminate.
Qed.

(** ** A mark that is NaN *)

Lemma add_NaN_r x : add x S754_nan = S754_nan.
Proof. destruct x as [s|s| |s m e]; try destruct s; reflexivity. Qed.

Lemma totalMarks_from_NaN marks :
  fold_left (fun total item => add total (Mark.mark item)) marks S754_nan = S754_nan.
Proof. induction marks as [|m marks IH]; simpl; [reflexivity | exact IH]. Qed.

Lemma totalMarks_NaN marks m :
  In m marks -> Mark.mark m = S754_nan -> totalMarks marks = S754_nan.
Proof.
  unfold totalMarks. generalize zero as total.
  induction marks as [|a marks IH]; intros total Hin Hm; [destruct Hin|].
  simpl. destruct Hin as [->|Hin].
  - rewrite Hm, add_NaN_r. apply totalMarks_from_NaN.
  - apply IH; assumption.
Qed.

(** The helper does not look at the marks it adds up: when the validator of
    the marks lets a NaN through, the total, the average and the stored
    average_mark are all NaN. *)
Theorem GetStudentTestResultPayload_NaN_mark
    (ValidateInputTypeObject : forall A : Type, A -> result unit)
    (ValidateObjectId : string -> result unit)
    (ValidateEnterMarksInput : EnterMarksInput.t -> list Notation.t -> result unit)
    (now : number) (input : EnterMarksInput.t) (userId : string)
    (notations : list Notation.t) (payload : gmap string value) (m : Mark.t)
    (Hpayload : GetStudentTestResultPayload ValidateInputTypeObject ValidateObjectId
                  ValidateEnterMarksInput now input userId notations = Ok payload)
    (Hin : In m (EnterMarksInput.marks input))
    (Hnan : Mark.mark m = S754_nan) :
  totalMarks (EnterMarksInput.marks input) = S754_nan
  /\ averageMark (EnterMarksInput.marks input) = S754_nan
  /\ payload !! "average_mark" = Some (VNumber S754_nan).
Proof.
  pose proof (totalMarks_NaN _ m Hin Hnan) as Htotal.
  assert (Haverage : averageMark (EnterMarksInput.marks input) = S754_nan).
  { unfold averageMark. rewrite Htotal.
    destruct (EnterMarksInput.marks input); [destruct Hin | reflexivity]. }
  split; [exact Htotal|]. split; [exact Haverage|].
  unfold GetStudentTestResultPayload in Hpayload. unfold_result.
  destruct (ValidateInputTypeObject _ input) as [[]|?]; [|discriminate].
  destruct (ValidateObjectId userId) as [[]|?]; [|discriminate].
  destruct (ValidateEnterMarksInput input notations) as [[]|?]; [|discriminate].
  injection Hpayload as <-. rewrite Haverage. reflexivity.
Qed.

Lemma GetStudentTestResultPayload_NaN_mark_witness :
  exists payload,
    GetStudentTestResultPayload accept_object accept_id accept_marks time_1
      nan_marks_input user_2 [notation_A; notation_B] = Ok payload
    /\ payload !! "average_mark" = Some (VNumber S754_nan).
Proof.
  eexists. split; [reflexivity|].
  apply (GetStudentTestResultPayload_NaN_mark accept_object accept_id accept_marks time_1
           nan_marks_input user_2 [notation_A; notation_B] _
           {| Mark.notation_text := "B"; Mark.mark := S754_nan |} eq_refl).
  - right. left. reflexivity.
  - reflexivity.
Defined.

(** The payload of a student test result is produced whenever the three
    validators accept. *)
Lemma GetStudentTestResultPayload_produces
    (ValidateInputTypeObject : forall A : Type, A -> result unit)
    (ValidateObjectId : string -> result unit)
    (ValidateEnterMarksInput : EnterMarksInput.t -> list Notation.t -> result unit)
    now input userId notations :
  ValidateInputTypeObject _ input = Ok tt ->
  ValidateObjectId userId = Ok tt ->
  ValidateEnterMarksInput input notations = Ok tt ->
  exists payload,
    GetStudentTestResultPayload ValidateInputTypeObject ValidateObjectId
      ValidateEnterMarksInput now input userId notations = Ok payload.
Proof.
  intros H1 H2 H3. unfold GetStudentTestResultPayload. unfold_result.
  rewrite H1, H2, H3. eexists. reflexivity.
Qed.

(** ** Precedence of the fail criteria *)

(** C3: when a test has both branches and the marks and the average satisfy
    both, the classification is FAIL, for the given average and for the one
    that the aggregator computes from the marks. *)
Theorem C3_fail_criteria_precedence
    (c : Engine.criteria) (pass fail : Engine.branch)
    (marks : list Mark.t) (average : number)
    (Hpass : Engine.pass_criteria c = Some pass)
    (Hfail : Engine.fail_criteria c = Some fail)
    (Hpass_sat : Engine.EvaluateBranch pass marks average = true)
    (Hfail_sat : Engine.EvaluateBranch fail marks average = true) :
  Engine.classify c marks average = Engine.FAIL
  /\ (average = Number_of_numeral (toFixed2 (averageMark marks)) ->
      Engine.ComputeAverageAndOutcome marks c = (average, Engine.FAIL)).
Proof.
  assert (H : Engine.classify c marks average = Engine.FAIL).
  { unfold Engine.classify, Engine.present_and_satisfied.
    rewrite Hfail, Hfail_sat. reflexivity. }
  split; [exact H|].
  intros ->. unfold Engine.ComputeAverageAndOutcome. rewrite H. reflexivity.
Qed.

Lemma C3_fail_criteria_precedence_witness :
  Engine.classify criteria_of_the_example [mark_of "A" 3; mark_of "B" 19] (of_Z 11)
  = Engine.FAIL
  /\ Engine.ComputeAverageAndOutcome [mark_of "A" 3; mark_of "B" 19] criteria_of_the_example
     = (of_Z 11, Engine.FAIL).
Proof.
  destruct (C3_fail_criteria_precedence criteria_of_the_example
              average_at_least_10 mark_A_below_5
              [mark_of "A" 3; mark_of "B" 19] (of_Z 11)
              eq_refl eq_refl eq_refl eq_refl) as [H1 H2].
  split; [exact H1 | apply H2; vm_compute; reflexivity].
Defined.

(** The example of the specification: the marks A 3 and B 15 have the
    average 9 and satisfy the fail branch alone. *)
Example classify_example :
  Engine.ComputeAverageAndOutcome [mark_of "A" 3; mark_of "B" 15] criteria_of_the_example
  = (of_Z 9, Engine.FAIL).
Proof. vm_compute. reflexivity. Qed.

(** ** Validation of the marks of a result *)

(** C4, the code at the failing input: the payload that validates a result
    sets student_test_result_status to VALIDATED and writes the time under
    the name marks_validated_date; it has no field mark_validated_date, the
    field of the StudentTestResult type, and applied to a PENDING result it
    leaves that field unset.  The completion payload marks the task
    COMPLETED. *)
Theorem C4_validation_payload_misses_mark_validated_date
    (ValidateObjectId : string -> result unit) (now : number) (userId : string)
    (Hid : ValidateObjectId userId = Ok tt) :
  exists result_update task_update,
    GetStudentTestResultValidationPayload ValidateObjectId now userId = Ok result_update
    /\ GetTaskCompletionPayload ValidateObjectId now userId = Ok task_update
    /\ result_update !! "student_test_result_status" = Some (VString "VALIDATED")
    /\ result_update !! "marks_validated_date" = Some (VNumber now)
    /\ result_update !! "mark_validated_date" = None
    /\ Engine.is_set (Engine.apply_set result_update pending_result) "mark_validated_date"
       = false
    /\ task_update !! "task_status" = Some (VString "COMPLETED").
Proof.
  unfold GetStudentTestResultValidationPayload, GetTaskCompletionPayload.
  unfold_result. rewrite Hid. eexists _, _.
  split; [reflexivity|]. split; [reflexivity|].
  repeat split.
Qed.

Lemma C4_validation_payload_misses_mark_validated_date_witness :
  exists result_update task_update,
    GetStudentTestResultValidationPayload accept_id (of_Z 1700000000000)
      "64b000000000000000000003" = Ok result_update
    /\ GetTaskCompletionPayload accept_id (of_Z 1700000000000)
         "64b000000000000000000003" = Ok task_update
    /\ result_update !! "mark_validated_date" = None.
Proof.
  destruct (C4_validation_payload_misses_mark_validated_date accept_id
              (of_Z 1700000000000) "64b000000000000000000003" eq_refl)
    as [r [t [Hr [Ht [_ [_ [Hnone _]]]]]]].
  exists r, t. repeat split; assumption.
Defined.

(** ** The payload of UpdateTask *)

Lemma lookup_set_if_supplied key v (m : gmap string value) k :
  set_if_supplied key v m !! k
  = if String.eqb k key then (if not_nullish v then Some v else m !! k) else m !! k.
Proof.
  unfold set_if_supplied. destruct (String.eqb_spec k key) as [->|Hne].
  - destruct (not_nullish v); [apply lookup_insert_eq | reflexivity].
  - destruct (not_nullish v); [|reflexivity].
    apply lookup_insert_ne. congruence.
Qed.

Lemma supplied_Some v : is_Some (supplied v) <-> not_nullish v = true.
Proof.
  unfold supplied. destruct (not_nullish v); split; intros H; try reflexivity;
    try discriminate; [eexists; reflexivity | destruct H; discriminate].
Qed.

Lemma get_field_apply_set_None (payload task : gmap string value) k :
  payload !! k = None -> get_field (Engine.apply_set payload task) k = get_field task k.
Proof.
  intros H. unfold get_field, Engine.apply_set. rewrite (lookup_union_r _ _ _ H). reflexivity.
Qed.

Lemma get_field_apply_set_Some (payload task : gmap string value) k v :
  payload !! k = Some v -> get_field (Engine.apply_set payload task) k = v.
Proof.
  intros H. unfold get_field, Engine.apply_set.
  rewrite (lookup_union_Some_l _ _ _ _ H). reflexivity.
Qed.

Lemma completion_consistent_invariant task :
  completion_consistent task -> completion_invariant task.
Proof.
  unfold completion_consistent, completion_invariant. intros [-> ->].
  destruct (Engine.has_status task "COMPLETED"); split; auto; intros [H _]; exact H.
Qed.

Section TaskPayloads.

Context {SC : StringCase}.

Lemma lookup_set_upper_if_supplied key v (m m' : gmap string value) k :
  set_upper_if_supplied key v m = Ok m' ->
  (not_nullish v = true -> exists s, v = VString s)
  /\ m' !! k = if String.eqb k key
               then (if not_nullish v then supplied_upper v else m !! k) else m !! k.
Proof.
  unfold set_upper_if_supplied, call_toUpperCase. unfold_result.
  destruct v as [| |b|x|s|l|fs]; cbn [not_nullish]; intros H; try discriminate;
    injection H as <-.
  - split; [discriminate|]. destruct (String.eqb k key); reflexivity.
  - split; [discriminate|]. destruct (String.eqb k key); reflexivity.
  - split; [intros _; exists s; reflexivity|].
    destruct (String.eqb_spec k key) as [->|Hne].
    + apply lookup_insert_eq.
    + apply lookup_insert_ne. congruence.
Qed.

Lemma supplied_upper_nullish v : not_nullish v = false -> supplied_upper v = None.
Proof. destruct v; intros H; try discriminate; reflexivity. Qed.

Variable ValidateInputTypeObject : forall A : Type, A -> result unit.
Variable ValidateObjectId : string -> result unit.
Variable ValidateTaskInput : TaskInput.t -> result unit.

Lemma GetUpdateTaskPayload_lookup input userId payload :
  GetUpdateTaskPayload ValidateInputTypeObject ValidateObjectId ValidateTaskInput
    input userId = Ok payload ->
  forall k, payload !! k = update_payload_field input userId k.
Proof.
  unfold GetUpdateTaskPayload. unfold_result.
  destruct (ValidateInputTypeObject _ input) as [[]|?]; [|discriminate].
  destruct (ValidateObjectId userId) as [[]|?]; [|discriminate].
  destruct (ValidateTaskInput input) as [[]|?]; [|discriminate].
  destruct (set_upper_if_supplied "task_type" _ _) as [m1|?] eqn:E1; [|discriminate].
  destruct (set_upper_if_supplied "task_status" _ _) as [m2|?] eqn:E2; [|discriminate].
  intros H k. injection H as <-.
  pose proof (lookup_set_upper_if_supplied _ _ _ _ k E1) as [_ H1].
  pose proof (lookup_set_upper_if_supplied _ _ _ _ k E2) as [_ H2].
  unfold update_payload_field.
  destruct (String.eqb_spec k "updated_by") as [->|Hk1]; [apply lookup_insert_eq|].
  rewrite lookup_insert_ne by congruence.
  rewrite lookup_set_if_supplied, H2, H1, !lookup_set_if_supplied, lookup_empty.
  unfold supplied. clear H1 H2 E1 E2.
  destruct (String.eqb_spec k "due_date") as [->|?]; eval_eqb;
    [destruct (not_nullish (TaskInput.due_date input)); reflexivity|].
  destruct (String.eqb_spec k "task_status") as [->|?]; eval_eqb;
    [destruct (not_nullish (TaskInput.task_status input)) eqn:Es;
     [reflexivity | rewrite (supplied_upper_nullish _ Es); reflexivity]|].
  destruct (String.eqb_spec k "task_type") as [->|?]; eval_eqb;
    [destruct (not_nullish (TaskInput.task_type input)) eqn:Et;
     [reflexivity | rewrite (supplied_upper_nullish _ Et); reflexivity]|].
  destruct (String.eqb_spec k "description") as [->|?]; eval_eqb;
    [destruct (not_nullish (TaskInput.description input)); reflexivity|].
  destruct (String.eqb_spec k "title") as [->|?]; eval_eqb;
    [destruct (not_nullish (TaskInput.title input)); reflexivity|].
  destruct (String.eqb_spec k "user") as [->|?]; eval_eqb;
    [destruct (not_nullish (TaskInput.user input)); reflexivity|].
  reflexivity.
Qed.

Lemma GetUpdateTaskPayload_strings input userId payload :
  GetUpdateTaskPayload ValidateInputTypeObject ValidateObjectId ValidateTaskInput
    input userId = Ok payload ->
  (not_nullish (TaskInput.task_type input) = true ->
   exists s, TaskInput.task_type input = VString s)
  /\ (not_nullish (TaskInput.task_status input) = true ->
      exists s, TaskInput.task_status input = VString s).
Proof.
  unfold GetUpdateTaskPayload. unfold_result.
  destruct (ValidateInputTypeObject _ input) as [[]|?]; [|discriminate].
  destruct (ValidateObjectId userId) as [[]|?]; [|discriminate].
  destruct (ValidateTaskInput input) as [[]|?]; [|discriminate].
  destruct (set_upper_if_supplied "task_type" _ _) as [m1|?] eqn:E1; [|discriminate].
  destruct (set_upper_if_supplied "task_status" _ _) as [m2|?] eqn:E2; [|discriminate].
  intros _.
  pose proof (lookup_set_upper_if_supplied _ _ _ _ "" E1) as [H1 _].
  pose proof (lookup_set_upper_if_supplied _ _ _ _ "" E2) as [H2 _].
  split; assumption.
Qed.

(** The payload of UpdateTask is produced whenever the validators accept and
    the two enum fields, where supplied, are strings. *)
Lemma GetUpdateTaskPayload_produces input userId :
  ValidateInputTypeObject _ input = Ok tt ->
  ValidateObjectId userId = Ok tt ->
  ValidateTaskInput input = Ok tt ->
  (not_nullish (TaskInput.task_type input) = true ->
   exists s, TaskInput.task_type input = VString s) ->
  (not_nullish (TaskInput.task_status input) = true ->
   exists s, TaskInput.task_status input = VString s) ->
  exists payload,
    GetUpdateTaskPayload ValidateInputTypeObject ValidateObjectId ValidateTaskInput
      input userId = Ok payload.
Proof.
  intros H1 H2 H3 Htype Hstatus.
  unfold GetUpdateTaskPayload, set_upper_if_supplied, call_toUpperCase. unfold_result.
  rewrite H1, H2, H3.
  destruct (not_nullish (TaskInput.task_type input)) eqn:Et.
  - destruct (Htype eq_refl) as [s ->].
    destruct (not_nullish (TaskInput.task_status input)) eqn:Es.
    + destruct (Hstatus eq_refl) as [s' ->]. eexists. reflexivity.
    + eexists. reflexivity.
  - destruct (not_nullish (TaskInput.task_status input)) eqn:Es.
    + destruct (Hstatus eq_refl) as [s' ->]. eexists. reflexivity.
    + eexists. reflexivity.
Qed.

(** C8: the payload of UpdateTask holds updated_by and, of the six fields
    that can be updated, exactly those that were supplied with a value other
    than undefined and null, each with the supplied value (in upper case for
    task_type and task_status); task_status is in the payload exactly when a
    task_status was supplied; and a field that the payload does not hold
    keeps its value when the payload is applied to a task. *)
Theorem C8_update_payload_fields
    (input : TaskInput.t) (userId : string) (payload : gmap string value)
    (Hpayload : GetUpdateTaskPayload ValidateInputTypeObject ValidateObjectId
                  ValidateTaskInput input userId = Ok payload) :
  (forall k, is_Some (payload !! k) <->
             k = "updated_by"
             \/ exists v, In (k, v) (update_fields input) /\ not_nullish v = true)
  /\ payload !! "updated_by" = Some (VString userId)
  /\ (forall k v, In (k, v) (update_fields input) -> not_nullish v = true ->
                  payload !! k = Some (payload_value k v))
  /\ (is_Some (payload !! "task_status") <-> not_nullish (TaskInput.task_status input) = true)
  /\ (forall (doc : gmap string value) k,
        payload !! k = None -> Engine.apply_set payload doc !! k = doc !! k).
Proof.
  pose proof (GetUpdateTaskPayload_lookup _ _ _ Hpayload) as Hlook.
  pose proof (GetUpdateTaskPayload_strings _ _ _ Hpayload) as [Htype Hstatus].
  assert (Hvalues : forall k v, In (k, v) (update_fields input) -> not_nullish v = true ->
                                payload !! k = Some (payload_value k v)).
  { intros k v Hin Hv. rewrite Hlook. unfold update_payload_field, payload_value, supplied.
    simpl in Hin.
    destruct Hin as [E|[E|[E|[E|[E|[E|[]]]]]]]; injection E as <- <-; eval_eqb;
      cbn [orb]; try (rewrite Hv; reflexivity).
    - destruct (Htype Hv) as [s ->]. reflexivity.
    - destruct (Hstatus Hv) as [s ->]. reflexivity. }
  assert (Hstatus_iff :
            is_Some (payload !! "task_status")
            <-> not_nullish (TaskInput.task_status input) = true).
  { split.
    - rewrite Hlook. unfold update_payload_field. eval_eqb.
      destruct (TaskInput.task_status input); intros [? ?]; try discriminate; reflexivity.
    - intros Hv. rewrite (Hvalues "task_status" (TaskInput.task_status input)); [eauto| |exact Hv].
      simpl. auto 10. }
  repeat split.
  - rewrite Hlook. unfold update_payload_field.
    destruct (String.eqb_spec k "updated_by") as [->|?]; [intros _; left; reflexivity|].
    intros Hsome. right.
    destruct (String.eqb_spec k "due_date") as [->|?];
      [exists (TaskInput.due_date input); split; [simpl; auto 10 | apply supplied_Some, Hsome]|].
    destruct (String.eqb_spec k "task_status") as [->|?].
    { exists (TaskInput.task_status input). split; [simpl; auto 10|].
      destruct (TaskInput.task_status input); destruct Hsome; try discriminate; reflexivity. }
    destruct (String.eqb_spec k "task_type") as [->|?].
    { exists (TaskInput.task_type input). split; [simpl; auto 10|].
      destruct (TaskInput.task_type input); destruct Hsome; try discriminate; reflexivity. }
    destruct (String.eqb_spec k "description") as [->|?];
      [exists (TaskInput.description input); split;
       [simpl; auto 10 | apply supplied_Some, Hsome]|].
    destruct (String.eqb_spec k "title") as [->|?];
      [exists (TaskInput.title input); split; [simpl; auto 10 | apply supplied_Some, Hsome]|].
    destruct (String.eqb_spec k "user") as [->|?];
      [exists (TaskInput.user input); split; [simpl; auto 10 | apply supplied_Some, Hsome]|].
    destruct Hsome; discriminate.
  - intros [->|[v [Hin Hv]]].
    + rewrite Hlook. eexists. reflexivity.
    + rewrite (Hvalues k v Hin Hv). eexists. reflexivity.
  - rewrite Hlook. reflexivity.
  - exact Hvalues.
  - apply Hstatus_iff.
  - apply Hstatus_iff.
  - intros doc k Hnone. unfold Engine.apply_set. apply lookup_union_r. exact Hnone.
Qed.

(** ** Completion of a task *)

Lemma created_task_consistent input userId payload :
  GetCreateTaskPayload ValidateInputTypeObject ValidateObjectId ValidateTaskInput
    input userId = Ok payload ->
  completion_consistent (Engine.create payload)
  /\ get_field (Engine.create payload) "task_status" = VString "PENDING".
Proof.
  unfold GetCreateTaskPayload. unfold_result.
  destruct (ValidateInputTypeObject _ input) as [[]|?]; [|discriminate].
  destruct (ValidateObjectId userId) as [[]|?]; [|discriminate].
  destruct (ValidateTaskInput input) as [[]|?]; [|discriminate].
  destruct (call_toUpperCase _ (TaskInput.task_type input)) as [t|?]; [|discriminate].
  intros H. injection H as <-. repeat split.
Qed.

Lemma completed_task_consistent task now userId payload :
  GetTaskCompletionPayload ValidateObjectId now userId = Ok payload ->
  completion_consistent (Engine.apply_set payload task)
  /\ get_field (Engine.apply_set payload task) "task_status" = VString "COMPLETED".
Proof.
  unfold GetTaskCompletionPayload. unfold_result.
  destruct (ValidateObjectId userId) as [[]|?]; [|discriminate].
  intros H. injection H as <-.
  unfold completion_consistent, Engine.is_set, Engine.has_status.
  rewrite (get_field_apply_set_Some _ task "completed_by" (VString userId)) by reflexivity.
  rewrite (get_field_apply_set_Some _ task "completed_at" (VNumber now)) by reflexivity.
  rewrite (get_field_apply_set_Some _ task "task_status" (VString "COMPLETED"))
    by reflexivity.
  repeat split.
Qed.

(** What an accepted update does to the three fields of the invariant: the
    completion fields stay as they are, and the status is COMPLETED afterwards
    as the update says, or as before when it says nothing. *)
Lemma updated_task_fields task input userId payload :
  GetUpdateTaskPayload ValidateInputTypeObject ValidateObjectId ValidateTaskInput
    input userId = Ok payload ->
  Engine.is_set (Engine.apply_set payload task) "completed_by"
  = Engine.is_set task "completed_by"
  /\ Engine.is_set (Engine.apply_set payload task) "completed_at"
     = Engine.is_set task "completed_at"
  /\ (not_nullish (TaskInput.task_status input) = false ->
      Engine.has_status (Engine.apply_set payload task) "COMPLETED"
      = Engine.has_status task "COMPLETED")
  /\ (forall s, TaskInput.task_status input = VString s ->
                Engine.has_status (Engine.apply_set payload task) "COMPLETED"
                = String.eqb (toUpperCase s) "COMPLETED")
  /\ (not_nullish (TaskInput.task_status input) = false
      \/ exists s, TaskInput.task_status input = VString s).
Proof.
  intros Hp.
  pose proof (GetUpdateTaskPayload_lookup _ _ _ Hp) as Hlook.
  pose proof (GetUpdateTaskPayload_strings _ _ _ Hp) as [_ Hstring].
  unfold Engine.is_set, Engine.has_status.
  rewrite !get_field_apply_set_None by (rewrite Hlook; reflexivity).
  split; [reflexivity|]. split; [reflexivity|]. split; [|split].
  - intros Hnull. rewrite get_field_apply_set_None; [reflexivity|].
    rewrite Hlook. unfold update_payload_field. eval_eqb.
    apply supplied_upper_nullish. exact Hnull.
  - intros s Hs.
    rewrite (get_field_apply_set_Some _ task "task_status" (VString (toUpperCase s)));
      [reflexivity|].
    rewrite Hlook. unfold update_payload_field. eval_eqb. rewrite Hs. reflexivity.
  - destruct (not_nullish (TaskInput.task_status input)) eqn:E; [right|left; reflexivity].
    apply Hstring. reflexivity.
Qed.

Lemma updated_task_consistent task input userId payload :
  keeps_completion input task ->
  GetUpdateTaskPayload ValidateInputTypeObject ValidateObjectId ValidateTaskInput
    input userId = Ok payload ->
  completion_consistent task ->
  completion_consistent (Engine.apply_set payload task).
Proof.
  intros Hkeep Hp [Hby Hat].
  destruct (updated_task_fields task _ _ _ Hp) as [Eby [Eat [Hnone [Hsome _]]]].
  assert (Hstatus : Engine.has_status (Engine.apply_set payload task) "COMPLETED"
                    = Engine.has_status task "COMPLETED").
  { destruct Hkeep as [Hnull|[s [Hs Hcur]]].
    - apply Hnone. exact Hnull.
    - rewrite (Hsome s Hs). exact Hcur. }
  unfold completion_consistent. rewrite Eby, Eat, Hstatus. split; assumption.
Qed.

(** An accepted update of a task that satisfies the invariant leaves it
    satisfied exactly when it does not change whether the task is
    COMPLETED. *)
Lemma updated_task_invariant task input userId payload :
  GetUpdateTaskPayload ValidateInputTypeObject ValidateObjectId ValidateTaskInput
    input userId = Ok payload ->
  completion_consistent task ->
  (completion_invariant (Engine.apply_set payload task) <-> keeps_completion input task).
Proof.
  intros Hp Hcons. split.
  - intros Hinv.
    destruct (updated_task_fields task _ _ _ Hp) as [Eby [Eat [_ [Hsome Hcases]]]].
    destruct Hcases as [Hnull|[s Hs]]; [left; exact Hnull|].
    right. exists s. split; [exact Hs|].
    unfold completion_invariant in Hinv. rewrite Eby, Eat, (Hsome s Hs) in Hinv.
    destruct Hcons as [Hby Hat]. rewrite Hby, Hat in Hinv.
    destruct (String.eqb (toUpperCase s) "COMPLETED"),
             (Engine.has_status task "COMPLETED"); try reflexivity.
    + destruct (proj2 Hinv eq_refl). discriminate.
    + apply Hinv. split; reflexivity.
  - intros Hkeep. apply completion_consistent_invariant.
    apply (updated_task_consistent _ _ _ _ Hkeep Hp Hcons).
Qed.

Lemma reachable_keeping_completion_consistent task :
  reachable_keeping_completion ValidateInputTypeObject ValidateObjectId ValidateTaskInput
    task ->
  completion_consistent task.
Proof.
  induction 1 as [input userId payload Hp
                 |task input userId payload _ IH Hkeep Hp
                 |task now userId payload _ IH Hp].
  - apply (created_task_consistent _ _ _ Hp).
  - apply (updated_task_consistent _ _ _ _ Hkeep Hp IH).
  - apply (completed_task_consistent task _ _ _ Hp).
Qed.

(** C5, as amended: in every task state reached from a CreateTask payload by
    task completion payloads and by UpdateTask payloads that do not change
    whether the task is COMPLETED (they supply no task_status, or one that
    is COMPLETED exactly when the status of the task is), completed_by and
    completed_at are set if and only if task_status is COMPLETED, and each
    of the two is.  A further UpdateTask payload keeps this exactly when it
    does not change whether the task is COMPLETED. *)
Theorem C5_completion_fields_iff_completed
    (task : gmap string value)
    (Hreach : reachable_keeping_completion ValidateInputTypeObject ValidateObjectId
                ValidateTaskInput task) :
  completion_invariant task
  /\ completion_consistent task
  /\ forall input userId payload,
       GetUpdateTaskPayload ValidateInputTypeObject ValidateObjectId ValidateTaskInput
         input userId = Ok payload ->
       (completion_invariant (Engine.apply_set payload task)
        <-> keeps_completion input task).
Proof.
  pose proof (reachable_keeping_completion_consistent _ Hreach) as H.
  split; [apply completion_consistent_invariant; exact H|].
  split; [exact H|].
  intros input userId payload Hp. apply (updated_task_invariant _ _ _ _ Hp H).
Qed.

(** A task is created and then updated with a task_status whose upper case
    is COMPLETED: the task is COMPLETED while completed_by and completed_at
    are unset, whatever the validators are and whatever the task was created
    from, as long as they accept. *)
Lemma status_update_breaks_completion_invariant
    input userId created status userId' payload :
  GetCreateTaskPayload ValidateInputTypeObject ValidateObjectId ValidateTaskInput
    input userId = Ok created ->
  TaskInput.task_status status = VString "COMPLETED" ->
  GetUpdateTaskPayload ValidateInputTypeObject ValidateObjectId ValidateTaskInput
    status userId' = Ok payload ->
  let task := Engine.apply_set payload (Engine.create created) in
  reachable ValidateInputTypeObject ValidateObjectId ValidateTaskInput task
  /\ Engine.has_status task "COMPLETED" = true
  /\ Engine.is_set task "completed_by" = false
  /\ Engine.is_set task "completed_at" = false
  /\ ~ completion_invariant task.
Proof.
  intros Hcreate Hstatus Hupdate task.
  destruct (created_task_consistent _ _ _ Hcreate) as [[Hby Hat] Hpending].
  destruct (updated_task_fields (Engine.create created) _ _ _ Hupdate)
    as [Eby [Eat [_ [Hsome _]]]].
  assert (Hnot : Engine.has_status (Engine.create created) "COMPLETED" = false).
  { unfold Engine.has_status. rewrite Hpending. reflexivity. }
  assert (Hcompleted : Engine.has_status task "COMPLETED" = true).
  { unfold task. rewrite (Hsome _ Hstatus).
    rewrite (toUpperCase_ascii "COMPLETED") by reflexivity. reflexivity. }
  assert (Hby' : Engine.is_set task "completed_by" = false).
  { unfold task. rewrite Eby, Hby. exact Hnot. }
  assert (Hat' : Engine.is_set task "completed_at" = false).
  { unfold task. rewrite Eat, Hat. exact Hnot. }
  split; [|split; [exact Hcompleted|split; [exact Hby'|split; [exact Hat'|]]]].
  - apply (reach_update _ _ _ _ status userId' payload); [|exact Hupdate].
    apply (reach_create _ _ _ input userId created Hcreate).
  - intros Hinv. destruct (proj2 Hinv Hcompleted) as [Hset _]. congruence.
Qed.

(** ** The outcome of GetCreateTaskPayload *)

(** A task that GetCreateTaskPayload produces is PENDING whatever
    task_status the input carries, has its type in upper case, is created
    and updated by the same user and has no completion fields; when the
    validators accept an input whose task_type is not a string, the function
    throws a TypeError, not an ApolloError. *)
Theorem GetCreateTaskPayload_outcome
    (taskInput : TaskInput.t) (userId : string) :
  (forall payload,
      GetCreateTaskPayload ValidateInputTypeObject ValidateObjectId ValidateTaskInput
        taskInput userId = Ok payload ->
      payload !! "task_status" = Some (VString "PENDING")
      /\ (exists s, TaskInput.task_type taskInput = VString s
                    /\ payload !! "task_type" = Some (VString (toUpperCase s)))
      /\ payload !! "created_by" = Some (VString userId)
      /\ payload !! "updated_by" = Some (VString userId)
      /\ payload !! "test" = Some (TaskInput.test taskInput)
      /\ payload !! "completed_by" = None /\ payload !! "completed_at" = None)
  /\ (ValidateInputTypeObject _ taskInput = Ok tt -> ValidateObjectId userId = Ok tt ->
      ValidateTaskInput taskInput = Ok tt ->
      (forall s, TaskInput.task_type taskInput <> VString s) ->
      exists message,
        GetCreateTaskPayload ValidateInputTypeObject ValidateObjectId ValidateTaskInput
          taskInput userId = Throw (TypeError message)).
Proof.
  unfold GetCreateTaskPayload, call_toUpperCase. unfold_result. split.
  - destruct (ValidateInputTypeObject _ taskInput) as [[]|?]; [|discriminate].
    destruct (ValidateObjectId userId) as [[]|?]; [|discriminate].
    destruct (ValidateTaskInput taskInput) as [[]|?]; [|discriminate].
    destruct (TaskInput.task_type taskInput) as [| |b|x|s|l|fs]; try discriminate.
    intros payload H. injection H as <-.
    split; [reflexivity|]. split; [exists s; split; reflexivity|]. repeat split.
  - intros -> -> -> Hnot.
    destruct (TaskInput.task_type taskInput) as [| |b|x|s|l|fs]; try (eexists; reflexivity).
    exfalso. apply (Hnot s). reflexivity.
Qed.

End TaskPayloads.

(** ** DeleteTask *)

Lemma is_the_string_true v s : is_the_string v s = true <-> v = VString s.
Proof.
  unfold is_the_string. destruct v as [| |b|x|t|l|fs];
    try (split; intros H; discriminate).
  rewrite String.eqb_eq. split; [intros -> | intros H; injection H as ->]; reflexivity.
Qed.

Lemma find_the_only {A} (f : A -> bool) (l : list A) (x : A) :
  In x l -> f x = true -> (forall y, In y l -> f y = true -> y = x) ->
  List.find f l = Some x.
Proof.
  induction l as [|a l IH]; intros Hin Hfx Huniq; [destruct Hin|].
  simpl. destruct (f a) eqn:Hfa.
  - f_equal. apply Huniq; [left; reflexivity | exact Hfa].
  - destruct Hin as [->|Hin]; [congruence|].
    apply IH; [exact Hin | exact Hfx |].
    intros y Hy. apply Huniq. right. exact Hy.
Qed.

Lemma find_first {A} (f : A -> bool) (l : list A) (x : A) :
  List.find f l = Some x ->
  exists before after, l = (before ++ x :: after)%list
                       /\ forall y, In y before -> f y = false.
Proof.
  induction l as [|a l IH]; intros H; [discriminate|].
  simpl in H. destruct (f a) eqn:Hfa.
  - injection H as ->. exists [], l. split; [reflexivity | intros y []].
  - destruct (IH H) as [before [after [-> Hbefore]]].
    exists (a :: before), after. split; [reflexivity|].
    intros y [<-|Hy]; [exact Hfa | apply Hbefore; exact Hy].
Qed.

Lemma find_is_none {A} (f : A -> bool) (l : list A) :
  (forall y, In y l -> f y = false) -> List.find f l = None.
Proof.
  induction l as [|a l IH]; intros H; [reflexivity|].
  simpl. rewrite (H a (or_introl eq_refl)). apply IH. intros y Hy. apply H. right. exact Hy.
Qed.

Lemma apply_pull_removes p tasks : ~ In (pull_tasks p) (Engine.apply_pull p tasks).
Proof.
  unfold Engine.apply_pull. intros H. apply filter_In in H. destruct H as [_ H].
  rewrite String.eqb_refl in H. discriminate.
Qed.

Lemma apply_pull_keeps p tasks t :
  t <> pull_tasks p -> (In t (Engine.apply_pull p tasks) <-> In t tasks).
Proof.
  intros Hne. unfold Engine.apply_pull. rewrite filter_In. split; [intros [H _]; exact H|].
  intros H. split; [exact H|]. destruct (String.eqb_spec t (pull_tasks p)); [contradiction|].
  reflexivity.
Qed.

(** A test that the update does not touch. *)
Lemma pulled_from_other testId taskId t :
  Engine.test_id t <> VString testId -> pulled_from testId taskId t t.
Proof.
  intros Hne. split; [reflexivity|]. split; [intros H; contradiction | reflexivity].
Qed.

(** [updateOne] with a payload that selects the test [testId] and pulls the
    task [taskId]: of tests with distinct identifiers, the test [testId]
    loses the task and no other test changes. *)
Lemma updateOne_pulled_from p testId taskId tests :
  pull_filter_id p = VString testId -> pull_tasks p = taskId ->
  distinct_tests tests ->
  Forall2 (pulled_from testId taskId) tests (Engine.updateOne p tests).
Proof.
  intros Hfilter Htasks. unfold distinct_tests.
  induction tests as [|t r IH]; intros Hdistinct; [constructor|].
  cbn [map] in Hdistinct. apply NoDup_cons_iff in Hdistinct.
  destruct Hdistinct as [Hnotin Hdistinct].
  cbn [Engine.updateOne]. unfold Engine.selects. rewrite Hfilter.
  destruct (is_the_string (Engine.test_id t) testId) eqn:Hsel.
  - apply is_the_string_true in Hsel. constructor.
    + split; [reflexivity|]. split; [|intros H; contradiction].
      intros _. cbn [Engine.test_tasks]. rewrite <- Htasks. split.
      * apply apply_pull_removes.
      * intros t' Hne. apply apply_pull_keeps. exact Hne.
    + clear IH. induction r as [|t' r IHr]; [constructor|].
      constructor.
      * apply pulled_from_other. intros H. apply Hnotin. left. congruence.
      * apply IHr.
        -- intros H. apply Hnotin. right. exact H.
        -- apply NoDup_cons_iff in Hdistinct. apply Hdistinct.
  - constructor; [|apply IH; exact Hdistinct].
    apply pulled_from_other. intros H. apply is_the_string_true in H. congruence.
Qed.

Lemma findOne_not_deleted_Some TaskModel taskId task :
  findOne_not_deleted TaskModel taskId = Some task ->
  In task TaskModel /\ get_field task "_id" = VString taskId
  /\ get_field task "task_status" <> VString "DELETED".
Proof.
  unfold findOne_not_deleted. intros H. apply find_some in H. destruct H as [Hin H].
  apply andb_true_iff in H. destruct H as [Hid Hst].
  split; [exact Hin|]. split; [apply is_the_string_true; exact Hid|].
  intros E. apply negb_true_iff in Hst. apply is_the_string_true in E. congruence.
Qed.

Lemma findOne_not_deleted_None TaskModel taskId :
  findOne_not_deleted TaskModel taskId = None <->
  forall task, In task TaskModel -> get_field task "_id" = VString taskId ->
               get_field task "task_status" = VString "DELETED".
Proof.
  unfold findOne_not_deleted. split.
  - intros H task Hin Hid. pose proof (List.find_none _ _ H task Hin) as Hf. cbn beta in Hf.
    apply is_the_string_true in Hid. rewrite Hid in Hf. cbn [andb] in Hf.
    apply negb_false_iff, is_the_string_true in Hf. exact Hf.
  - intros H. apply find_is_none. intros task Hin.
    destruct (is_the_string (get_field task "_id") taskId) eqn:Hid; [|reflexivity].
    apply is_the_string_true in Hid. rewrite (H task Hin Hid). reflexivity.
Qed.

(** C7: for a task of the collection whose status is not DELETED,
    GetDeleteTaskPayload returns one pair of payloads.  The first selects the
    task alone and sets its task_status to DELETED, so that the task is
    DELETED once it is applied.  The second has the test of the task as its
    filter and the identifier of the task as what it pulls: applied to a
    task list it removes the identifier and keeps every other one, and
    applied to the tests it takes the task from the task list of the test
    of the task and changes no other test.  For a task whose status is
    DELETED it throws an ApolloError with the code
    GET_DELETE_TASK_PAYLOAD_FAILED and returns no payload. *)
Theorem C7_delete_task_payload
    (ValidateObjectId : string -> result unit)
    (TaskModel : list (gmap string value)) (now : number) (taskId userId : string)
    (task : gmap string value)
    (Htask_id : ValidateObjectId taskId = Ok tt)
    (Huser_id : ValidateObjectId userId = Ok tt)
    (Htask : is_the_task TaskModel taskId task) :
  (Engine.has_status task "DELETED" = false ->
   exists payload,
     GetDeleteTaskPayload ValidateObjectId TaskModel now taskId userId = Ok payload
     /\ delete_filter_ids (dtp_task payload) = [taskId]
     /\ delete_set (dtp_task payload) !! "task_status" = Some (VString "DELETED")
     /\ Engine.has_status (Engine.apply_set (delete_set (dtp_task payload)) task) "DELETED"
        = true
     /\ pull_filter_id (dtp_test payload) = get_field task "test"
     /\ pull_tasks (dtp_test payload) = taskId
     /\ (forall tasks, ~ In taskId (Engine.apply_pull (dtp_test payload) tasks))
     /\ (forall tasks t, t <> taskId ->
           (In t (Engine.apply_pull (dtp_test payload) tasks) <-> In t tasks))
     /\ (forall testId tests,
           get_field task "test" = VString testId -> distinct_tests tests ->
           Forall2 (pulled_from testId taskId) tests
                   (Engine.updateOne (dtp_test payload) tests)))
  /\ (Engine.has_status task "DELETED" = true ->
      GetDeleteTaskPayload ValidateObjectId TaskModel now taskId userId
      = Throw (delete_failure "Task not found")).
Proof.
  destruct Htask as [Hin [Hid Huniq]].
  unfold GetDeleteTaskPayload, rethrow_delete_failure. unfold_result.
  rewrite Htask_id, Huser_id. unfold Engine.has_status. split; intros Hstatus.
  - assert (Hfind : findOne_not_deleted TaskModel taskId = Some task).
    { unfold findOne_not_deleted. apply find_the_only; [exact Hin | |].
      - rewrite Hstatus, andb_true_r. apply is_the_string_true. exact Hid.
      - intros other Hother Hmatch. apply andb_true_iff in Hmatch.
        destruct Hmatch as [Hmatch _]. apply is_the_string_true in Hmatch.
        apply Huniq; assumption. }
    rewrite Hfind. eexists. split; [reflexivity|].
    cbn [dtp_task dtp_test BuildDeletePayload delete_filter_ids delete_set].
    split; [reflexivity|]. split; [reflexivity|].
    split.
    { rewrite (get_field_apply_set_Some _ task "task_status" (VString "DELETED"))
        by reflexivity. reflexivity. }
    split; [reflexivity|]. split; [reflexivity|]. split; [|split].
    + intros tasks. apply (apply_pull_removes (BuildPullTaskFromTestPayload _ taskId)).
    + intros tasks t Hne. apply apply_pull_keeps. exact Hne.
    + intros testId tests Htest Hdistinct.
      apply updateOne_pulled_from; [exact Htest | reflexivity | exact Hdistinct].
  - assert (Hfind : findOne_not_deleted TaskModel taskId = None).
    { unfold findOne_not_deleted. apply find_is_none. intros other Hother.
      destruct (is_the_string (get_field other "_id") taskId) eqn:Hmatch; [|reflexivity].
      apply is_the_string_true in Hmatch.
      rewrite (Huniq other Hother Hmatch), Hstatus. reflexivity. }
    rewrite Hfind. reflexivity.
Qed.

Lemma C7_delete_task_payload_witness :
  (exists payload,
      GetDeleteTaskPayload ValidateObjectId_hex [stored_task "PENDING"] time_1
        task_1 user_1 = Ok payload
      /\ delete_set (dtp_task payload) !! "task_status" = Some (VString "DELETED")
      /\ pull_filter_id (dtp_test payload) = VString test_1
      /\ Engine.apply_pull (dtp_test payload) [task_0; task_1] = [task_0]
      /\ Forall2 (pulled_from test_1 task_1) two_tests
                 (Engine.updateOne (dtp_test payload) two_tests)
      /\ Engine.updateOne (dtp_test payload) two_tests
         = [ {| Engine.test_id := VString test_1; Engine.test_tasks := [task_0] |};
             {| Engine.test_id := VString test_2; Engine.test_tasks := [task_1] |} ])
  /\ GetDeleteTaskPayload ValidateObjectId_hex [stored_task "DELETED"] time_1
       task_1 user_1
     = Throw (delete_failure "Task not found").
Proof.
  assert (Hthe : forall status,
             is_the_task [stored_task status] task_1 (stored_task status)).
  { intros status. split; [left; reflexivity|]. split; [reflexivity|].
    intros other [<-|[]] _. reflexivity. }
  assert (Hdistinct : distinct_tests two_tests).
  { unfold distinct_tests, two_tests. cbn [map Engine.test_id].
    constructor; [intros [H|[]]; discriminate|].
    constructor; [intros [] | constructor]. }
  split.
  - destruct (proj1 (C7_delete_task_payload ValidateObjectId_hex [stored_task "PENDING"]
                       time_1 task_1 user_1 (stored_task "PENDING")
                       eq_refl eq_refl (Hthe "PENDING")) eq_refl)
      as [payload [Hp [_ [Hset [_ [Hfilter [Hpull [_ [_ Htests]]]]]]]]].
    exists payload. split; [exact Hp|]. split; [exact Hset|].
    split; [exact Hfilter|].
    assert (Hpayload : dtp_test payload = BuildPullTaskFromTestPayload (VString test_1) task_1).
    { destruct (dtp_test payload) as [f t]. cbn in Hfilter, Hpull. rewrite Hfilter, Hpull.
      reflexivity. }
    split; [rewrite Hpayload; reflexivity|].
    split; [apply (Htests test_1 two_tests eq_refl Hdistinct)|].
    rewrite Hpayload. reflexivity.
  - apply (proj2 (C7_delete_task_payload ValidateObjectId_hex [stored_task "DELETED"]
                    time_1 task_1 user_1 (stored_task "DELETED")
                    eq_refl eq_refl (Hthe "DELETED"))).
    reflexivity.
Defined.

(** ** The outcome of GetDeleteTaskPayload *)

(** GetDeleteTaskPayload fails in one way only, with an ApolloError of the
    code GET_DELETE_TASK_PAYLOAD_FAILED: an identifier that the validator
    rejects gives the message of the validator after the prefix, and a task
    that is in the collection as DELETED documents only, or not at all,
    gives "Task not found", the inner code TASK_NOT_FOUND being lost.  It
    succeeds exactly when both identifiers are valid and the collection holds
    a document of that identifier whose status is not DELETED; the payload
    then has the test of the first such document as its filter and the task
    as what it pulls, so that, applied to the tests, it takes the task from
    the task list of that test and changes no other test. *)
Theorem GetDeleteTaskPayload_outcome
    (ValidateObjectId : string -> result unit)
    (TaskModel : list (gmap string value)) (now : number) (taskId userId : string) :
  (forall e, GetDeleteTaskPayload ValidateObjectId TaskModel now taskId userId = Throw e ->
             exists message, e = delete_failure message)
  /\ (forall e, ValidateObjectId taskId = Throw e ->
        GetDeleteTaskPayload ValidateObjectId TaskModel now taskId userId
        = Throw (delete_failure (exn_message e)))
  /\ (ValidateObjectId taskId = Ok tt -> ValidateObjectId userId = Ok tt ->
      (forall task, In task TaskModel -> get_field task "_id" = VString taskId ->
                    get_field task "task_status" = VString "DELETED") ->
      GetDeleteTaskPayload ValidateObjectId TaskModel now taskId userId
      = Throw (delete_failure "Task not found"))
  /\ (forall payload,
        GetDeleteTaskPayload ValidateObjectId TaskModel now taskId userId = Ok payload ->
        ValidateObjectId taskId = Ok tt /\ ValidateObjectId userId = Ok tt
        /\ exists before task after,
             TaskModel = (before ++ task :: after)%list
             /\ (forall other, In other before ->
                   get_field other "_id" = VString taskId ->
                   get_field other "task_status" = VString "DELETED")
             /\ get_field task "_id" = VString taskId
             /\ get_field task "task_status" <> VString "DELETED"
             /\ pull_filter_id (dtp_test payload) = get_field task "test"
             /\ pull_tasks (dtp_test payload) = taskId
             /\ delete_filter_ids (dtp_task payload) = [taskId]
             /\ (forall testId tests,
                   get_field task "test" = VString testId -> distinct_tests tests ->
                   Forall2 (pulled_from testId taskId) tests
                           (Engine.updateOne (dtp_test payload) tests))).
Proof.
  unfold GetDeleteTaskPayload, rethrow_delete_failure, delete_failure. unfold_result.
  destruct (ValidateObjectId taskId) as [[]|e1] eqn:H1.
  - destruct (ValidateObjectId userId) as [[]|e2] eqn:H2.
    + destruct (findOne_not_deleted TaskModel taskId) as [task|] eqn:Hfind.
      * split; [discriminate|]. split; [discriminate|]. split.
        { intros _ _ Hall. apply findOne_not_deleted_None in Hall. congruence. }
        intros payload H. injection H as <-. split; [reflexivity|]. split; [reflexivity|].
        pose proof (findOne_not_deleted_Some _ _ _ Hfind) as [_ [Hid Hst]].
        destruct (find_first _ _ _ Hfind) as [before [after [Hsplit Hbefore]]].
        exists before, task, after.
        split; [exact Hsplit|]. split.
        { intros other Hother Hother_id. specialize (Hbefore other Hother).
          cbn beta in Hbefore. apply is_the_string_true in Hother_id.
          rewrite Hother_id in Hbefore. cbn [andb] in Hbefore.
          apply negb_false_iff, is_the_string_true in Hbefore. exact Hbefore. }
        split; [exact Hid|]. split; [exact Hst|].
        split; [reflexivity|]. split; [reflexivity|]. split; [reflexivity|].
        intros testId tests Htest Hdistinct.
        apply updateOne_pulled_from; [exact Htest | reflexivity | exact Hdistinct].
      * split; [intros e H; injection H as <-; eexists; reflexivity|].
        split; [discriminate|]. split; [reflexivity | discriminate].
    + split; [intros e H; injection H as <-; eexists; reflexivity|].
      split; [discriminate|]. split; [discriminate | discriminate].
  - split; [intros e H; injection H as <-; eexists; reflexivity|].
    split; [intros e H; injection H as <-; reflexivity|].
    split; [discriminate | discriminate].
Qed.

Lemma GetDeleteTaskPayload_outcome_witness :
  GetDeleteTaskPayload ValidateObjectId_hex [stored_task "DELETED"] time_1 "not-an-id" user_1
  = Throw (delete_failure "Invalid ID: not-an-id")
  /\ GetDeleteTaskPayload ValidateObjectId_hex [] time_1 task_1 user_1
     = Throw (delete_failure "Task not found").
Proof.
  destruct (GetDeleteTaskPayload_outcome ValidateObjectId_hex [stored_task "DELETED"]
              time_1 "not-an-id" user_1) as [_ [Hid _]].
  destruct (GetDeleteTaskPayload_outcome ValidateObjectId_hex []
              time_1 task_1 user_1) as [_ [_ [Hnone _]]].
  split.
  - apply (Hid (BAD_USER_INPUT "Invalid ID: not-an-id")). reflexivity.
  - apply Hnone; [reflexivity | reflexivity | intros task []].
Defined.

(** ** Examples of task payloads *)

Section TaskExamples.

#[local] Existing Instance latin_case.

Lemma C8_update_payload_fields_witness :
  GetUpdateTaskPayload accept_object ValidateObjectId_hex ValidateTaskInput_schema
    (title_update "Marks entered") user_2 = Ok retitle_update
  /\ retitle_update !! "title" = Some (VString "Marks entered")
  /\ retitle_update !! "updated_by" = Some (VString user_2)
  /\ (is_Some (retitle_update !! "task_status")
      <-> not_nullish (TaskInput.task_status (title_update "Marks entered")) = true).
Proof.
  split; [reflexivity|].
  destruct (C8_update_payload_fields accept_object ValidateObjectId_hex
              ValidateTaskInput_schema (title_update "Marks entered") user_2
              retitle_update eq_refl) as [_ [Hby [Hvalues [Hstatus _]]]].
  split; [|split; [exact Hby | exact Hstatus]].
  apply (Hvalues "title" (VString "Marks entered")); [|reflexivity].
  right. left. reflexivity.
Defined.

(** C5, counterexample: a task is created and then updated with the
    task_status COMPLETED; the update payload carries the status and
    updated_by only, so the task is COMPLETED while completed_by and
    completed_at are unset. *)
Lemma C5_update_to_completed_counterexample :
  ~ (forall task,
        reachable accept_object ValidateObjectId_hex ValidateTaskInput_schema task ->
        completion_invariant task).
Proof.
  intros H.
  destruct (H (Engine.apply_set status_completed_update (Engine.create created_task)))
    as [_ Hinv].
  - apply (reach_update _ _ _ _ (status_update (str "COMPLETED")) user_2).
    + apply (reach_create _ _ _ new_task_input user_1). reflexivity.
    + reflexivity.
  - assert (Hunset : Engine.is_set
                       (Engine.apply_set status_completed_update (Engine.create created_task))
                       "completed_by" = false) by reflexivity.
    destruct (Hinv eq_refl) as [Hset _]. congruence.
Qed.

(** A task is created, taken in progress by an update whose status is
    written in lower case, completed, and given another title: the
    invariant holds after each step. *)
Lemma C5_completion_fields_iff_completed_witness :
  completion_invariant
    (Engine.apply_set status_in_progress_update (Engine.create created_task))
  /\ Engine.has_status
       (Engine.apply_set status_in_progress_update (Engine.create created_task))
       "IN_PROGRESS" = true
  /\ completion_invariant
       (Engine.apply_set retitle_update
          (Engine.apply_set completion_update
             (Engine.apply_set status_in_progress_update (Engine.create created_task))))
  /\ Engine.has_status
       (Engine.apply_set retitle_update
          (Engine.apply_set completion_update
             (Engine.apply_set status_in_progress_update (Engine.create created_task))))
       "COMPLETED" = true.
Proof.
  assert (Hprogress :
            reachable_keeping_completion accept_object ValidateObjectId_hex
              ValidateTaskInput_schema
              (Engine.apply_set status_in_progress_update (Engine.create created_task))).
  { apply (keep_update _ _ _ _ (status_update (str "in_progress")) user_2).
    - apply (keep_create _ _ _ new_task_input user_1). reflexivity.
    - right. exists "in_progress". split; reflexivity.
    - reflexivity. }
  split; [|split; [reflexivity|split; [|reflexivity]]].
  - exact (proj1 (C5_completion_fields_iff_completed accept_object ValidateObjectId_hex
                    ValidateTaskInput_schema _ Hprogress)).
  - refine (proj1 (C5_completion_fields_iff_completed accept_object ValidateObjectId_hex
                     ValidateTaskInput_schema _ _)).
    apply (keep_update _ _ _ _ (title_update "Marks entered") user_2).
    + apply (keep_complete _ _ _ _ time_1 user_2); [exact Hprogress | reflexivity].
    + left. reflexivity.
    + reflexivity.
Defined.

Lemma GetCreateTaskPayload_outcome_witness :
  created_task !! "task_status" = Some (VString "PENDING")
  /\ exists message,
       GetCreateTaskPayload accept_object ValidateObjectId_hex ValidateTaskInput_schema
         (status_update (str "COMPLETED")) user_1 = Throw (TypeError message).
Proof.
  destruct (GetCreateTaskPayload_outcome accept_object ValidateObjectId_hex
              ValidateTaskInput_schema new_task_input user_1) as [Hok _].
  destruct (GetCreateTaskPayload_outcome accept_object ValidateObjectId_hex
              ValidateTaskInput_schema (status_update (str "COMPLETED")) user_1)
    as [_ Hthrow].
  split.
  - apply (Hok created_task eq_refl).
  - apply Hthrow; try reflexivity. intros s. discriminate.
Defined.

End TaskExamples.

(** ** The notations that the criteria are validated against *)

Lemma is_nonblank_string_iff v : is_nonblank_string v = true <-> nonblank_string v.
Proof.
  unfold is_nonblank_string, nonblank_string. destruct v as [| |b|x|s|l|fs];
    try (split; [discriminate | intros [s0 [H _]]; discriminate]).
  rewrite negb_true_iff. split.
  - intros H. exists s. split; [reflexivity|]. intros E. rewrite E in H. discriminate.
  - intros [s0 [H0 H1]]. injection H0 as ->.
    destruct (String.eqb_spec (trim s0) ""); [contradiction | reflexivity].
Qed.

Lemma trim_empty_of_empty : trim "" = "".
Proof. reflexivity. Qed.

Lemma nonblank_string_truthy v : nonblank_string v -> truthy v = true.
Proof.
  intros [s [-> Hs]]. cbn [truthy]. destruct (String.eqb_spec s "") as [->|]; [|reflexivity].
  contradiction Hs. reflexivity.
Qed.

Lemma is_weight_iff v : is_weight v = true <-> number_in_unit_interval v.
Proof.
  unfold is_weight, number_in_unit_interval. destruct v as [| |b|x|s|l|fs];
    try (split; [discriminate | intros [x0 [H _]]; discriminate]).
  rewrite !andb_true_iff, negb_true_iff. split.
  - intros [[_ H1] H2]. exists x. repeat split; assumption.
  - intros [x0 [H0 [H1 H2]]]. injection H0 as ->.
    repeat split; [apply ge_zero_not_NaN|..]; assumption.
Qed.

Lemma check_notation_object n i : check_notation (IsObject n) i = Ok tt <-> notation_valid n.
Proof.
  unfold check_notation, destructuring, notation_valid, nonnegative_number. unfold_result.
  rewrite <- is_nonblank_string_iff.
  destruct (is_nonblank_string (Notation.notation_text n)) eqn:Hn.
  - apply is_nonblank_string_iff, nonblank_string_truthy in Hn as Ht. rewrite Ht.
    cbn [negb orb]. destruct (Notation.max_points n) as [| |b|x|s|l|fs];
      try (split; [discriminate | intros [_ [x0 [H _]]]; discriminate]).
    destruct (isNaN x) eqn:Hnan; cbn [orb].
    + split; [discriminate|]. intros [_ [x0 [H0 H1]]]. injection H0 as ->.
      apply ge_zero_not_NaN in H1. congruence.
    + assert (Hx : x <> S754_nan) by (intros ->; discriminate).
      destruct (lt x zero) eqn:Hlt.
      * split; [discriminate|]. intros [_ [x0 [H0 H1]]]. injection H0 as ->.
        apply ge_zero_lt_false in H1. congruence.
      * split; [|reflexivity]. intros _. split; [reflexivity|].
        exists x. split; [reflexivity|]. apply (ge_zero_not_lt x Hx). exact Hlt.
  - rewrite orb_true_r. split; [discriminate | intros [H _]; discriminate].
Qed.

Lemma check_notation_Ok x i : check_notation x i = Ok tt <-> valid_notation x.
Proof.
  unfold valid_notation. destruct x as [| |n].
  - split; [discriminate | intros [n [H _]]; discriminate].
  - split; [discriminate | intros [n [H _]]; discriminate].
  - rewrite check_notation_object. split.
    + intros H. exists n. split; [reflexivity | exact H].
    + intros [n' [E H]]. injection E as ->. exact H.
Qed.

(** What the check of one notation throws: the TypeError of taking apart an
    element that is null or undefined, the error of the text when the text
    is not a non-blank string, and otherwise the error of the points. *)
Lemma check_notation_Throw x i e :
  check_notation x i = Throw e ->
  ~ valid_notation x
  /\ ((exists what, nullish_name x = Some what
                    /\ e = destructuring_error what "notation_text" "notation")
      \/ exists n, x = IsObject n
           /\ (~ nonblank_string (Notation.notation_text n) -> e = notation_text_error i)
           /\ (nonblank_string (Notation.notation_text n) ->
               e = max_points_error i /\ ~ nonnegative_number (Notation.max_points n))).
Proof.
  intros H. split.
  { intros Hv. apply (check_notation_Ok x i) in Hv. congruence. }
  destruct x as [| |n].
  - left. exists "null". split; [reflexivity|]. injection H as <-. reflexivity.
  - left. exists "undefined". split; [reflexivity|]. injection H as <-. reflexivity.
  - right. exists n. split; [reflexivity|].
    pose proof (check_notation_object n i) as Hvalid.
    unfold check_notation, destructuring in H. unfold_result.
    rewrite <- is_nonblank_string_iff.
    destruct (is_nonblank_string (Notation.notation_text n)) eqn:Htext.
    + apply is_nonblank_string_iff in Htext as Hnonblank.
      rewrite (nonblank_string_truthy _ Hnonblank) in H. cbn [negb orb] in H.
      split; [intros Hn; exfalso; apply Hn; reflexivity|]. intros _.
      destruct (match Notation.max_points n with
                | VNumber x => isNaN x || lt x zero
                | _ => true
                end) eqn:Hpoints; [|discriminate].
      injection H as <-. split; [reflexivity|].
      intros Hpts. assert (Hv : notation_valid n) by (split; assumption).
      apply Hvalid in Hv. unfold check_notation, destructuring in Hv. unfold_result.
      rewrite (nonblank_string_truthy _ Hnonblank), Htext in Hv. cbn [negb orb] in Hv.
      rewrite Hpoints in Hv. discriminate.
    + rewrite orb_true_r in H. injection H as <-.
      split; [intros _; reflexivity | intros Hn; discriminate].
Qed.

Section TestInputValidator.

Context {SC : StringCase}.

Lemma check_rule_Ok testInput isUpdate r :
  check_rule testInput isUpdate r = Ok tt <-> rule_passes testInput isUpdate r = true.
Proof.
  unfold check_rule, rule_passes, rule_applies, throw_if.
  destruct ((negb isUpdate && rule_required r) || is_defined _); cbn [implb].
  - destruct (rule_validate r _); cbn [negb]; settle.
  - settle.
Qed.

Lemma check_rule_Throw testInput isUpdate r e :
  check_rule testInput isUpdate r = Throw e
  <-> rule_passes testInput isUpdate r = false /\ e = rule_error r.
Proof.
  unfold check_rule, rule_passes, rule_applies, throw_if, rule_error.
  destruct ((negb isUpdate && rule_required r) || is_defined _); cbn [implb].
  - destruct (rule_validate r _); cbn [negb]; split.
    + discriminate.
    + intros [H _]. discriminate.
    + intros H. injection H as <-. split; reflexivity.
    + intros [_ ->]. reflexivity.
  - split; [discriminate | intros [H _]; discriminate].
Qed.

Lemma rules_Ok testInput isUpdate :
  forEach validationRules (fun r _ => check_rule testInput isUpdate r) = Ok tt
  <-> forall r, In r validationRules -> rule_passes testInput isUpdate r = true.
Proof.
  unfold forEach. rewrite forEach_from_Ok. split.
  - intros H r Hr. apply list_elem_of_In, list_elem_of_lookup in Hr. destruct Hr as [k Hk].
    apply check_rule_Ok. apply (H k r Hk).
  - intros H k r Hk. apply check_rule_Ok, H, list_elem_of_In, list_elem_of_lookup.
    exists k. exact Hk.
Qed.

Lemma check_notations_Ok testInput isUpdate :
  check_notations testInput isUpdate = Ok tt
  <-> (isUpdate = true /\ TestInput.notations testInput = NotArray VUndefined)
      \/ exists x xs, TestInput.notations testInput = IsArray (x :: xs)
                      /\ Forall valid_notation (x :: xs).
Proof.
  unfold check_notations.
  destruct (TestInput.notations testInput) as [v|[|x xs]].
  - destruct isUpdate; cbn [negb orb array_is_defined].
    + destruct v; cbn [is_defined]; split; try discriminate; auto;
        intros [[_ H]|[y [ys [H _]]]]; discriminate.
    + split; [discriminate|]. intros [[H _]|[y [ys [H _]]]]; discriminate.
  - cbn [array_is_defined]. rewrite orb_true_r.
    split; [discriminate|]. intros [[_ H]|[y [ys [H _]]]]; discriminate.
  - cbn [array_is_defined]. rewrite orb_true_r. unfold forEach. rewrite forEach_from_Ok.
    split.
    + intros H. right. exists x, xs. split; [reflexivity|].
      apply Forall_forall. intros y Hy. apply list_elem_of_lookup in Hy. destruct Hy as [k Hk].
      apply (check_notation_Ok y (0 + k)), H. exact Hk.
    + intros [[_ H]|[x' [xs' [H Hall]]]]; [discriminate|]. injection H as <- <-.
      intros k y Hk. apply check_notation_Ok.
      rewrite Forall_forall in Hall. apply Hall, list_elem_of_lookup. exists k. exact Hk.
Qed.

(** Notations that are all valid are all objects. *)
Lemma valid_notations_objects l :
  Forall valid_notation l -> exists ns, l = objects ns /\ Forall notation_valid ns.
Proof.
  induction 1 as [|x l [n [-> Hn]] _ [ns [-> Hns]]].
  - exists []. split; [reflexivity | constructor].
  - exists (n :: ns). split; [reflexivity | constructor; assumption].
Qed.

Section Stages.

Variable ObjectId_isValid : string -> bool.

Lemma ValidateTestInput_stages testInput evaluationType existingNotations isUpdate :
  ValidateTestInput ObjectId_isValid testInput evaluationType existingNotations isUpdate
  = (checks_before_criteria ObjectId_isValid testInput evaluationType isUpdate ;;
     check_passing_criteria testInput existingNotations).
Proof.
  unfold ValidateTestInput, checks_before_criteria. unfold_result.
  destruct (forEach validationRules _) as [[]|?]; [|reflexivity].
  destruct (check_notations testInput isUpdate) as [[]|?]; [|reflexivity].
  destruct (check_retake ObjectId_isValid testInput) as [[]|?]; [|reflexivity].
  destruct (check_test_type testInput evaluationType) as [[]|?]; reflexivity.
Qed.

Lemma checks_before_criteria_notations testInput evaluationType isUpdate :
  checks_before_criteria ObjectId_isValid testInput evaluationType isUpdate = Ok tt ->
  (exists n ns, TestInput.notations testInput = IsArray (n :: ns))
  \/ (TestInput.notations testInput = NotArray VUndefined /\ isUpdate = true).
Proof.
  unfold checks_before_criteria. unfold_result.
  destruct (forEach validationRules _) as [[]|?]; [|discriminate].
  destruct (check_notations testInput isUpdate) as [[]|?] eqn:Hn; [|discriminate].
  intros _. unfold check_notations in Hn.
  destruct (TestInput.notations testInput) as [v|[|n ns]].
  - right. destruct isUpdate; [|discriminate]. cbn [negb orb array_is_defined] in Hn.
    destruct v; try discriminate. split; reflexivity.
  - cbn [array_is_defined] in Hn. rewrite orb_true_r in Hn. discriminate.
  - left. eexists _, _. reflexivity.
Qed.

Lemma ValidateTestInput_Ok testInput evaluationType existingNotations isUpdate :
  ValidateTestInput ObjectId_isValid testInput evaluationType existingNotations isUpdate
  = Ok tt
  <-> forEach validationRules (fun r _ => check_rule testInput isUpdate r) = Ok tt
      /\ check_notations testInput isUpdate = Ok tt
      /\ check_retake ObjectId_isValid testInput = Ok tt
      /\ check_test_type testInput evaluationType = Ok tt
      /\ check_passing_criteria testInput existingNotations = Ok tt.
Proof.
  unfold ValidateTestInput. unfold_result.
  destruct (forEach validationRules _) as [[]|?];
    [|split; [discriminate | intros [H _]; discriminate]].
  destruct (check_notations testInput isUpdate) as [[]|?];
    [|split; [discriminate | intros [_ [H _]]; discriminate]].
  destruct (check_retake ObjectId_isValid testInput) as [[]|?];
    [|split; [discriminate | intros [_ [_ [H _]]]; discriminate]].
  destruct (check_test_type testInput evaluationType) as [[]|?];
    [|split; [discriminate | intros [_ [_ [_ [H _]]]]; discriminate]].
  split; [intros H; repeat split; exact H | intros [_ [_ [_ [_ H]]]]; exact H].
Qed.

Lemma ValidateTestInput_rule_error testInput evaluationType existingNotations isUpdate e :
  forEach validationRules (fun r _ => check_rule testInput isUpdate r) = Throw e ->
  ValidateTestInput ObjectId_isValid testInput evaluationType existingNotations isUpdate
  = Throw e.
Proof. unfold ValidateTestInput. unfold_result. intros ->. reflexivity. Qed.

End Stages.

(** C9: when the input carries passing criteria and passes the checks that
    come before them, the criteria are validated against the notations
    submitted in the input when there are any (they are then a non-empty
    array), and otherwise, which happens on an update only, against the
    existing notations of the test when these are a non-empty array; when
    they are not, the input is rejected with the BAD_USER_INPUT error that no
    notations are available. *)
Theorem C9_criteria_notations_source
    (ObjectId_isValid : string -> bool)
    (testInput : TestInput.t) (evaluationType : string)
    (existingNotations : maybe_array (nullable Notation.t)) (isUpdate : bool)
    (criteria : TestPassingCriteria.t)
    (Hcriteria : TestInput.test_passing_criteria testInput = Some criteria)
    (Hbefore : checks_before_criteria ObjectId_isValid testInput evaluationType isUpdate
               = Ok tt) :
  (forall submitted, TestInput.notations testInput = IsArray submitted ->
      submitted <> []
      /\ ValidateTestInput ObjectId_isValid testInput evaluationType existingNotations isUpdate
         = validateTestPassingCriteriaInput criteria submitted)
  /\ (forall v, TestInput.notations testInput = NotArray v ->
        isUpdate = true
        /\ (forall existing, existingNotations = IsArray existing -> existing <> [] ->
              ValidateTestInput ObjectId_isValid testInput evaluationType existingNotations
                isUpdate
              = validateTestPassingCriteriaInput criteria existing)
        /\ ((forall n ns, existingNotations <> IsArray (n :: ns)) ->
              ValidateTestInput ObjectId_isValid testInput evaluationType existingNotations
                isUpdate
              = Throw no_notations_error))
  /\ no_notations_error
     = ApolloError
         "Cannot validate 'test_passing_criteria' because no notations are available for this test."
         "BAD_USER_INPUT" [].
Proof.
  pose proof (checks_before_criteria_notations _ _ _ _ Hbefore) as Hnot.
  rewrite !ValidateTestInput_stages, Hbefore.
  unfold check_passing_criteria, notationsSource. unfold_result. rewrite Hcriteria.
  split; [|split; [|reflexivity]].
  - intros submitted Hs. rewrite Hs in *.
    destruct Hnot as [[n [ns Hn]]|[Hn _]]; [|discriminate].
    injection Hn as ->. split; [discriminate | reflexivity].
  - intros v Hv. rewrite Hv in *.
    destruct Hnot as [[n [ns Hn]]|[Hn Hup]]; [discriminate|].
    injection Hn as ->. split; [exact Hup|]. cbn [array_truthy truthy]. split.
    + intros existing -> Hne. destruct existing; [contradiction | reflexivity].
    + intros Hnone. destruct existingNotations as [w|[|n ns]]; try reflexivity.
      exfalso. apply (Hnone n ns). reflexivity.
Qed.

(** * Further properties of the validators and of the task helper *)

(** ** The filter on the status of a test *)

(** The status filter accepts exactly the values that are falsy and the
    strings whose upper case is ACTIVE or INACTIVE, and rejects every other
    value with the one error of the field test_status.  The empty string,
    null, false, zero and NaN are therefore accepted by the filter, while
    the rule on test_status of ValidateTestInput accepts none of them. *)
Theorem ValidateTestStatusFilter_accepts (test_status : value) :
  (ValidateTestStatusFilter test_status = Ok tt
   <-> truthy test_status = false \/ in_enum validStatus test_status)
  /\ (forall e, ValidateTestStatusFilter test_status = Throw e ->
                e = test_status_filter_error)
  /\ (truthy test_status = false -> is_string_in validStatus test_status = false).
Proof.
  unfold ValidateTestStatusFilter, not_string_in, throw_if.
  rewrite <- is_string_in_enum. unfold is_string_in.
  destruct test_status as [| |b|x|s|l|fs]; cbn [truthy negb].
  - repeat split; auto; discriminate.
  - repeat split; auto; discriminate.
  - destruct b; cbn [negb]; repeat split; auto; try discriminate;
      try (intros [H|H]; discriminate); congruence.
  - destruct x as [z|z| |z m e']; cbn [negb]; repeat split; auto; try discriminate;
      try (intros [H|H]; discriminate); congruence.
  - destruct (String.eqb_spec s "") as [->|Hs]; cbn [negb].
    + rewrite toUpperCase_empty. repeat split; auto; discriminate.
    + destruct (includes validStatus (toUpperCase s)); cbn [negb];
        repeat split; auto; try discriminate; try (intros [H|H]; discriminate); congruence.
  - repeat split; auto; try discriminate; try (intros [H|H]; discriminate); congruence.
  - repeat split; auto; try discriminate; try (intros [H|H]; discriminate); congruence.
Qed.

(** ** The rules and the notations of ValidateTestInput *)

(** The error of ValidateTestInput is that of the first rule of the table
    that fails: when the rule at position [k] fails and every rule before it
    passes, the input is rejected with the message and the field of that
    rule, whatever the rest of the input holds. *)
Theorem ValidateTestInput_first_failing_rule
    (ObjectId_isValid : string -> bool)
    (testInput : TestInput.t) (evaluationType : string)
    (existingNotations : maybe_array (nullable Notation.t)) (isUpdate : bool)
    (k : nat) (r : rule)
    (Hrule : validationRules !! k = Some r)
    (Hfails : rule_passes testInput isUpdate r = false)
    (Hbefore : forall j r', j < k -> validationRules !! j = Some r' ->
                            rule_passes testInput isUpdate r' = true) :
  ValidateTestInput ObjectId_isValid testInput evaluationType existingNotations isUpdate
  = Throw (field_error (rule_message r) (rule_field r)).
Proof.
  apply ValidateTestInput_rule_error. unfold forEach. apply forEach_from_Throw.
  exists k, r. split; [exact Hrule|]. split.
  - apply check_rule_Throw. split; [exact Hfails | reflexivity].
  - intros j r' Hj Hr'. apply check_rule_Ok. apply (Hbefore j r' Hj Hr').
Qed.

(** A rule field that holds null is never accepted, on a creation as on an
    update: the input is rejected with the error of a rule of the table. *)
Theorem ValidateTestInput_rejects_null
    (ObjectId_isValid : string -> bool)
    (testInput : TestInput.t) (evaluationType : string)
    (existingNotations : maybe_array (nullable Notation.t)) (isUpdate : bool)
    (field : string)
    (Hfield : In field rule_fields)
    (Hnull : TestInput.get testInput field = VNull) :
  exists r, In r validationRules
            /\ ValidateTestInput ObjectId_isValid testInput evaluationType
                 existingNotations isUpdate = Throw (rule_error r).
Proof.
  destruct (forEach validationRules (fun r _ => check_rule testInput isUpdate r))
    as [[]|e] eqn:Hrules.
  - exfalso. rewrite rules_Ok in Hrules.
    unfold rule_fields in Hfield. apply in_map_iff in Hfield.
    destruct Hfield as [r [Hr Hin]]. specialize (Hrules r Hin).
    unfold rule_passes, rule_applies in Hrules. rewrite Hr, Hnull in Hrules.
    cbn [is_defined] in Hrules. rewrite orb_true_r in Hrules. cbn [implb] in Hrules.
    simpl in Hin.
    destruct Hin as [<-|[<-|[<-|[<-|[<-|[<-|[<-|[<-|[]]]]]]]]]; discriminate.
  - pose proof Hrules as Hthrow. unfold forEach in Hthrow.
    apply forEach_from_Throw in Hthrow. destruct Hthrow as [k [r [Hk [Hr _]]]].
    apply check_rule_Throw in Hr. destruct Hr as [_ ->].
    exists r. split; [apply list_elem_of_In, list_elem_of_lookup; exists k; exact Hk|].
    apply ValidateTestInput_rule_error. exact Hrules.
Qed.

(** A creation that ValidateTestInput accepts has a non-blank name and
    description, a test type, a result visibility and a correction type of
    their enums, a weight between 0 and 1, a boolean is_retake, a test
    status of its enum when it has one, a non-empty array of notations each
    an object with a non-blank text and at least zero points and, when
    is_retake is true, a connected test with a valid identifier. *)
Theorem ValidateTestInput_accepted_creation
    (ObjectId_isValid : string -> bool)
    (testInput : TestInput.t) (evaluationType : string)
    (existingNotations : maybe_array (nullable Notation.t))
    (Haccepted : ValidateTestInput ObjectId_isValid testInput evaluationType
                   existingNotations false = Ok tt) :
  nonblank_string (TestInput.name testInput)
  /\ nonblank_string (TestInput.description testInput)
  /\ in_enum validTestType (TestInput.test_type testInput)
  /\ in_enum validResultVisibility (TestInput.result_visibility testInput)
  /\ number_in_unit_interval (TestInput.weight testInput)
  /\ in_enum validCorrectionType (TestInput.correction_type testInput)
  /\ (exists b, TestInput.is_retake testInput = VBool b)
  /\ (TestInput.test_status testInput = VUndefined
      \/ in_enum validStatus (TestInput.test_status testInput))
  /\ (exists x xs, TestInput.notations testInput = IsArray (x :: xs)
                   /\ Forall valid_notation (x :: xs))
  /\ (TestInput.is_retake testInput = VBool true ->
      exists id, TestInput.connected_test testInput = Some id /\ id <> ""
                 /\ ObjectId_isValid id = true).
Proof.
  apply ValidateTestInput_Ok in Haccepted.
  destruct Haccepted as [Hrules [Hnotations [Hretake _]]].
  rewrite rules_Ok in Hrules.
  assert (Hrule : forall r, In r validationRules -> rule_required r = true ->
                    rule_validate r (TestInput.get testInput (rule_field r)) = true).
  { intros r Hin Hreq. specialize (Hrules r Hin).
    unfold rule_passes, rule_applies in Hrules. rewrite Hreq in Hrules. exact Hrules. }
  pose proof (Hrule _ ltac:(left; reflexivity) eq_refl
              : is_nonblank_string (TestInput.name testInput) = true) as H1.
  pose proof (Hrule _ ltac:(right; left; reflexivity) eq_refl
              : is_nonblank_string (TestInput.description testInput) = true) as H2.
  pose proof (Hrule _ ltac:(do 2 right; left; reflexivity) eq_refl
              : is_string_in validTestType (TestInput.test_type testInput) = true) as H3.
  pose proof (Hrule _ ltac:(do 3 right; left; reflexivity) eq_refl
              : is_string_in validResultVisibility (TestInput.result_visibility testInput)
                = true) as H4.
  pose proof (Hrule _ ltac:(do 4 right; left; reflexivity) eq_refl
              : is_weight (TestInput.weight testInput) = true) as H5.
  pose proof (Hrule _ ltac:(do 5 right; left; reflexivity) eq_refl
              : is_string_in validCorrectionType (TestInput.correction_type testInput)
                = true) as H6.
  pose proof (Hrule _ ltac:(do 6 right; left; reflexivity) eq_refl
              : is_boolean (TestInput.is_retake testInput) = true) as H7.
  pose proof (Hrules _ ltac:(do 7 right; left; reflexivity)) as H8.
  unfold rule_passes, rule_applies in H8.
  cbn [rule_field rule_required rule_validate negb andb orb] in H8.
  change (TestInput.get testInput "test_status") with (TestInput.test_status testInput) in H8.
  split; [apply is_nonblank_string_iff; exact H1|].
  split; [apply is_nonblank_string_iff; exact H2|].
  split; [apply is_string_in_enum; exact H3|].
  split; [apply is_string_in_enum; exact H4|].
  split; [apply is_weight_iff; exact H5|].
  split; [apply is_string_in_enum; exact H6|].
  split; [destruct (TestInput.is_retake testInput); try discriminate; eexists; reflexivity|].
  split.
  { destruct (TestInput.test_status testInput) eqn:Hs; cbn [is_defined implb] in H8;
      try (left; reflexivity); right; apply is_string_in_enum; exact H8. }
  split.
  { apply check_notations_Ok in Hnotations.
    destruct Hnotations as [[H _]|H]; [discriminate | exact H]. }
  intros Hre. unfold check_retake in Hretake. rewrite Hre in Hretake.
  cbn [truthy] in Hretake.
  destruct (TestInput.connected_test testInput) as [id|]; [|discriminate].
  destruct id as [|c id]; [discriminate|].
  exists (String c id). split; [reflexivity|]. split; [discriminate|].
  unfold throw_if in Hretake.
  destruct (ObjectId_isValid (String c id)); [reflexivity | discriminate].
Qed.

(** ** The test type and the evaluation type of the block *)

Lemma in_enum_not_empty valid s :
  In (toUpperCase s) valid -> ~ In "" valid -> s <> "".
Proof. intros Hin Hno ->. rewrite toUpperCase_empty in Hin. contradiction. Qed.

Lemma validTestType_not_empty : ~ In "" validTestType.
Proof. simpl. intros H. repeat (destruct H as [H|H]; [discriminate|]). exact H. Qed.

(** For a test type that passed its rule, the check against the evaluation
    type of the block rejects in one case only: the block is evaluated by
    COMPETENCY and the type is MEMOIRE_ORAL or MEMMOIRE_ORAL_NON_JURY.  A
    block evaluated by SCORE, or by anything else, accepts every type. *)
Theorem check_test_type_rejects_oral_memoire_of_competency
    (testInput : TestInput.t) (evaluationType : string) (s : string)
    (Htype : TestInput.test_type testInput = VString s)
    (Hvalid : In (toUpperCase s) validTestType) :
  check_test_type testInput evaluationType = Ok tt
  <-> ~ (evaluationType = "COMPETENCY"
         /\ (toUpperCase s = "MEMMOIRE_ORAL_NON_JURY" \/ toUpperCase s = "MEMOIRE_ORAL")).
Proof.
  unfold check_test_type. rewrite Htype.
  assert (Htruthy : truthy (VString s) = true).
  { cbn [truthy]. destruct (String.eqb_spec s "") as [E|_]; [|reflexivity].
    contradiction (in_enum_not_empty _ _ Hvalid validTestType_not_empty). }
  rewrite Htruthy. cbn [call_toUpperCase]. unfold_result.
  destruct (String.eqb_spec evaluationType "COMPETENCY") as [->|Hc].
  - change (String.eqb "COMPETENCY" "SCORE") with false. cbn [andb orb].
    simpl in Hvalid.
    destruct Hvalid as [H|[H|[H|[H|[H|[H|[H|[]]]]]]]]; rewrite <- H;
      match goal with
      | |- context [includes ?l ?x] =>
          let r := eval vm_compute in (includes l x) in change (includes l x) with r
      end;
      cbn [negb andb orb throw_if];
      first [ split; [intros _ [_ [E|E]]; discriminate | reflexivity]
            | split; [discriminate | intros Hn; exfalso; apply Hn; auto] ].
  - cbn [andb orb].
    assert (Hscore : includes scoreTestTypes (toUpperCase s) = true)
      by (apply includes_In; exact Hvalid).
    rewrite Hscore. cbn [negb]. rewrite andb_false_r. cbn.
    split; [|reflexivity]. intros _ [E _]. contradiction.
Qed.

(** ** The criteria and the notations of one input *)

Lemma branch_accepted_conditions set b x :
  branch_accepted set b = true ->
  In x (flat_map conditions_of_group (groups_of_branch b)) ->
  object_and (condition_accepted set) x = true.
Proof.
  destruct b as [b|]; simpl; [|intros _ []].
  unfold groups_accepted. destruct (Branch.test_criteria_groups b) as [v|[|g gs]];
    try discriminate.
  intros Hall Hx. rewrite forallb_forall in Hall.
  apply in_flat_map in Hx. destruct Hx as [g' [Hg' Hx]].
  specialize (Hall g' Hg'). apply object_and_true in Hall.
  destruct Hall as [g0 [-> Hg0]].
  unfold group_accepted in Hg0. cbn [conditions_of_group] in Hx.
  destruct (Group.conditions g0) as [v|[|c' cs]]; try discriminate.
  rewrite forallb_forall in Hg0. apply Hg0. exact Hx.
Qed.

(** In accepted criteria every condition is an object that is accepted
    under the texts of the notations, which are all objects. *)
Lemma accepted_conditions crit l x :
  validateTestPassingCriteriaInput crit l = Ok tt ->
  In x (conditions_of crit) ->
  exists ns c, l = objects ns /\ x = IsObject c
               /\ condition_accepted (notation_texts ns) c = true.
Proof.
  intros Hok Hx.
  destruct (validateTestPassingCriteriaInput_objects _ _ Hok) as [ns ->].
  apply validateTestPassingCriteriaInput_accepts in Hok.
  rewrite !andb_true_iff in Hok. destruct Hok as [[_ Hp] Hf].
  unfold conditions_of in Hx. rewrite flat_map_app in Hx. apply in_app_or in Hx.
  assert (Hacc : object_and (condition_accepted (notation_texts ns)) x = true).
  { destruct Hx as [Hx|Hx];
      [apply (branch_accepted_conditions _ _ x Hp Hx)
      |apply (branch_accepted_conditions _ _ x Hf Hx)]. }
  apply object_and_true in Hacc. destruct Hacc as [c [-> Hc]].
  exists ns, c. repeat split. exact Hc.
Qed.

Lemma accepted_mark_condition_names set c :
  condition_accepted set c = true -> is_MARK_condition c ->
  exists t, Condition.notation_text c = VString t /\ trim t <> "" /\ In (VString t) set.
Proof.
  intros Hacc HM. apply is_MARK_iff in HM. unfold condition_accepted in Hacc.
  rewrite HM in Hacc. rewrite !andb_true_iff in Hacc. destruct Hacc as [_ Hn].
  apply notation_accepted_iff in Hn. destruct Hn as [[t [Ht Hb]] [t' [Ht' Hin]]].
  exists t. split; [exact Ht|]. split; [exact Hb|]. congruence.
Qed.

Lemma In_objects {A} (a : A) (l : list A) : In a l <-> In (IsObject a) (objects l).
Proof.
  unfold objects. rewrite in_map_iff. split.
  - intros H. exists a. split; [reflexivity | exact H].
  - intros [a' [E H]]. injection E as ->. exact H.
Qed.

(** In an input that ValidateTestInput accepts, every condition of the
    passing criteria is an object, and every MARK condition names a notation
    of the source the criteria were validated against: a notation submitted
    in the same input, which then has a non-blank text and at least zero
    points, or, when the input submits no notations, an existing notation
    of the test. *)
Theorem ValidateTestInput_mark_conditions_name_notations
    (ObjectId_isValid : string -> bool)
    (testInput : TestInput.t) (evaluationType : string)
    (existingNotations : maybe_array (nullable Notation.t)) (isUpdate : bool)
    (criteria : TestPassingCriteria.t)
    (Haccepted : ValidateTestInput ObjectId_isValid testInput evaluationType
                   existingNotations isUpdate = Ok tt)
    (Hcriteria : TestInput.test_passing_criteria testInput = Some criteria) :
  (forall x, In x (conditions_of criteria) -> exists c, x = IsObject c)
  /\ forall c, In (IsObject c) (conditions_of criteria) -> is_MARK_condition c ->
       (forall submitted, TestInput.notations testInput = IsArray submitted ->
          exists n, In (IsObject n) submitted
                    /\ Notation.notation_text n = Condition.notation_text c
                    /\ notation_valid n)
       /\ (forall v, TestInput.notations testInput = NotArray v ->
             exists existing n, existingNotations = IsArray existing
                                /\ In (IsObject n) existing
                                /\ Notation.notation_text n = Condition.notation_text c).
Proof.
  apply ValidateTestInput_Ok in Haccepted.
  destruct Haccepted as [_ [Hnotations [_ [_ Hcrit]]]].
  unfold check_passing_criteria, notationsSource in Hcrit. rewrite Hcriteria in Hcrit.
  apply check_notations_Ok in Hnotations.
  assert (Hsource : exists source,
             validateTestPassingCriteriaInput criteria source = Ok tt
             /\ (forall submitted, TestInput.notations testInput = IsArray submitted ->
                                   source = submitted /\ Forall valid_notation submitted)
             /\ (forall v, TestInput.notations testInput = NotArray v ->
                           existingNotations = IsArray source)).
  { destruct (TestInput.notations testInput) as [v|submitted] eqn:Hs.
    - destruct Hnotations as [[_ H]|[n [ns [H _]]]]; [|discriminate].
      injection H as ->. cbn [array_truthy truthy] in Hcrit.
      destruct existingNotations as [w|[|n ns]]; try discriminate.
      exists (n :: ns). split; [exact Hcrit|]. split; [discriminate|].
      intros v _. reflexivity.
    - cbn [array_truthy] in Hcrit.
      destruct Hnotations as [[_ H]|[n [ns [H Hall]]]]; [discriminate|].
      injection H as ->.
      exists (n :: ns). split; [exact Hcrit|]. split; [|discriminate].
      intros submitted E. injection E as <-. split; [reflexivity | exact Hall]. }
  destruct Hsource as [source [Hok [Hsub Hex]]].
  split.
  { intros x Hx. destruct (accepted_conditions _ _ x Hok Hx) as [ns [c [_ [-> _]]]].
    exists c. reflexivity. }
  intros c Hc HM.
  destruct (accepted_conditions _ _ _ Hok Hc) as [ns [c' [Hns [Ec Hacc]]]].
  injection Ec as <-.
  destruct (accepted_mark_condition_names _ c Hacc HM) as [t [Ht [_ Hin]]].
  unfold notation_texts in Hin. apply in_map_iff in Hin. destruct Hin as [m [Hm Hin]].
  apply In_objects in Hin. rewrite <- Hns in Hin.
  split.
  - intros submitted Hs. destruct (Hsub submitted Hs) as [-> Hall].
    exists m. split; [exact Hin|]. split; [congruence|].
    rewrite Forall_forall in Hall. apply list_elem_of_In, Hall in Hin.
    destruct Hin as [m' [E Hvalid]]. injection E as <-. exact Hvalid.
  - intros v Hv. exists source, m. split; [apply (Hex v Hv)|].
    split; [exact Hin | congruence].
Qed.

(** ** The notation set *)

Lemma Set_has_string_same set1 set2 t :
  (In (VString t) set1 <-> In (VString t) set2) ->
  Set_has_string set1 t = Set_has_string set2 t.
Proof.
  intros H. rewrite <- !Set_has_string_In in H.
  destruct (Set_has_string set1 t), (Set_has_string set2 t); try reflexivity.
  - destruct H as [H _]. specialize (H eq_refl). discriminate.
  - destruct H as [_ H]. specialize (H eq_refl). discriminate.
Qed.

Lemma validateSingleNotationCondition_same_texts set1 set2 x path :
  (forall t, In (VString t) set1 <-> In (VString t) set2) ->
  validateSingleNotationCondition x set1 path = validateSingleNotationCondition x set2 path.
Proof.
  intros H. unfold validateSingleNotationCondition.
  destruct x as [| |c]; try reflexivity. cbn [reading]. unfold_result.
  destruct (Condition.notation_text c) as [| |b|y|t|l|fs]; try reflexivity.
  rewrite (Set_has_string_same set1 set2 t (H t)). reflexivity.
Qed.

Lemma validateTestCriteriaGroups_same_texts set1 set2 groups path :
  (forall t, In (VString t) set1 <-> In (VString t) set2) ->
  validateTestCriteriaGroups groups set1 path = validateTestCriteriaGroups groups set2 path.
Proof.
  intros H. unfold validateTestCriteriaGroups.
  destruct groups as [v|[|g gs]]; try reflexivity.
  unfold forEach. apply forEach_from_ext. intros x k _.
  destruct x as [| |g0]; try reflexivity. cbn [reading]. unfold_result.
  destruct (Group.conditions g0) as [v|[|c cs]]; try reflexivity.
  apply forEach_from_ext. intros y j _.
  apply validateSingleNotationCondition_same_texts. exact H.
Qed.

(** The validation of the criteria depends on the notations through the set
    of their texts only: two arrays of notations with the same texts, in
    any order, with any repetition and any max_points, give the same result,
    the same error included. *)
Theorem validateTestPassingCriteriaInput_same_texts
    (criteria : TestPassingCriteria.t) (notations1 notations2 : list Notation.t)
    (Hsame : forall t, In (VString t) (notation_texts notations1)
                       <-> In (VString t) (notation_texts notations2)) :
  validateTestPassingCriteriaInput criteria (objects notations1)
  = validateTestPassingCriteriaInput criteria (objects notations2).
Proof.
  unfold validateTestPassingCriteriaInput, validate_branch_if_present.
  rewrite !notation_texts_of_objects. unfold_result.
  destruct (TestPassingCriteria.pass_criteria criteria) as [p|];
    destruct (TestPassingCriteria.fail_criteria criteria) as [f|];
    rewrite ?(validateTestCriteriaGroups_same_texts _ _ _ _ Hsame); reflexivity.
Qed.

Lemma condition_accepted_more set1 set2 c :
  (forall t, In (VString t) set1 -> In (VString t) set2) ->
  condition_accepted set1 c = true -> condition_accepted set2 c = true.
Proof.
  intros Hsub. unfold condition_accepted. rewrite !andb_true_iff.
  intros [H123 H4]. split; [exact H123|].
  destruct (is_MARK (Condition.criteria_type c)); [|reflexivity].
  unfold notation_accepted in *. destruct (Condition.notation_text c); try discriminate.
  rewrite andb_true_iff in *. destruct H4 as [Hb Hin]. split; [exact Hb|].
  apply Set_has_string_In, Hsub, Set_has_string_In. exact Hin.
Qed.

Lemma branch_accepted_more set1 set2 b :
  (forall t, In (VString t) set1 -> In (VString t) set2) ->
  branch_accepted set1 b = true -> branch_accepted set2 b = true.
Proof.
  intros Hsub. destruct b as [b|]; [|reflexivity]. simpl. unfold groups_accepted.
  destruct (Branch.test_criteria_groups b) as [v|[|g gs]]; try discriminate.
  rewrite !forallb_forall. intros H g' Hg'. specialize (H g' Hg').
  apply object_and_true in H. destruct H as [g0 [-> H]]. cbn [object_and].
  unfold group_accepted in *. destruct (Group.conditions g0) as [v|[|c cs]]; try discriminate.
  rewrite forallb_forall in *. intros x Hx. specialize (H x Hx).
  apply object_and_true in H. destruct H as [c0 [-> H]]. cbn [object_and].
  apply (condition_accepted_more set1 set2 c0 Hsub H).
Qed.

(** Criteria that are valid for the notations of a test stay valid when
    notations are added to the test. *)
Theorem validateTestPassingCriteriaInput_more_notations
    (criteria : TestPassingCriteria.t) (notations1 notations2 : list Notation.t)
    (Hmore : forall t, In (VString t) (notation_texts notations1) ->
                       In (VString t) (notation_texts notations2))
    (Hvalid : validateTestPassingCriteriaInput criteria (objects notations1) = Ok tt) :
  validateTestPassingCriteriaInput criteria (objects notations2) = Ok tt.
Proof.
  apply validateTestPassingCriteriaInput_accepts.
  apply validateTestPassingCriteriaInput_accepts in Hvalid.
  rewrite !andb_true_iff in *. destruct Hvalid as [[Hsome Hp] Hf].
  split; [split; [exact Hsome|]|].
  - apply (branch_accepted_more _ _ _ Hmore Hp).
  - apply (branch_accepted_more _ _ _ Hmore Hf).
Qed.

(** ** The path of the element at fault *)

(** Every rejection of a condition that is an object is one of the errors of
    a condition, under the path of the condition. *)
Lemma validateSingleNotationCondition_errors set c path e :
  validateSingleNotationCondition (IsObject c) set path = Throw e ->
  In e (condition_errors path c).
Proof.
  unfold validateSingleNotationCondition, not_string_in, not_number_or_negative,
    call_toUpperCase, reading, condition_errors.
  unfold_result.
  destruct c as [ct op m nt].
  cbn [Condition.criteria_type Condition.comparison_operator Condition.mark
       Condition.notation_text].
  destruct ct as [| |b|x|s|l|fs]; cbn [negb];
    try (intros H; injection H as <-; left; reflexivity).
  destruct (includes validCriteriaType (toUpperCase s)); cbn [negb];
    [|intros H; injection H as <-; left; reflexivity].
  destruct op as [| |b|x|o|l|fs]; cbn [negb];
    try (intros H; injection H as <-; right; left; reflexivity).
  destruct (includes validComparisonOperator (toUpperCase o)); cbn [negb];
    [|intros H; injection H as <-; right; left; reflexivity].
  destruct m as [| |b|x|t|l|fs]; cbn [negb];
    try (intros H; injection H as <-; right; right; left; reflexivity).
  destruct (lt x zero); [intros H; injection H as <-; right; right; left; reflexivity|].
  destruct (String.eqb (toUpperCase s) "MARK"); [|discriminate].
  destruct nt as [| |b|y|t|l|fs];
    try (intros H; injection H as <-; right; right; right; left; reflexivity).
  destruct (String.eqb (trim t) "");
    [intros H; injection H as <-; right; right; right; left; reflexivity|].
  destruct (Set_has_string set t); cbn [negb]; [discriminate|].
  intros H. injection H as <-. right; right; right; right. left. reflexivity.
Qed.

Lemma condition_errors_BAD_USER_INPUT path c e :
  In e (condition_errors path c) -> exists message, e = BAD_USER_INPUT message.
Proof.
  unfold condition_errors. intros H. apply in_app_or in H. destruct H as [H|H].
  - simpl in H. destruct H as [<-|[<-|[<-|[<-|[]]]]]; eexists; reflexivity.
  - destruct (Condition.notation_text c); simpl in H; try contradiction.
    destruct H as [<-|[]]. eexists. reflexivity.
Qed.

(** What the validation of a condition throws: the TypeError of reading
    criteria_type of null or undefined, or one of the errors of a
    condition. *)
Lemma validateSingleNotationCondition_Throw set x path e :
  validateSingleNotationCondition x set path = Throw e ->
  (exists what, nullish_name x = Some what /\ e = reading_error what "criteria_type")
  \/ exists c, x = IsObject c /\ In e (condition_errors path c).
Proof.
  destruct x as [| |c]; intros H.
  - left. exists "null". split; [reflexivity|]. injection H as <-. reflexivity.
  - left. exists "undefined". split; [reflexivity|]. injection H as <-. reflexivity.
  - right. exists c. split; [reflexivity|].
    apply (validateSingleNotationCondition_errors set c path e H).
Qed.

Lemma group_turn_accepts set x path i :
  (group ← reading x "conditions" ;
   match Group.conditions group with
   | IsArray ((_ :: _) as conditions) =>
       forEach conditions (fun condition condIndex =>
         validateSingleNotationCondition condition set
           ((path ++ "[" ++ index_to_string i ++ "]")
            ++ ".conditions[" ++ index_to_string condIndex ++ "]"))
   | _ => Throw (BAD_USER_INPUT ("Field '" ++ (path ++ "[" ++ index_to_string i ++ "]")
                                 ++ ".conditions' must be a non-empty array."))
   end) = Ok tt
  <-> object_and (group_accepted set) x = true.
Proof.
  destruct x as [| |g]; [settle | settle |]. cbn [reading object_and]. unfold_result.
  apply group_object_accepts.
Qed.

(** Every error of validateTestCriteriaGroups is found at the first element
    at fault, in the order of the array.  It is the error of the groups when
    they are not a non-empty array.  Else it is found at the first group
    that is not accepted: the TypeError of reading the conditions of a group
    that is null or undefined, which names no path; the error of the
    conditions under the index of the group when they are not a non-empty
    array; and else the error of the first condition of that group that is
    not accepted, which is the TypeError of reading the criteria_type of a
    condition that is null or undefined, or one of the errors of a condition
    under the index of the group and its own. *)
Theorem validateTestCriteriaGroups_error_path
    (groups : maybe_array (nullable Group.t)) (set : list value) (path : string) (e : exn)
    (Herror : validateTestCriteriaGroups groups set path = Throw e) :
  ((forall g gs, groups <> IsArray (g :: gs)) /\ e = groups_error path)
  \/ exists gs i x,
       groups = IsArray gs /\ gs !! i = Some x
       /\ (forall j x', j < i -> gs !! j = Some x' ->
                        object_and (group_accepted set) x' = true)
       /\ object_and (group_accepted set) x = false
       /\ ((exists what, nullish_name x = Some what
                         /\ e = reading_error what "conditions")
           \/ exists g, x = IsObject g
                /\ (((forall c cs, Group.conditions g <> IsArray (c :: cs))
                     /\ e = conditions_error (group_path path i))
                    \/ exists cs k y,
                         Group.conditions g = IsArray cs /\ cs !! k = Some y
                         /\ (forall j y', j < k -> cs !! j = Some y' ->
                                          object_and (condition_accepted set) y' = true)
                         /\ object_and (condition_accepted set) y = false
                         /\ validateSingleNotationCondition y set (condition_path path i k)
                            = Throw e
                         /\ ((exists what, nullish_name y = Some what
                                           /\ e = reading_error what "criteria_type")
                             \/ exists c, y = IsObject c
                                  /\ In e (condition_errors (condition_path path i k) c)))).
Proof.
  unfold validateTestCriteriaGroups in Herror.
  destruct groups as [v|[|g0 gs0]].
  - left. split; [discriminate | injection Herror as <-; reflexivity].
  - left. split; [discriminate | injection Herror as <-; reflexivity].
  - right. unfold forEach in Herror. apply forEach_from_Throw in Herror.
    destruct Herror as [i [x [Hi [Hx Hbefore]]]].
    exists (g0 :: gs0), i, x. split; [reflexivity|]. split; [exact Hi|]. split.
    { intros j x' Hj Hx'. specialize (Hbefore j x' Hj Hx'). cbn beta in Hbefore.
      apply (group_turn_accepts set x' path (0 + j)). exact Hbefore. }
    cbn beta in Hx. change (0 + i) with i in Hx.
    split.
    { destruct (object_and (group_accepted set) x) eqn:Hacc; [|reflexivity].
      apply (group_turn_accepts set x path i) in Hacc. unfold forEach in Hacc.
      congruence. }
    destruct x as [| |g].
    + left. exists "null". split; [reflexivity|]. injection Hx as <-. reflexivity.
    + left. exists "undefined". split; [reflexivity|]. injection Hx as <-. reflexivity.
    + right. exists g. split; [reflexivity|].
      cbn [reading] in Hx. unfold_result.
      destruct (Group.conditions g) as [v|[|c0 cs0]] eqn:Hconds.
      * left. split; [discriminate | injection Hx as <-; reflexivity].
      * left. split; [discriminate | injection Hx as <-; reflexivity].
      * right. unfold forEach in Hx. apply forEach_from_Throw in Hx.
        destruct Hx as [k [y [Hk [Hy Hcbefore]]]].
        cbn beta in Hy. change (0 + k) with k in Hy.
        exists (c0 :: cs0), k, y. split; [reflexivity|]. split; [exact Hk|]. split.
        { intros j y' Hj Hy'.
          apply (validateSingleNotationCondition_accepts set y'
                   (condition_path path i (0 + j))).
          apply (Hcbefore j y' Hj Hy'). }
        split.
        { destruct (object_and (condition_accepted set) y) eqn:Hacc; [|reflexivity].
          apply (validateSingleNotationCondition_accepts set y
                   (condition_path path i k)) in Hacc.
          unfold condition_path, group_path in Hacc. congruence. }
        split; [exact Hy|].
        apply (validateSingleNotationCondition_Throw set y _ e Hy).
Qed.

(** ** Letter case of the enum fields of a test *)

Lemma check_rule_same_upper_case testInput isUpdate tt tt' rv rv' ct ct' ts ts' r :
  toUpperCase tt' = toUpperCase tt -> toUpperCase rv' = toUpperCase rv ->
  toUpperCase ct' = toUpperCase ct -> toUpperCase ts' = toUpperCase ts ->
  In r validationRules ->
  check_rule (with_test_enums testInput tt' rv' ct' ts') isUpdate r
  = check_rule (with_test_enums testInput tt rv ct ts) isUpdate r.
Proof.
  intros Htt Hrv Hct Hts Hin. simpl in Hin.
  destruct Hin as [<-|[<-|[<-|[<-|[<-|[<-|[<-|[<-|[]]]]]]]]];
    unfold check_rule, TestInput.get, with_test_enums, is_string_in;
    cbn [rule_field rule_required rule_validate rule_message
         TestInput.name TestInput.description TestInput.test_type
         TestInput.result_visibility TestInput.weight TestInput.correction_type
         TestInput.is_retake TestInput.test_status];
    eval_eqb; cbn [is_defined]; rewrite ?Htt, ?Hrv, ?Hct, ?Hts; reflexivity.
Qed.

(** When the rules accept an input, its test type is not the empty
    string. *)
Lemma rules_Ok_test_type testInput isUpdate test_type rv ct ts :
  forEach validationRules
    (fun r _ => check_rule (with_test_enums testInput test_type rv ct ts) isUpdate r)
  = Ok tt ->
  test_type <> "".
Proof.
  intros H. rewrite rules_Ok in H.
  specialize (H _ ltac:(do 2 right; left; reflexivity)).
  unfold rule_passes, rule_applies in H.
  cbn [rule_field rule_required rule_validate] in H.
  change (TestInput.get (with_test_enums testInput test_type rv ct ts) "test_type")
    with (VString test_type) in H.
  cbn [is_defined] in H. rewrite orb_true_r in H. cbn [implb is_string_in] in H.
  apply includes_In in H.
  apply (in_enum_not_empty _ _ H validTestType_not_empty).
Qed.

(** ValidateTestInput reads the test type, the result visibility, the
    correction type and the test status through their upper case only:
    replacing them by strings with the same upper case gives the same
    result, the same error included.  The strings that differ from ASCII
    text in the case of letters only have its upper case. *)
Theorem ValidateTestInput_case_insensitive
    (ObjectId_isValid : string -> bool)
    (testInput : TestInput.t) (evaluationType : string)
    (existingNotations : maybe_array (nullable Notation.t)) (isUpdate : bool)
    (tt tt' rv rv' ct ct' ts ts' : string)
    (Htt : toUpperCase tt' = toUpperCase tt \/ ascii_case_variant tt tt')
    (Hrv : toUpperCase rv' = toUpperCase rv \/ ascii_case_variant rv rv')
    (Hct : toUpperCase ct' = toUpperCase ct \/ ascii_case_variant ct ct')
    (Hts : toUpperCase ts' = toUpperCase ts \/ ascii_case_variant ts ts') :
  ValidateTestInput ObjectId_isValid (with_test_enums testInput tt' rv' ct' ts')
    evaluationType existingNotations isUpdate
  = ValidateTestInput ObjectId_isValid (with_test_enums testInput tt rv ct ts)
      evaluationType existingNotations isUpdate.
Proof.
  assert (Hupper : forall s s',
             toUpperCase s' = toUpperCase s \/ ascii_case_variant s s' ->
             toUpperCase s' = toUpperCase s).
  { intros s s' [H|H]; [exact H | apply ascii_case_variant_toUpperCase; exact H]. }
  apply Hupper in Htt, Hrv, Hct, Hts.
  unfold ValidateTestInput.
  assert (Hrules :
            forEach validationRules
              (fun r _ => check_rule (with_test_enums testInput tt' rv' ct' ts') isUpdate r)
            = forEach validationRules
                (fun r _ => check_rule (with_test_enums testInput tt rv ct ts) isUpdate r)).
  { unfold forEach. apply forEach_from_ext. intros r _ Hr.
    apply check_rule_same_upper_case; assumption. }
  rewrite Hrules.
  destruct (forEach validationRules
              (fun r _ => check_rule (with_test_enums testInput tt rv ct ts) isUpdate r))
    as [[]|e] eqn:Hok; [|reflexivity].
  pose proof (rules_Ok_test_type _ _ _ _ _ _ Hok) as Hne.
  pose proof (rules_Ok_test_type _ _ _ _ _ _ Hrules) as Hne'.
  assert (Htype :
            check_test_type (with_test_enums testInput tt' rv' ct' ts') evaluationType
            = check_test_type (with_test_enums testInput tt rv ct ts) evaluationType).
  { unfold check_test_type, with_test_enums.
    cbn [TestInput.test_type truthy call_toUpperCase].
    destruct (String.eqb_spec tt' "") as [E|_]; [contradiction|].
    destruct (String.eqb_spec tt "") as [E|_]; [contradiction|].
    rewrite Htt. reflexivity. }
  unfold_result. rewrite Htype. reflexivity.
Qed.

(** ** How the validation of criteria composes *)

Lemma groups_accepted_app set gs1 gs2 :
  gs1 <> [] -> gs2 <> [] ->
  groups_accepted set (IsArray (gs1 ++ gs2))
  = groups_accepted set (IsArray gs1) && groups_accepted set (IsArray gs2).
Proof.
  intros H1 H2. unfold groups_accepted.
  destruct gs1 as [|g1 gs1]; [contradiction|]. destruct gs2 as [|g2 gs2]; [contradiction|].
  change (forallb (object_and (group_accepted set)) (((g1 :: gs1) ++ g2 :: gs2)%list)
          = forallb (object_and (group_accepted set)) (g1 :: gs1)
            && forallb (object_and (group_accepted set)) (g2 :: gs2)).
  apply forallb_app.
Qed.

Lemma validateTestPassingCriteriaInput_no_texts crit l e :
  notation_texts_of l = Throw e -> validateTestPassingCriteriaInput crit l <> Ok tt.
Proof.
  intros H. unfold validateTestPassingCriteriaInput. rewrite H. unfold_result.
  destruct (negb _ && negb _); discriminate.
Qed.

(** Criteria with both branches are valid exactly when each branch is valid
    on its own, and a branch whose groups are two non-empty arrays put one
    after the other is valid exactly when each array is valid as the groups
    of a branch, under whatever path: the validity of a group does not
    depend on its place. *)
Theorem criteria_validation_composes
    (pass fail : Branch.t) (groups1 groups2 : list (nullable Group.t))
    (notations : list (nullable Notation.t)) (set : list value) (path path1 path2 : string)
    (Hgroups1 : groups1 <> []) (Hgroups2 : groups2 <> []) :
  (validateTestPassingCriteriaInput (both_branches pass fail) notations = Ok tt
   <-> validateTestPassingCriteriaInput (pass_only pass) notations = Ok tt
       /\ validateTestPassingCriteriaInput (fail_only fail) notations = Ok tt)
  /\ (validateTestCriteriaGroups (IsArray (groups1 ++ groups2)) set path = Ok tt
      <-> validateTestCriteriaGroups (IsArray groups1) set path1 = Ok tt
          /\ validateTestCriteriaGroups (IsArray groups2) set path2 = Ok tt).
Proof.
  split.
  - destruct (notation_texts_of notations) as [texts|e] eqn:Htexts.
    + rewrite !(validateTestPassingCriteriaInput_with_texts _ _ _ Htexts).
      unfold both_branches, pass_only, fail_only, branch_accepted.
      cbn [TestPassingCriteria.pass_criteria TestPassingCriteria.fail_criteria].
      rewrite !andb_true_iff, !orb_true_iff, !bool_decide_eq_true. split.
      * intros [[_ Hp] Hf]. repeat split; eauto.
      * intros [[[_ Hp] _] [[_ _] Hf]]. repeat split; eauto.
    + split.
      * intros H. contradiction (validateTestPassingCriteriaInput_no_texts _ _ _ Htexts H).
      * intros [H _]. contradiction (validateTestPassingCriteriaInput_no_texts _ _ _ Htexts H).
  - rewrite !validateTestCriteriaGroups_accepts.
    rewrite (groups_accepted_app set groups1 groups2 Hgroups1 Hgroups2).
    apply andb_true_iff.
Qed.

(** ** What ValidateTestInput does not look at *)

(** The connected test is looked at for a retake only: when is_retake is
    falsy, ValidateTestInput gives the same result whatever connected_test
    is, an invalid identifier included. *)
Theorem ValidateTestInput_ignores_connected_test_unless_retake
    (ObjectId_isValid : string -> bool)
    (testInput : TestInput.t) (evaluationType : string)
    (existingNotations : maybe_array (nullable Notation.t)) (isUpdate : bool)
    (connected_test : option string)
    (Hretake : truthy (TestInput.is_retake testInput) = false) :
  ValidateTestInput ObjectId_isValid (with_connected_test testInput connected_test)
    evaluationType existingNotations isUpdate
  = ValidateTestInput ObjectId_isValid testInput evaluationType existingNotations isUpdate.
Proof.
  unfold ValidateTestInput.
  assert (Hr : check_retake ObjectId_isValid (with_connected_test testInput connected_test)
               = check_retake ObjectId_isValid testInput).
  { unfold check_retake, with_connected_test. cbn [TestInput.is_retake].
    rewrite Hretake. reflexivity. }
  rewrite Hr. reflexivity.
Qed.

Lemma notation_texts_double l t :
  In (VString t) (notation_texts (l ++ l)) <-> In (VString t) (notation_texts l).
Proof.
  unfold notation_texts. rewrite map_app, in_app_iff. tauto.
Qed.

(** ValidateTestInput does not ask the notation texts of a test to be
    distinct: an accepted input whose notations are all repeated is accepted
    as well. *)
Theorem ValidateTestInput_accepts_repeated_notations
    (ObjectId_isValid : string -> bool)
    (testInput : TestInput.t) (evaluationType : string)
    (existingNotations : maybe_array (nullable Notation.t)) (isUpdate : bool)
    (notations : list (nullable Notation.t))
    (Hnotations : TestInput.notations testInput = IsArray notations)
    (Haccepted : ValidateTestInput ObjectId_isValid testInput evaluationType
                   existingNotations isUpdate = Ok tt) :
  ValidateTestInput ObjectId_isValid (with_notations testInput (notations ++ notations))
    evaluationType existingNotations isUpdate = Ok tt.
Proof.
  apply ValidateTestInput_Ok in Haccepted.
  destruct Haccepted as [Hrules [Hnot [Hretake [Htype Hcrit]]]].
  apply ValidateTestInput_Ok. split; [exact Hrules|]. split; [|split; [exact Hretake|]].
  - apply check_notations_Ok in Hnot. apply check_notations_Ok. right.
    rewrite Hnotations in Hnot.
    destruct Hnot as [[_ H]|[n [ns [H Hall]]]]; [discriminate|]. injection H as ->.
    exists n, ((ns ++ n :: ns)%list). split; [reflexivity|].
    change (Forall valid_notation (((n :: ns) ++ n :: ns)%list)).
    apply Forall_app. split; exact Hall.
  - split; [exact Htype|].
    unfold check_passing_criteria, notationsSource, with_notations in *.
    cbn [TestInput.test_passing_criteria TestInput.notations array_truthy].
    rewrite Hnotations in Hcrit. cbn [array_truthy] in Hcrit.
    destruct (TestInput.test_passing_criteria testInput) as [criteria|]; [|reflexivity].
    destruct notations as [|n ns]; [discriminate|].
    change (validateTestPassingCriteriaInput criteria (((n :: ns) ++ n :: ns)%list) = Ok tt).
    destruct (validateTestPassingCriteriaInput_objects _ _ Hcrit) as [objs Hobjs].
    rewrite Hobjs in *. unfold objects. rewrite <- map_app. fold (objects (objs ++ objs)).
    apply (validateTestPassingCriteriaInput_more_notations criteria objs); [|exact Hcrit].
    intros t Ht. apply notation_texts_double. exact Ht.
Qed.

(** ** The notation at fault *)

(** When the notations of an input are an array, the error of their check
    names the first notation at fault by its index: every notation before it
    is an object and valid; the error is the TypeError of taking the notation
    apart when it is null or undefined; for an object, it is the error of
    the field notation_text of that index when the text is not a non-blank
    string, and otherwise the error of the field max_points of that index,
    the points being then no number that is at least zero. *)
Theorem check_notations_error_index
    (testInput : TestInput.t) (isUpdate : bool)
    (x : nullable Notation.t) (xs : list (nullable Notation.t)) (e : exn)
    (Hnotations : TestInput.notations testInput = IsArray (x :: xs))
    (Herror : check_notations testInput isUpdate = Throw e) :
  exists k bad,
    (x :: xs) !! k = Some bad
    /\ ~ valid_notation bad
    /\ (forall j good, j < k -> (x :: xs) !! j = Some good -> valid_notation good)
    /\ ((exists what, nullish_name bad = Some what
                      /\ e = destructuring_error what "notation_text" "notation"
                      /\ exn_field e = None)
        \/ exists n, bad = IsObject n
             /\ (~ nonblank_string (Notation.notation_text n) ->
                 e = notation_text_error k
                 /\ exn_field e = Some (notation_text_field k))
             /\ (nonblank_string (Notation.notation_text n) ->
                 e = max_points_error k
                 /\ exn_field e = Some (max_points_field k)
                 /\ ~ nonnegative_number (Notation.max_points n))).
Proof.
  unfold check_notations in Herror. rewrite Hnotations in Herror.
  cbn [array_is_defined] in Herror. rewrite orb_true_r in Herror.
  unfold forEach in Herror. apply forEach_from_Throw in Herror.
  destruct Herror as [k [bad [Hk [Hbad Hbefore]]]].
  change (0 + k) with k in Hbad.
  destruct (check_notation_Throw bad k e Hbad) as [Hinvalid Hcases].
  exists k, bad. split; [exact Hk|]. split; [exact Hinvalid|]. split.
  - intros j good Hj Hgood. apply (check_notation_Ok good (0 + j)).
    apply (Hbefore j good Hj Hgood).
  - destruct Hcases as [[what [Hwhat ->]]|[n [-> [Htext Hpoints]]]].
    + left. exists what. repeat split. exact Hwhat.
    + right. exists n. split; [reflexivity|]. split.
      * intros Hn. rewrite (Htext Hn). split; reflexivity.
      * intros Hn. destruct (Hpoints Hn) as [-> Hp]. repeat split. exact Hp.
Qed.

End TestInputValidator.

(** ** Examples of test inputs *)

Section TestInputExamples.

#[local] Existing Instance latin_case.

Lemma C9_criteria_notations_source_witness :
  ValidateTestInput ObjectId_isValid_hex
    (criteria_update (one_condition_tree mark_A_at_least_10)) "SCORE"
    (IsArray [IsObject notation_A]) true
  = validateTestPassingCriteriaInput (one_condition_tree mark_A_at_least_10)
      [IsObject notation_A]
  /\ ValidateTestInput ObjectId_isValid_hex
       (criteria_update (one_condition_tree mark_A_at_least_10)) "SCORE"
       (NotArray VUndefined) true
     = Throw no_notations_error.
Proof.
  pose proof (C9_criteria_notations_source ObjectId_isValid_hex
                (criteria_update (one_condition_tree mark_A_at_least_10)) "SCORE") as H.
  split.
  - destruct (H (IsArray [IsObject notation_A]) true (one_condition_tree mark_A_at_least_10)
                eq_refl eq_refl) as [_ [Hexisting _]].
    destruct (Hexisting VUndefined eq_refl) as [_ [Hv _]].
    apply (Hv [IsObject notation_A] eq_refl). discriminate.
  - destruct (H (NotArray VUndefined) true (one_condition_tree mark_A_at_least_10)
                eq_refl eq_refl) as [_ [Hexisting _]].
    destruct (Hexisting VUndefined eq_refl) as [_ [_ Hv]].
    apply Hv. intros n ns. discriminate.
Defined.

(** The filter accepts the empty string, inactive in lower case and the
    word that is written with a dotless i, whose upper case is ACTIVE. *)
Lemma ValidateTestStatusFilter_accepts_witness :
  ValidateTestStatusFilter (str "") = Ok tt
  /\ ValidateTestStatusFilter (str "inactive") = Ok tt
  /\ ValidateTestStatusFilter (str ("act" ++ bytes [196; 177] ++ "ve")) = Ok tt
  /\ is_string_in validStatus (str "") = false.
Proof.
  destruct (ValidateTestStatusFilter_accepts (str "")) as [Hempty [_ Hrule]].
  destruct (ValidateTestStatusFilter_accepts (str "inactive")) as [Hinactive _].
  destruct (ValidateTestStatusFilter_accepts (str ("act" ++ bytes [196; 177] ++ "ve")))
    as [Hdotless _].
  split; [apply Hempty; left; reflexivity|].
  split; [|split; [|apply Hrule; reflexivity]].
  - apply Hinactive. right. exists "inactive". split; [reflexivity|]. right. left. reflexivity.
  - apply Hdotless. right. eexists. split; [reflexivity|]. left. reflexivity.
Defined.

Lemma ValidateTestInput_first_failing_rule_witness :
  ValidateTestInput ObjectId_isValid_hex
    (with_field (with_field written_test_input "weight" (num 2)) "correction_type" (str "NONE"))
    "SCORE" (NotArray VUndefined) false
  = Throw (field_error "Weight is required and must be a number between 0 and 1." "weight").
Proof.
  apply (ValidateTestInput_first_failing_rule ObjectId_isValid_hex _ "SCORE"
           (NotArray VUndefined) false 4
           {| rule_field := "weight"; rule_required := true; rule_validate := is_weight;
              rule_message := "Weight is required and must be a number between 0 and 1." |}).
  - reflexivity.
  - reflexivity.
  - intros j r' Hj Hr'.
    destruct j as [|[|[|[|j]]]]; [| | | |lia]; injection Hr' as <-; reflexivity.
Defined.

Lemma ValidateTestInput_rejects_null_witness :
  exists r, In r validationRules
            /\ ValidateTestInput ObjectId_isValid_hex
                 (with_field written_test_input "test_status" VNull) "SCORE"
                 (NotArray VUndefined) true = Throw (rule_error r).
Proof.
  apply (ValidateTestInput_rejects_null ObjectId_isValid_hex
           (with_field written_test_input "test_status" VNull) "SCORE"
           (NotArray VUndefined) true "test_status").
  - simpl. auto 10.
  - reflexivity.
Defined.

Lemma ValidateTestInput_accepted_creation_witness :
  nonblank_string (TestInput.name written_test_input)
  /\ number_in_unit_interval (TestInput.weight written_test_input)
  /\ in_enum validTestType (TestInput.test_type written_test_input)
  /\ Forall valid_notation [IsObject notation_A].
Proof.
  assert (Haccepted : ValidateTestInput ObjectId_isValid_hex written_test_input "SCORE"
                        (NotArray VUndefined) false = Ok tt) by reflexivity.
  destruct (ValidateTestInput_accepted_creation ObjectId_isValid_hex written_test_input
              "SCORE" (NotArray VUndefined) Haccepted)
    as [H1 [_ [H3 [_ [H5 [_ [_ [_ [[x [xs [Hn Hall]]] _]]]]]]]]].
  injection Hn as <- <-. repeat split; assumption.
Defined.

Lemma check_test_type_rejects_oral_memoire_of_competency_witness :
  check_test_type written_test_input "COMPETENCY" = Ok tt
  <-> ~ ("COMPETENCY" = "COMPETENCY"
         /\ (toUpperCase "written" = "MEMMOIRE_ORAL_NON_JURY"
             \/ toUpperCase "written" = "MEMOIRE_ORAL")).
Proof.
  apply (check_test_type_rejects_oral_memoire_of_competency written_test_input
           "COMPETENCY" "written").
  - reflexivity.
  - simpl. auto 10.
Defined.

Lemma ValidateTestInput_mark_conditions_name_notations_witness :
  exists n, In (IsObject n) [IsObject notation_A]
            /\ Notation.notation_text n = Condition.notation_text mark_A_at_least_10
            /\ notation_valid n.
Proof.
  assert (Haccepted : ValidateTestInput ObjectId_isValid_hex written_test_input "SCORE"
                        (NotArray VUndefined) false = Ok tt) by reflexivity.
  destruct (ValidateTestInput_mark_conditions_name_notations ObjectId_isValid_hex
              written_test_input "SCORE" (NotArray VUndefined) false
              (one_condition_tree mark_A_at_least_10) Haccepted eq_refl) as [_ Hmark].
  apply (proj1 (Hmark mark_A_at_least_10 (or_introl eq_refl)
                  (ex_intro _ "MARK" (conj eq_refl eq_refl)))
               [IsObject notation_A] eq_refl).
Defined.

Lemma validateTestPassingCriteriaInput_same_texts_witness :
  validateTestPassingCriteriaInput (one_condition_tree mark_A_at_least_10)
    (objects [notation_A; notation_B])
  = validateTestPassingCriteriaInput (one_condition_tree mark_A_at_least_10)
      (objects [notation_B; notation_with_max_points (num 5); notation_A]).
Proof.
  apply validateTestPassingCriteriaInput_same_texts.
  intros t. simpl. unfold str. intuition congruence.
Defined.

Lemma validateTestPassingCriteriaInput_more_notations_witness :
  validateTestPassingCriteriaInput (one_condition_tree mark_A_at_least_10)
    (objects [notation_B; notation_A]) = Ok tt.
Proof.
  apply (validateTestPassingCriteriaInput_more_notations
           (one_condition_tree mark_A_at_least_10) [notation_A] [notation_B; notation_A]).
  - intros t [H|[]]. right. left. exact H.
  - reflexivity.
Defined.

(** The second group of the first array names an unknown notation in its
    second condition; the second array has null where its second group
    should be. *)
Lemma validateTestCriteriaGroups_error_path_witness :
  validateTestCriteriaGroups two_group_branch [str "A"] pass_path
  = Throw (notation_text_unknown_error (condition_path pass_path 1 1) "B")
  /\ (exists gs i x, two_group_branch = IsArray gs /\ gs !! i = Some x
                     /\ object_and (group_accepted [str "A"]) x = false)
  /\ validateTestCriteriaGroups groups_with_null [str "A"] pass_path
     = Throw (reading_error "null" "conditions")
  /\ exists gs i, groups_with_null = IsArray gs /\ gs !! i = Some IsNull.
Proof.
  assert (Hunknown : validateTestCriteriaGroups two_group_branch [str "A"] pass_path
                     = Throw (notation_text_unknown_error (condition_path pass_path 1 1) "B"))
    by reflexivity.
  assert (Hnull : validateTestCriteriaGroups groups_with_null [str "A"] pass_path
                  = Throw (reading_error "null" "conditions")) by reflexivity.
  split; [exact Hunknown|]. split; [|split; [exact Hnull|]].
  - destruct (validateTestCriteriaGroups_error_path two_group_branch [str "A"] pass_path
                (notation_text_unknown_error (condition_path pass_path 1 1) "B") Hunknown)
      as [[H _]|[gs [i [x [Hgs [Hi [_ [Hx _]]]]]]]].
    + exfalso. eapply H. reflexivity.
    + exists gs, i, x. repeat split; assumption.
  - destruct (validateTestCriteriaGroups_error_path groups_with_null [str "A"] pass_path
                (reading_error "null" "conditions") Hnull)
      as [[H _]|[gs [i [x [Hgs [Hi [_ [_ [[what [Hwhat He]]|[g [Hg Hcases]]]]]]]]]]].
    + exfalso. eapply H. reflexivity.
    + exists gs, i. split; [exact Hgs|].
      destruct x as [| |g]; [exact Hi | injection Hwhat as <-; discriminate He
                            | discriminate Hwhat].
    + exfalso. subst x.
      destruct Hcases
        as [[_ He]|[cs [k [y [_ [_ [_ [_ [_ [[what [Hwhat He]]|[c [_ He]]]]]]]]]]]].
      * discriminate He.
      * destruct y; try discriminate Hwhat; injection Hwhat as <-; discriminate He.
      * apply condition_errors_BAD_USER_INPUT in He. destruct He as [message He].
        discriminate He.
Defined.

(** The four enum fields in another letter case, the test type written with
    a dotless i. *)
Lemma ValidateTestInput_case_insensitive_witness :
  ValidateTestInput ObjectId_isValid_hex
    (with_test_enums written_test_input ("wr" ++ bytes [196; 177] ++ "tten")
       "never" "admtc" "Active")
    "SCORE" (NotArray VUndefined) false
  = ValidateTestInput ObjectId_isValid_hex
      (with_test_enums written_test_input "WRITTEN" "NEVER" "ADMTC" "ACTIVE")
      "SCORE" (NotArray VUndefined) false.
Proof.
  apply ValidateTestInput_case_insensitive.
  - left. reflexivity.
  - right. apply (ascii_case_variant_lower "NEVER"). reflexivity.
  - right. apply (ascii_case_variant_lower "ADMTC"). reflexivity.
  - left. reflexivity.
Defined.

Lemma criteria_validation_composes_witness :
  validateTestCriteriaGroups
    (IsArray ([group_of mark_A_at_least_10] ++ [group_of negative_average_condition]))
    [str "A"] pass_path = Ok tt
  <-> validateTestCriteriaGroups (IsArray [group_of mark_A_at_least_10]) [str "A"] pass_path
      = Ok tt
      /\ validateTestCriteriaGroups (IsArray [group_of negative_average_condition])
           [str "A"] fail_path = Ok tt.
Proof.
  apply (proj2 (criteria_validation_composes
                  (branch_of [group_of mark_A_at_least_10])
                  (branch_of [group_of mark_A_at_least_10])
                  [group_of mark_A_at_least_10] [group_of negative_average_condition]
                  [IsObject notation_A] [str "A"] pass_path pass_path fail_path
                  ltac:(discriminate) ltac:(discriminate))).
Defined.

Lemma ValidateTestInput_ignores_connected_test_unless_retake_witness :
  ValidateTestInput ObjectId_isValid_hex
    (with_connected_test written_test_input (Some "not-an-id"))
    "SCORE" (NotArray VUndefined) false
  = Ok tt.
Proof.
  rewrite (ValidateTestInput_ignores_connected_test_unless_retake ObjectId_isValid_hex
             written_test_input "SCORE" (NotArray VUndefined) false (Some "not-an-id")
             eq_refl).
  reflexivity.
Defined.

Lemma ValidateTestInput_accepts_repeated_notations_witness :
  ValidateTestInput ObjectId_isValid_hex
    (with_notations written_test_input ([IsObject notation_A] ++ [IsObject notation_A]))
    "SCORE" (NotArray VUndefined) false = Ok tt.
Proof.
  apply (ValidateTestInput_accepts_repeated_notations ObjectId_isValid_hex
           written_test_input "SCORE" (NotArray VUndefined) false [IsObject notation_A]);
    reflexivity.
Defined.

(** The second notation has no points, the third a blank text, and null
    stands where a fourth should be: the error is that of the points of the
    second one. *)
Lemma check_notations_error_index_witness :
  exists k bad,
    [IsObject notation_A; IsObject notation_without_points; IsObject notation_blank; IsNull]
      !! k = Some bad
    /\ ~ valid_notation bad
    /\ k = 1.
Proof.
  assert (Herror : check_notations
                     (with_notations written_test_input
                        [IsObject notation_A; IsObject notation_without_points;
                         IsObject notation_blank; IsNull]) false
                   = Throw (max_points_error 1)) by reflexivity.
  destruct (check_notations_error_index
              (with_notations written_test_input
                 [IsObject notation_A; IsObject notation_without_points;
                  IsObject notation_blank; IsNull])
              false (IsObject notation_A)
              [IsObject notation_without_points; IsObject notation_blank; IsNull]
              _ eq_refl Herror)
    as [k [bad [Hk [Hbad [Hbefore _]]]]].
  exists k, bad. split; [exact Hk|]. split; [exact Hbad|].
  destruct k as [|[|k]]; [| reflexivity |].
  - exfalso. injection Hk as <-. apply Hbad. exists notation_A. split; [reflexivity|].
    split; [exists "A"; split; [reflexivity | discriminate]
           |exists (of_Z 20); split; reflexivity].
  - exfalso.
    destruct (Hbefore 1 (IsObject notation_without_points) ltac:(lia) eq_refl)
      as [n [E [_ [p [Hp _]]]]].
    injection E as <-. discriminate.
Defined.

End TestInputExamples.

(** ** The inputs of the loaders *)

Section LoaderInputChecks.

Variable isValid : value -> bool.
Variable ToString : value -> string.

Lemma check_ids_Ok ids error :
  check_ids isValid ids error = Ok tt <-> forall id, In id ids -> isValid id = true.
Proof.
  unfold check_ids, forEach. rewrite forEach_from_Ok. unfold throw_if. split.
  - intros H id Hin. apply list_elem_of_In, list_elem_of_lookup in Hin. destruct Hin as [k Hk].
    specialize (H k id Hk). cbn beta in H. destruct (isValid id); [reflexivity | discriminate].
  - intros H k id Hk. rewrite (H id); [reflexivity|].
    apply list_elem_of_In, list_elem_of_lookup. exists k. exact Hk.
Qed.

Lemma check_ids_Throw ids error e :
  check_ids isValid ids error = Throw e <->
  exists k id, ids !! k = Some id /\ isValid id = false /\ e = error id
               /\ forall j id', j < k -> ids !! j = Some id' -> isValid id' = true.
Proof.
  unfold check_ids, forEach. rewrite forEach_from_Throw. unfold throw_if. split.
  - intros [k [id [Hk [Hid Hbefore]]]]. exists k, id. split; [exact Hk|].
    destruct (isValid id); [discriminate|]. injection Hid as <-.
    split; [reflexivity|]. split; [reflexivity|].
    intros j id' Hj Hid'. specialize (Hbefore j id' Hj Hid'). cbn beta in Hbefore.
    destruct (isValid id'); [reflexivity | discriminate].
  - intros [k [id [Hk [Hid [-> Hbefore]]]]]. exists k, id. split; [exact Hk|].
    rewrite Hid. split; [reflexivity|].
    intros j id' Hj Hid'. rewrite (Hbefore j id' Hj Hid'). reflexivity.
Qed.

Lemma ids_loader_outcome test context field array_error ids_error loader method
      loader_error (validate : result unit) :
  validate
  = (throw_if (not_an_object test) test_object_error ;;
     match property test field with
     | VArray ids => check_ids isValid ids ids_error
     | _ => Throw array_error
     end ;;
     throw_if (loader_missing context loader method) loader_error) ->
  ids_loader_checks isValid test context field array_error ids_error loader method
    loader_error validate.
Proof.
  intros ->. unfold ids_loader_checks, ids_input_ok. unfold_result.
  destruct (not_an_object test) eqn:Hobj.
  { split; [split; [discriminate | intros [[H _] _]; discriminate]|].
    split; [reflexivity|].
    split; [intros H; discriminate|]. split; [intros; discriminate|].
    intros [H _]; discriminate. }
  split; [|split; [discriminate|]].
  - destruct (property test field) as [| |b|x|s|ids|fs] eqn:Hprop;
      try (split; [discriminate | intros [[_ [ids [H _]]] _]; discriminate]).
    destruct (check_ids isValid ids ids_error) as [[]|e] eqn:Hids.
    + pose proof (proj1 (check_ids_Ok ids ids_error) Hids) as Hall.
      destruct (loader_missing context loader method); split; try discriminate;
        try reflexivity.
      * intros [_ H]. discriminate.
      * intros _. split; [|reflexivity]. split; [reflexivity|]. exists ids. split; auto.
    + split; [discriminate|]. intros [[_ [ids' [Hids' Hall]]] _]. injection Hids' as <-.
      pose proof (proj2 (check_ids_Ok ids ids_error) Hall). congruence.
  - split; [|split].
    + intros _ Hnot. destruct (property test field) as [| |b|x|s|ids|fs];
        try reflexivity. exfalso. apply (Hnot ids). reflexivity.
    + intros ids k id _ Hprop Hk Hid Hbefore. rewrite Hprop.
      assert (Hthrow : check_ids isValid ids ids_error = Throw (ids_error id)).
      { apply check_ids_Throw. exists k, id. repeat split; assumption. }
      rewrite Hthrow. reflexivity.
    + intros [_ [ids [Hprop Hall]]] Hmissing. rewrite Hprop.
      rewrite (proj2 (check_ids_Ok ids ids_error) Hall), Hmissing. reflexivity.
Qed.

End LoaderInputChecks.

(** ValidateTaskLoaderInput and ValidateStudentTestResultLoaderInput accept
    exactly a test object whose array of identifiers holds valid identifiers
    only, under a context that has the loader with a loadMany function.  They
    look at the input first: a test that is no object, a property that is no
    array and the first invalid identifier of the array are reported, in
    this order, before a missing loader is. *)
Theorem list_loaders_check_input_before_context
    (isValid : value -> bool) (ToString : value -> string)
    (test : value) (context : option Context) :
  ids_loader_checks isValid test context "tasks"
    (field_error "Input error: test.tasks must be an array." "test.tasks")
    (tasks_id_error ToString) TaskLoader loadMany_is_function
    (INTERNAL_SERVER_ERROR
       "Server configuration error: TaskLoader with loadMany function not found on context.")
    (ValidateTaskLoaderInput isValid ToString test context)
  /\ ids_loader_checks isValid test context "student_test_results"
       (field_error "Input error: test.student_test_results must be an array."
                    "test.student_test_results")
       (results_id_error ToString) StudentTestResultLoader loadMany_is_function
       (INTERNAL_SERVER_ERROR
          "Server configuration error: StudentTestResultLoader with loadMany function not found on context.")
       (ValidateStudentTestResultLoaderInput isValid ToString test context).
Proof. split; apply ids_loader_outcome; reflexivity. Qed.

Lemma list_loaders_check_input_before_context_witness :
  ValidateTaskLoaderInput hex_id_value print_id
    (test_with_tasks [str user_1; str "task-7"; str "task-8"]) None
  = Throw (tasks_id_error print_id (str "task-7")).
Proof.
  destruct (list_loaders_check_input_before_context hex_id_value print_id
              (test_with_tasks [str user_1; str "task-7"; str "task-8"]) None)
    as [[_ [_ [_ [Hfirst _]]]] _].
  apply (Hfirst [str user_1; str "task-7"; str "task-8"] 1 (str "task-7"));
    try reflexivity.
  intros j id' Hj Hid'. destruct j as [|j]; [|lia]. injection Hid' as <-. reflexivity.
Defined.

(** ValidateSubjectLoaderInput accepts exactly a test object whose subject
    is a valid identifier under a context that has the SubjectLoader, and
    reports an invalid subject before a missing loader.
    ValidateUserLoaderInput accepts exactly a parent object under a context
    that has the UserLoader when the named property is falsy or a valid
    identifier: a user that is absent is accepted, and a missing loader is
    reported before the identifier is looked at. *)
Theorem single_id_loaders_outcome
    (isValid : value -> bool) (ToString : value -> string)
    (v : value) (context : option Context) (fieldName : string) :
  (ValidateSubjectLoaderInput isValid v context = Ok tt
   <-> not_an_object v = false /\ isValid (property v "subject") = true
       /\ loader_missing context SubjectLoader load_is_function = false)
  /\ (not_an_object v = false -> isValid (property v "subject") = false ->
      ValidateSubjectLoaderInput isValid v context
      = Throw (field_error "Input error: test.subject must be a valid ID." "test.subject"))
  /\ (ValidateUserLoaderInput isValid v context fieldName = Ok tt
      <-> not_an_object v = false
          /\ loader_missing context UserLoader load_is_function = false
          /\ (truthy (property v fieldName) = true ->
              isValid (property v fieldName) = true))
  /\ (not_an_object v = false ->
      loader_missing context UserLoader load_is_function = true ->
      ValidateUserLoaderInput isValid v context fieldName
      = Throw (INTERNAL_SERVER_ERROR
                 "Server configuration error: UserLoader not found on context.")).
Proof.
  unfold ValidateSubjectLoaderInput, ValidateUserLoaderInput. unfold_result.
  destruct (not_an_object v).
  { split; [split; [discriminate | intros [H _]; discriminate]|].
    split; [discriminate|].
    split; [split; [discriminate | intros [H _]; discriminate] | discriminate]. }
  split; [|split; [|split]].
  - destruct (isValid (property v "subject")); cbn [negb];
      [|split; [discriminate | intros [_ [H _]]; discriminate]].
    destruct (loader_missing context SubjectLoader load_is_function);
      split; try discriminate; try (intros [_ [_ H]]; discriminate); auto.
  - intros _ ->. reflexivity.
  - destruct (loader_missing context UserLoader load_is_function);
      [split; [discriminate | intros [_ [H _]]; discriminate]|].
    destruct (truthy (property v fieldName)); cbn [andb].
    + destruct (isValid (property v fieldName)); cbn [negb]; split; auto;
        try discriminate. intros [_ [_ H]]. specialize (H eq_refl). discriminate.
    + split; auto. intros _. repeat split. discriminate.
  - intros _ ->. reflexivity.
Qed.

Lemma single_id_loaders_outcome_witness :
  ValidateUserLoaderInput hex_id_value
    (VObject [("created_by", VNull)]) context_with_loaders "created_by" = Ok tt
  /\ ValidateUserLoaderInput hex_id_value
       (VObject [("created_by", str "nobody")]) None "created_by"
     = Throw (INTERNAL_SERVER_ERROR
                "Server configuration error: UserLoader not found on context.").
Proof.
  destruct (single_id_loaders_outcome hex_id_value print_id
              (VObject [("created_by", VNull)]) context_with_loaders "created_by")
    as [_ [_ [Hok _]]].
  destruct (single_id_loaders_outcome hex_id_value print_id
              (VObject [("created_by", str "nobody")]) None "created_by")
    as [_ [_ [_ Hmissing]]].
  split.
  - apply Hok. repeat split. discriminate.
  - apply Hmissing; reflexivity.
Defined.

